(** * Heart-hands gesture recogniser: feature pipeline and frame loops

    A shallow embedding of the two scripts of the repository,
    [collect_data.py] (data collection with the auto-capture hold timer)
    and [detect_realtime.py] (live inference with the smoothing window).

    Numeric model.  Landmark coordinates and feature values are modelled
    by the real numbers [R] (the norm needs a square root) and clock
    readings by the rationals [Q], both exact.  The classifier's
    probabilities and what the detector computes from them are float64
    values: each is modelled by the rational number it is, and every
    operation on them rounds its exact result to the nearest float64,
    ties to even ([Float64]), so that the mean of the smoothing window and
    its comparison with the threshold come out as they do in the program.
    Infinities, NaN and overflow are outside the model.

    Python exceptions are modelled by the [result] type: [Raise e] stands
    for an uncaught exception, [Ok None] for a returned [None]. *)

From Stdlib Require Import String Ascii.
From Stdlib Require Import Reals Lra Lia QArith Qminmax Qround Qabs Qpower Lqa Bool
  ZArith List.
From Stdlib Require Import DecimalString.
From Stdlib Require Import Permutation Sorted.
Import ListNotations.

(** Linear arithmetic, by the number type. *)
Ltac lraR := Lra.lra.
Ltac nraR := Lra.nra.
Ltac lraQ := Lqa.lra.

Open Scope string_scope.
Open Scope list_scope.

(** ** Python runtime: exceptions, indexing, [zip], [list.sort] *)

Module Py.

Inductive exn : Type := IndexError | ValueError.

Inductive result (A : Type) : Type :=
| Ok (a : A)
| Raise (e : exn).
Arguments Ok {A} a.
Arguments Raise {A} e.

Definition bind {A B : Type} (m : result A) (k : A -> result B) : result B :=
  match m with
  | Ok a => k a
  | Raise e => Raise e
  end.

(** [l[i]] for a non-negative [i]. *)
Definition index {A : Type} (l : list A) (i : nat) : result A :=
  match nth_error l i with
  | Some a => Ok a
  | None => Raise IndexError
  end.

(** [not l] for a list: true exactly on the empty list. *)
Definition is_falsy {A : Type} (l : list A) : bool :=
  match l with
  | [] => true
  | _ :: _ => false
  end.

(** [zip(l1, l2)] stops at the shorter list. *)
Definition zip {A B : Type} (l1 : list A) (l2 : list B) : list (A * B) :=
  combine l1 l2.

(** [l.sort(key=k)]: ascending by key, stable.  Insertion from the right
    puts an element in front of the elements of equal key that followed
    it in the input. *)
Fixpoint insert_key {A : Type} (k : A -> nat) (a : A) (l : list A) : list A :=
  match l with
  | [] => [a]
  | b :: l' => if (k a <=? k b)%nat then a :: b :: l' else b :: insert_key k a l'
  end.

Fixpoint sort_key {A : Type} (k : A -> nat) (l : list A) : list A :=
  match l with
  | [] => []
  | a :: l' => insert_key k a (sort_key k l')
  end.

(** [ord(c)] of a one-character string. *)
Definition ord (c : ascii) : Z := Z.of_nat (nat_of_ascii c).

(** [collections.deque(maxlen=n)]: [append] adds on the right and, when
    the length then exceeds [maxlen], removes one element on the left. *)
Record deque (A : Type) : Type := Deque { maxlen : nat; items : list A }.
Arguments Deque {A} maxlen items.
Arguments maxlen {A} d.
Arguments items {A} d.

Definition deque_new (A : Type) (n : nat) : deque A := Deque n [].

Definition deque_append {A : Type} (d : deque A) (a : A) : deque A :=
  let grown := items d ++ [a] in
  if (maxlen d <? length grown)%nat
  then Deque (maxlen d) (tl grown)
  else Deque (maxlen d) grown.

Definition deque_clear {A : Type} (d : deque A) : deque A :=
  Deque (maxlen d) [].

(** [int(x)] of a float: the integer part, towards zero. *)
Definition int_of_float (x : R) : Z :=
  if Rle_dec 0 x then Int_part x else (- Int_part (- x))%Z.

(** The same on a rational. *)
Definition int_of_rational (x : Q) : Z :=
  if Qle_bool 0 x then Qfloor x else Qceiling x.

(** [f"{i}"] of a non-negative integer. *)
Definition str_of_nat (i : nat) : string := NilZero.string_of_uint (Nat.to_uint i).

(** The integer nearest to [x], the even one of two equally near: the
    rounding of float arithmetic and of number formatting. *)
Definition round_half_even (x : Q) : Z :=
  let f := Qfloor x in
  match (x - inject_Z f ?= 1 # 2)%Q with
  | Lt => f
  | Gt => (f + 1)%Z
  | Eq => if Z.even f then f else (f + 1)%Z
  end.

(** The number of tenths [f"{x:.1f}"] prints for [x], sign apart. *)
Definition tenths (x : Q) : Z := round_half_even (10 * Qabs x).

(** [f"{x:.1f}"]: the sign, the integer part, a point and one digit. *)
Definition format_1f (x : Q) : string :=
  ((if Qle_bool 0 x then "" else "-")
   ++ str_of_nat (Z.to_nat (tenths x / 10)) ++ "."
   ++ str_of_nat (Z.to_nat (tenths x mod 10)))%string.

End Py.

Import Py.

Notation "x <- m ;; k" := (Py.bind m (fun x => k))
  (at level 61, m at next level, right associativity).

(** ** float64: the arithmetic of Python's [float] and NumPy's [float64]

    A finite float64 is the rational number it stands for.  An operation
    computes the exact result and rounds it to the nearest number with 53
    significant bits, or to the nearest multiple of [2^-1074] below
    [2^-1022]; a tie goes to the even significand. *)

Module Float64.

Local Open Scope Q_scope.

Definition pow2 (e : Z) : Q := 2 ^ e.

(** The integer [m] with [2^m <= x < 2^(m+1)], for a positive [x]. *)
Definition ilog2 (x : Q) : Z :=
  let e := (Z.log2 (Qnum x) - Z.log2 (Zpos (Qden x)))%Z in
  if Qle_bool (pow2 e) x then e else (e - 1)%Z.

(** The exponent of the last place of the float64 values around [x]. *)
Definition cexp (x : Q) : Z := Z.max (ilog2 (Qabs x) - 52) (-1074).

(** Round to nearest, ties to even. *)
Definition round (x : Q) : Q :=
  let x := Qred x in
  let e := cexp x in
  Qred (inject_Z (round_half_even (x / pow2 e)) * pow2 e).

Definition add (x y : Q) : Q := round (x + y).
Definition mul (x y : Q) : Q := round (x * y).
Definition div (x y : Q) : Q := round (x / y).

(** [float(n)] of an integer. *)
Definition of_int (n : Z) : Q := round (inject_Z n).

End Float64.

(** ** NumPy: the array operations the scripts use *)

Module Np.

Local Open Scope R_scope.

(** A row of an [(n, 2)] array. *)
Definition row : Type := (R * R)%type.

(** [np.linalg.norm(v)] of a row: the square root of [v.dot(v)]. *)
Definition linalg_norm (v : row) : R :=
  sqrt (fst v * fst v + snd v * snd v).

(** [a - b] on rows. *)
Definition row_sub (a b : row) : row := (fst a - fst b, snd a - snd b).

(** [arr - w]: the row [w] is broadcast over the rows of [arr]. *)
Definition sub_row (arr : list row) (w : row) : list row :=
  map (fun p => row_sub p w) arr.

(** [arr / s] for a scalar [s]. *)
Definition div_scalar (arr : list row) (s : R) : list row :=
  map (fun p => (fst p / s, snd p / s)) arr.

(** [arr.flatten()] in row-major order. *)
Definition flatten (arr : list row) : list R :=
  flat_map (fun p => [fst p; snd p]) arr.

(** [np.concatenate(arrs)] on one-dimensional arrays; an empty list of
    arrays is a [ValueError]. *)
Definition concatenate (arrs : list (list R)) : result (list R) :=
  match arrs with
  | [] => Raise ValueError
  | _ :: _ => Ok (concat arrs)
  end.

(** [a.copy()]: arrays are immutable values here, so the copy is the
    array itself; no later assignment can reach it. *)
Definition copy (a : list R) : list R := a.

(** [np.add.reduce] on a float64 array is NumPy's pairwise summation.
    Fewer than 8 values are added from left to right.  From 8 to 128
    values, the first eight start eight accumulators, every further whole
    block of eight is added to them ([r[j] += a[i + j]]), the accumulators
    are added as [((r0 + r1) + (r2 + r3)) + ((r4 + r5) + (r6 + r7))] and
    the values left over are added one by one.  More than 128 values are
    cut in two at a multiple of 8 and the two sums are added. *)
Fixpoint add_rows (r a : list Q) : list Q :=
  match r, a with
  | x :: r', y :: a' => Float64.add x y :: add_rows r' a'
  | _, _ => r
  end.

Fixpoint accumulate (fuel : nat) (r a : list Q) : list Q * list Q :=
  match fuel with
  | O => (r, a)
  | S fuel' =>
      if (8 <=? length a)%nat
      then accumulate fuel' (add_rows r (firstn 8 a)) (skipn 8 a)
      else (r, a)
  end.

Definition sum_block (a : list Q) : Q :=
  let (r, rest) := accumulate (length a) (firstn 8 a) (skipn 8 a) in
  match r with
  | [r0; r1; r2; r3; r4; r5; r6; r7] =>
      fold_left Float64.add rest
        (Float64.add
           (Float64.add (Float64.add r0 r1) (Float64.add r2 r3))
           (Float64.add (Float64.add r4 r5) (Float64.add r6 r7)))
  | _ => 0%Q
  end.

(** [fuel] bounds the depth of the halving; the length of the array is
    more than enough. *)
Fixpoint pairwise (fuel : nat) (a : list Q) : Q :=
  let n := length a in
  if (n <? 8)%nat then fold_left Float64.add a 0%Q
  else if (n <=? 128)%nat then sum_block a
  else
    match fuel with
    | O => 0%Q
    | S fuel' =>
        let n2 := (n / 2 - (n / 2) mod 8)%nat in
        Float64.add (pairwise fuel' (firstn n2 a)) (pairwise fuel' (skipn n2 a))
    end.

Definition pairwise_sum (a : list Q) : Q := pairwise (length a) a.

(** [np.mean(xs)] of a sequence of float64 values: the pairwise sum,
    divided by the count.  The mean of no values, NaN in NumPy, is outside
    the model; the detector takes the mean after an append. *)
Definition mean (xs : list Q) : Q :=
  Float64.div (pairwise_sum xs) (Float64.of_int (Z.of_nat (length xs))).

End Np.

(** ** MediaPipe: the detector's result types, as far as they are read *)

Module Lm.
(** A landmark; the scripts read [x] and [y] only. *)
Record t : Type := mk { x : R; y : R }.
End Lm.

Record Category : Type := { category_name : string }.

(** ** OpenCV: a frame as its size and the primitives drawn on it *)

Module Cv2.

Definition point : Type := (Z * Z)%type.
Definition color : Type := (Z * Z * Z)%type.

Inductive primitive : Type :=
| Line (pt1 pt2 : point) (c : color) (thickness : Z)
| Circle (center : point) (radius : Z) (c : color) (thickness : Z).

(** [shape] is (rows, columns); [drawn] lists the calls of [cv2.line] and
    [cv2.circle] on the frame, oldest first. *)
Record image : Type := { shape : Z * Z; drawn : list primitive }.

Definition draw (p : primitive) (frame : image) : image :=
  {| shape := shape frame; drawn := drawn frame ++ [p] |}.

End Cv2.

(** ** collect_data.py *)

Module CollectData.

Local Open Scope R_scope.

(** Lines 62-64: the distance between the anchors, floored at [1e-6]. *)
Definition scale_of (wrist middle_mcp : Np.row) : R :=
  let scale := Np.linalg_norm (Np.row_sub middle_mcp wrist) in
  if Rlt_dec scale 1e-6 then 1e-6 else scale.

Definition normalize_landmarks (hand_landmarks : list Lm.t) : result (list R) :=
  let landmarks := map (fun lm => (Lm.x lm, Lm.y lm)) hand_landmarks in
  wrist <- index landmarks 0 ;;
  middle_mcp <- index landmarks 9 ;;
  let scale := scale_of wrist middle_mcp in
  let normalized := Np.div_scalar (Np.sub_row landmarks wrist) scale in
  Ok (Np.flatten normalized).

(** The loop of lines 110-115 over the zipped lists. *)
Fixpoint hand_data_of (pairs : list (list Lm.t * list Category))
  : result (list (string * list R)) :=
  match pairs with
  | [] => Ok []
  | (hand_landmarks, handedness) :: rest =>
      c <- index handedness 0 ;;
      let hand_type := category_name c in
      normalized <- normalize_landmarks hand_landmarks ;;
      hand_data <- hand_data_of rest ;;
      Ok ((hand_type, normalized) :: hand_data)
  end.

(** The sort key of line 118. *)
Definition hand_key (x : string * list R) : nat :=
  if String.eqb (fst x) "Left" then 0%nat else 1%nat.

Definition extract_features (hand_landmarks_list : list (list Lm.t))
    (handedness_list : list (list Category)) : result (option (list R)) :=
  if is_falsy hand_landmarks_list || (length hand_landmarks_list <? 2)%nat
  then Ok None
  else
    hand_data <- hand_data_of (zip hand_landmarks_list handedness_list) ;;
    let hand_data := sort_key hand_key hand_data in
    features <- Np.concatenate (map snd hand_data) ;;
    Ok (Some features).

(** *** The frame loop of [main]

    What one iteration reads from outside: the features computed at
    line 189, the clock and the keyboard.  [time.time()] is called at
    line 195 only when the timer is not running, and once more at
    line 196. *)
Record Frame : Type := {
  features : option (list R);
  time_195 : Q;
  time_196 : Q;
  key : Z
}.

Inductive Status : Type :=
| ShowTwoHands
| HoldSteady (remaining : Q)
| SampleCaptured
| SavedAsHeart
| SavedAsNotHeart.

(** The text of [auto_sample_status] (lines 168, 200, 203, 207, 257 and
    268), as line 219 draws it. *)
Definition status_text (s : Status) : string :=
  match s with
  | ShowTwoHands => "Show 2 hands to start auto-capture"
  | HoldSteady remaining =>
      ("Hold both hands steady: " ++ format_1f remaining ++ "s")%string
  | SampleCaptured => "Sample captured! Press A=Heart, D=Not-Heart"
  | SavedAsHeart => "Last sample saved as HEART"
  | SavedAsNotHeart => "Last sample saved as NOT-HEART"
  end.

(** History of the run, oldest first: the snapshots taken at line 198 and
    the calls of [save_sample], by the branch that made them. *)
Inductive Event : Type :=
| Captured (snapshot : list R)
| SavedInstant (row : list R) (label : Z)
| SavedAuto (row : list R) (label : Z).

Record State : Type := {
  heart_count : Z;
  not_heart_count : Z;
  two_hands_start_time : option Q;
  pending_sample : bool;
  captured_features : option (list R);
  auto_sample_status : Status;
  history : list Event
}.

(** Lines 163-168. *)
Definition initial : State :=
  {| heart_count := 0; not_heart_count := 0;
     two_hands_start_time := None; pending_sample := false;
     captured_features := None; auto_sample_status := ShowTwoHands;
     history := [] |}.

(** Lines 191-207. *)
Definition auto_capture (fr : Frame) (st : State) : State :=
  match features fr with
  | Some f =>
      if negb (pending_sample st) then
        let start :=
          match two_hands_start_time st with
          | None => time_195 fr
          | Some t => t
          end in
        let elapsed := (time_196 fr - start)%Q in
        if Qle_bool 3.0 elapsed && negb (pending_sample st) then
          {| heart_count := heart_count st;
             not_heart_count := not_heart_count st;
             two_hands_start_time := Some start;
             pending_sample := true;
             captured_features := Some (Np.copy f);
             auto_sample_status := SampleCaptured;
             history := history st ++ [Captured (Np.copy f)] |}
        else
          let remaining := Qmax 0.0 (3.0 - elapsed) in
          {| heart_count := heart_count st;
             not_heart_count := not_heart_count st;
             two_hands_start_time := Some start;
             pending_sample := pending_sample st;
             captured_features := captured_features st;
             auto_sample_status := HoldSteady remaining;
             history := history st |}
      else st
  | None =>
      if negb (pending_sample st) then
        {| heart_count := heart_count st;
           not_heart_count := not_heart_count st;
           two_hands_start_time := None;
           pending_sample := pending_sample st;
           captured_features := captured_features st;
           auto_sample_status := ShowTwoHands;
           history := history st |}
      else st
  end.

Definition key_is (k : Z) (lower upper : ascii) : bool :=
  (k =? ord lower)%Z || (k =? ord upper)%Z.

(** Lines 235-248: [H] and [N] save the features of the current frame. *)
Definition save_instant (fr : Frame) (label : Z) (st : State) : State :=
  match features fr with
  | Some f =>
      {| heart_count := if (label =? 1)%Z then heart_count st + 1 else heart_count st;
         not_heart_count :=
           if (label =? 1)%Z then not_heart_count st else not_heart_count st + 1;
         two_hands_start_time := two_hands_start_time st;
         pending_sample := pending_sample st;
         captured_features := captured_features st;
         auto_sample_status := auto_sample_status st;
         history := history st ++ [SavedInstant f label] |}
  | None => st
  end.

(** Lines 249-270: [A] and [D] label the pending snapshot. *)
Definition save_pending (label : Z) (st : State) : State :=
  match pending_sample st, captured_features st with
  | true, Some c =>
      {| heart_count := if (label =? 1)%Z then heart_count st + 1 else heart_count st;
         not_heart_count :=
           if (label =? 1)%Z then not_heart_count st else not_heart_count st + 1;
         two_hands_start_time := None;
         pending_sample := false;
         captured_features := None;
         auto_sample_status := if (label =? 1)%Z then SavedAsHeart else SavedAsNotHeart;
         history := history st ++ [SavedAuto c label] |}
  | _, _ => st
  end.

(** Lines 231-270; [None] is the [break] of line 234. *)
Definition handle_key (fr : Frame) (st : State) : option State :=
  let k := key fr in
  if key_is k "q" "Q" then None
  else if key_is k "h" "H" then Some (save_instant fr 1 st)
  else if key_is k "n" "N" then Some (save_instant fr 0 st)
  else if key_is k "a" "A" then Some (save_pending 1 st)
  else if key_is k "d" "D" then Some (save_pending 0 st)
  else Some st.

(** The [while True] loop of lines 170-270 over the frames the camera
    delivers before it fails or the user quits. *)
Fixpoint main_loop (frames : list Frame) (st : State) : State :=
  match frames with
  | [] => st
  | fr :: rest =>
      let st1 := auto_capture fr st in
      match handle_key fr st1 with
      | None => st1
      | Some st2 => main_loop rest st2
      end
  end.

(** *** Drawing (lines 71-98) *)

Definition HAND_CONNECTIONS : list (nat * nat) :=
  [(0, 1); (1, 2); (2, 3); (3, 4);
   (0, 5); (5, 6); (6, 7); (7, 8);
   (0, 9); (9, 10); (10, 11); (11, 12);
   (0, 13); (13, 14); (14, 15); (15, 16);
   (0, 17); (17, 18); (18, 19); (19, 20);
   (5, 9); (9, 13); (13, 17)]%nat.

(** The pixel of a landmark on a frame of [h] rows and [w] columns. *)
Definition pixel (h w : Z) (lm : Lm.t) : Cv2.point :=
  (int_of_float (Lm.x lm * IZR w), int_of_float (Lm.y lm * IZR h)).

(** The loop over the connections of one hand. *)
Fixpoint draw_connections (hand_landmarks : list Lm.t)
    (connections : list (nat * nat)) (frame : Cv2.image) : result Cv2.image :=
  let (h, w) := Cv2.shape frame in
  match connections with
  | [] => Ok frame
  | (start_idx, end_idx) :: rest =>
      start <- index hand_landmarks start_idx ;;
      end_ <- index hand_landmarks end_idx ;;
      let start_point := pixel h w start in
      let end_point := pixel h w end_ in
      draw_connections hand_landmarks rest
        (Cv2.draw (Cv2.Line start_point end_point (255, 255, 255)%Z 2) frame)
  end.

(** The loop over the landmarks of one hand. *)
Fixpoint draw_points (hand_landmarks : list Lm.t) (frame : Cv2.image)
  : Cv2.image :=
  let (h, w) := Cv2.shape frame in
  match hand_landmarks with
  | [] => frame
  | lm :: rest =>
      draw_points rest
        (Cv2.draw (Cv2.Circle (pixel h w lm) 4 (0, 255, 0)%Z (-1)) frame)
  end.

Fixpoint draw_landmarks (frame : Cv2.image) (hand_landmarks_list : list (list Lm.t))
  : result Cv2.image :=
  match hand_landmarks_list with
  | [] => Ok frame
  | hand_landmarks :: rest =>
      frame <- draw_connections hand_landmarks HAND_CONNECTIONS frame ;;
      draw_landmarks (draw_points hand_landmarks frame) rest
  end.

(** *** The dataset file (lines 125-139)

    The file as the records [csv.writer] wrote to it; [None] is a file
    that does not exist. *)
Inductive cell : Type :=
| Text (s : string)
| Float (x : R)
| Int (n : Z).

Definition record : Type := list cell.
Definition csv_file : Type := option (list record).

Definition header : record :=
  map (fun i => Text ("feature_" ++ str_of_nat i)%string) (seq 0 84)
  ++ [Text "label"].

Definition init_csv (file : csv_file) : csv_file :=
  match file with
  | None => Some [header]
  | Some _ => file
  end.

(** Mode ['a'] creates the file when it is missing. *)
Definition save_sample (features : list R) (label : Z) (file : csv_file)
  : csv_file :=
  let row := map Float features ++ [Int label] in
  match file with
  | None => Some [row]
  | Some rows => Some (rows ++ [row])
  end.

(** What the key of a frame does to the file (lines 231-270), in the state
    [st] left by lines 191-207. *)
Definition handle_key_file (fr : Frame) (st : State) (file : csv_file)
  : csv_file :=
  let k := key fr in
  if key_is k "q" "Q" then file
  else if key_is k "h" "H" then
    match features fr with
    | Some f => save_sample f 1 file
    | None => file
    end
  else if key_is k "n" "N" then
    match features fr with
    | Some f => save_sample f 0 file
    | None => file
    end
  else if key_is k "a" "A" then
    match pending_sample st, captured_features st with
    | true, Some c => save_sample c 1 file
    | _, _ => file
    end
  else if key_is k "d" "D" then
    match pending_sample st, captured_features st with
    | true, Some c => save_sample c 0 file
    | _, _ => file
    end
  else file.

(** The loop of lines 170-270 with the file it appends to. *)
Fixpoint main_loop_file (frames : list Frame) (st : State) (file : csv_file)
  : State * csv_file :=
  match frames with
  | [] => (st, file)
  | fr :: rest =>
      let st1 := auto_capture fr st in
      match handle_key fr st1 with
      | None => (st1, file)
      | Some st2 => main_loop_file rest st2 (handle_key_file fr st1 file)
      end
  end.

(** [main] from line 144 on: [init_csv], then the webcam; when it cannot
    be opened the function returns before the loop. *)
Definition main (opened : bool) (frames : list Frame) (file : csv_file)
  : State * csv_file :=
  let file := init_csv file in
  if opened then main_loop_file frames initial file else (initial, file).

End CollectData.

(** ** detect_realtime.py *)

Module DetectRealtime.

Local Open Scope R_scope.

Definition SMOOTHING_WINDOW : nat := 10.
(** Line 25: the float64 that the literal [0.80] denotes. *)
Definition HEART_THRESHOLD : Q := Float64.round 0.80.

(** Lines 64-66. *)
Definition scale_of (wrist middle_mcp : Np.row) : R :=
  let scale := Np.linalg_norm (Np.row_sub middle_mcp wrist) in
  if Rlt_dec scale 1e-6 then 1e-6 else scale.

Definition normalize_landmarks (hand_landmarks : list Lm.t) : result (list R) :=
  let landmarks := map (fun lm => (Lm.x lm, Lm.y lm)) hand_landmarks in
  wrist <- index landmarks 0 ;;
  middle_mcp <- index landmarks 9 ;;
  let scale := scale_of wrist middle_mcp in
  let normalized := Np.div_scalar (Np.sub_row landmarks wrist) scale in
  Ok (Np.flatten normalized).

(** The loop of lines 112-117 over the zipped lists. *)
Fixpoint hand_data_of (pairs : list (list Lm.t * list Category))
  : result (list (string * list R)) :=
  match pairs with
  | [] => Ok []
  | (hand_landmarks, handedness) :: rest =>
      c <- index handedness 0 ;;
      let hand_type := category_name c in
      normalized <- normalize_landmarks hand_landmarks ;;
      hand_data <- hand_data_of rest ;;
      Ok ((hand_type, normalized) :: hand_data)
  end.

(** The sort key of line 120. *)
Definition hand_key (x : string * list R) : nat :=
  if String.eqb (fst x) "Left" then 0%nat else 1%nat.

Definition extract_features (hand_landmarks_list : list (list Lm.t))
    (handedness_list : list (list Category)) : result (option (list R)) :=
  if is_falsy hand_landmarks_list || (length hand_landmarks_list <? 2)%nat
  then Ok None
  else
    hand_data <- hand_data_of (zip hand_landmarks_list handedness_list) ;;
    let hand_data := sort_key hand_key hand_data in
    features <- Np.concatenate (map snd hand_data) ;;
    Ok (Some features).

(** *** The frame loop of [main] *)

(** What one iteration shows: the banner text and, in the two-hands
    branch, the smoothed probability behind the confidence bar. *)
Record Display : Type := {
  display_text : string;
  avg_probability : option Q
}.

(** The decision a frame reports is the banner it draws. *)
Definition is_gesture (d : Display) : bool :=
  String.eqb (display_text d) "HEART <3".

(** Line 170. *)
Definition initial : deque Q := deque_new Q SMOOTHING_WINDOW.

Section Loop.

(** Lines 195-196: the loaded scaler and classifier, as the map from a
    feature vector to the probability of the heart class. *)
Variable heart_probability : list R -> Q.

(** Lines 193-293, the decision step of one frame, for the features
    computed at line 191. *)
Definition update (features : option (list R)) (prediction_buffer : deque Q)
  : deque Q * Display :=
  match features with
  | Some f =>
      let probability := heart_probability f in
      let prediction_buffer := deque_append prediction_buffer probability in
      let avg_probability := Np.mean (items prediction_buffer) in
      let is_heart := Qle_bool HEART_THRESHOLD avg_probability in
      let display_text := if is_heart then "HEART <3" else "NO HEART" in
      (prediction_buffer,
       {| display_text := display_text; avg_probability := Some avg_probability |})
  | None =>
      (deque_clear prediction_buffer,
       {| display_text := "NO HEART"; avg_probability := None |})
  end.

(** The [while True] loop of lines 172-304 over the features of the
    frames before the camera fails or the user quits; it returns the final
    buffer and what each frame displayed. *)
Fixpoint main_loop (frames : list (option (list R))) (prediction_buffer : deque Q)
  : deque Q * list Display :=
  match frames with
  | [] => (prediction_buffer, [])
  | features :: rest =>
      let (buf, d) := update features prediction_buffer in
      let (final, ds) := main_loop rest buf in
      (final, d :: ds)
  end.

End Loop.

(** *** Drawing (lines 73-100) *)

Definition HAND_CONNECTIONS : list (nat * nat) :=
  [(0, 1); (1, 2); (2, 3); (3, 4);
   (0, 5); (5, 6); (6, 7); (7, 8);
   (0, 9); (9, 10); (10, 11); (11, 12);
   (0, 13); (13, 14); (14, 15); (15, 16);
   (0, 17); (17, 18); (18, 19); (19, 20);
   (5, 9); (9, 13); (13, 17)]%nat.

(** The pixel of a landmark on a frame of [h] rows and [w] columns. *)
Definition pixel (h w : Z) (lm : Lm.t) : Cv2.point :=
  (int_of_float (Lm.x lm * IZR w), int_of_float (Lm.y lm * IZR h)).

(** The loop over the connections of one hand. *)
Fixpoint draw_connections (hand_landmarks : list Lm.t)
    (connections : list (nat * nat)) (frame : Cv2.image) : result Cv2.image :=
  let (h, w) := Cv2.shape frame in
  match connections with
  | [] => Ok frame
  | (start_idx, end_idx) :: rest =>
      start <- index hand_landmarks start_idx ;;
      end_ <- index hand_landmarks end_idx ;;
      let start_point := pixel h w start in
      let end_point := pixel h w end_ in
      draw_connections hand_landmarks rest
        (Cv2.draw (Cv2.Line start_point end_point (255, 255, 255)%Z 2) frame)
  end.

(** The loop over the landmarks of one hand. *)
Fixpoint draw_points (hand_landmarks : list Lm.t) (frame : Cv2.image)
  : Cv2.image :=
  let (h, w) := Cv2.shape frame in
  match hand_landmarks with
  | [] => frame
  | lm :: rest =>
      draw_points rest
        (Cv2.draw (Cv2.Circle (pixel h w lm) 4 (0, 255, 0)%Z (-1)) frame)
  end.

Fixpoint draw_landmarks (frame : Cv2.image) (hand_landmarks_list : list (list Lm.t))
  : result Cv2.image :=
  match hand_landmarks_list with
  | [] => Ok frame
  | hand_landmarks :: rest =>
      frame <- draw_connections hand_landmarks HAND_CONNECTIONS frame ;;
      draw_landmarks (draw_points hand_landmarks frame) rest
  end.

(** *** The probability bar (lines 233-266), for a frame of [columns]
    columns *)

Definition bar_width : Z := 300.

Definition bar_x (columns : Z) : Z := ((columns - bar_width) / 2)%Z.

Definition fill_width (avg_probability : Q) : Z :=
  int_of_rational (Float64.mul (Float64.of_int bar_width) avg_probability).

Definition bar_color (avg_probability : Q) : Cv2.color :=
  if Qle_bool HEART_THRESHOLD avg_probability
  then (0, 255, 0)%Z
  else (0, 165, 255)%Z.

Definition threshold_x (columns : Z) : Z :=
  (bar_x columns
   + int_of_rational (Float64.mul (Float64.of_int bar_width) HEART_THRESHOLD))%Z.

End DetectRealtime.

(** * Vocabulary of the properties *)

Local Open Scope R_scope.

(** The order [list.sort] sorts by. *)
Definition key_le {A : Type} (k : A -> nat) (a b : A) : Prop := (k a <= k b)%nat.

(** ** Hands *)

(** The array of line 53. *)
Definition coords (hand : list Lm.t) : list Np.row :=
  map (fun lm => (Lm.x lm, Lm.y lm)) hand.

(** The hand after the uniform scaling [s] and the translation [t] of the
    image plane. *)
Definition similar (s : R) (t : Np.row) (hand : list Lm.t) : list Lm.t :=
  map (fun lm => Lm.mk (s * Lm.x lm + fst t) (s * Lm.y lm + snd t)) hand.

(** The wrist-to-MCP distance of a hand, as line 62 computes it. *)
Definition anchor_distance (hand : list Lm.t) : R :=
  match nth_error (coords hand) 0, nth_error (coords hand) 9 with
  | Some wrist, Some middle_mcp => Np.linalg_norm (Np.row_sub middle_mcp wrist)
  | _, _ => 0
  end.

(** The label and the normalised landmarks the loop of lines 110-115
    records for one detected hand. *)
Definition label_of (handedness : list Category) : string :=
  match handedness with
  | c :: _ => category_name c
  | [] => ""
  end.

Definition normalized (hand : list Lm.t) : list R :=
  match CollectData.normalize_landmarks hand with
  | Ok v => v
  | Raise _ => []
  end.

Definition labelled (hands : list (list Lm.t)) (handedness : list (list Category))
  : list (string * list R) :=
  map (fun p => (label_of (snd p), normalized (fst p))) (zip hands handedness).

Definition is_left (x : string * list R) : bool := String.eqb (fst x) "Left".

(** The normalised hands with a label for which [keep] holds, in detection
    order, end to end. *)
Definition hands_where (keep : string * list R -> bool)
    (hand_data : list (string * list R)) : list R :=
  concat (map snd (filter keep hand_data)).

(** ** The collection loop *)

(** Snapshots taken and pending snapshots labelled, in a history. *)
Definition captures (h : list CollectData.Event) : nat :=
  length (filter (fun e => match e with
                           | CollectData.Captured _ => true
                           | _ => false
                           end) h).

Definition auto_saves (h : list CollectData.Event) : nat :=
  length (filter (fun e => match e with
                           | CollectData.SavedAuto _ _ => true
                           | _ => false
                           end) h).

Definition quit_key (k : Z) : bool := CollectData.key_is k "q" "Q".

Definition confirm_key (k : Z) : bool :=
  CollectData.key_is k "a" "A" || CollectData.key_is k "d" "D".

(** The clock value the hold is measured from when [fr] is processed in
    state [st]: the running timer's start, or the reading of line 195. *)
Definition start_of (st : CollectData.State) (fr : CollectData.Frame) : Q :=
  match CollectData.two_hands_start_time st with
  | None => CollectData.time_195 fr
  | Some t => t
  end.

(** The start of the hold over a run of frames processed from [st]. *)
Definition hold_start (st : CollectData.State) (frames : list CollectData.Frame)
  : Q :=
  match CollectData.two_hands_start_time st, frames with
  | Some t, _ => t
  | None, fr :: _ => CollectData.time_195 fr
  | None, [] => 0
  end.

(** The hold time line 196 computes for [fr], from the start [t0]. *)
Definition elapsed (t0 : Q) (fr : CollectData.Frame) : Q :=
  (CollectData.time_196 fr - t0)%Q.

Definition present (fr : CollectData.Frame) : Prop :=
  CollectData.features fr <> None.

(** Every snapshot taken has been labelled, except the pending one; the
    flag is up exactly when a snapshot is stored. *)
Definition balanced (st : CollectData.State) : Prop :=
  captures (CollectData.history st)
  = (auto_saves (CollectData.history st)
     + if CollectData.pending_sample st then 1 else 0)%nat
  /\ (CollectData.pending_sample st = true
      <-> CollectData.captured_features st <> None).

(** ** The detection loop *)

(** The arithmetic mean of the values, exactly. *)
Definition average (xs : list Q) : Q :=
  (fold_left Qplus xs 0 / inject_Z (Z.of_nat (length xs)))%Q.

(** A probability. *)
Definition unit_interval (p : Q) : Prop := (0 <= p <= 1)%Q.

(** [2^-50]: half a unit in the last place of the float64 values from 8
    to 16, and at most that for smaller ones. *)
Definition half_ulp : Q := 1 # 1125899906842624.

(** [2^-46], sixteen times that: how far the float64 mean of up to ten
    probabilities can be from their exact mean. *)
Definition mean_tolerance : Q := 1 # 70368744177664.

(** The float64 just below the threshold. *)
Definition below_threshold : Q := 7205759403792793 # 9007199254740992.

(** The exponent of the last place of the float64 nearest to [x]. *)
Definition ulp_exp (x : Q) : Z := Float64.cexp (Qred x).

(** [sums K m s S]: the float64 value [s] stands for the exact sum [S] of
    [K] probabilities, after [m] rounded additions. *)
Definition sums (K : Z) (m s S : Q) : Prop :=
  (0 <= S <= inject_Z K)%Q /\ (0 <= s <= inject_Z K)%Q
  /\ (S - m * half_ulp <= s <= S + m * half_ulp)%Q /\ (0 <= m <= 12)%Q.

(** * Sample data *)

Definition origin : Lm.t := Lm.mk 0 0.

(** All 21 landmarks on one point. *)
Definition point_hand (p : Lm.t) : list Lm.t := repeat p 21.

(** A collapsed detection: every landmark on the wrist, the middle MCP
    half a micro-unit below it in the image. *)
Definition tiny_hand : list Lm.t :=
  repeat origin 9 ++ [Lm.mk 0 5e-7] ++ repeat origin 11.

(** A spread hand: landmark [i] at [(i/40, i*i/800)]. *)
Definition spread_hand : list Lm.t :=
  map (fun i => Lm.mk (IZR (Z.of_nat i) / 40) (IZR (Z.of_nat (i * i)) / 800))
    (seq 0 21).

Definition left_hand : list Category := [{| category_name := "Left" |}].
Definition right_hand : list Category := [{| category_name := "Right" |}].

Definition three_hands : list (list Lm.t) :=
  [spread_hand; tiny_hand; point_hand origin].
Definition three_labels : list (list Category) :=
  [right_hand; left_hand; right_hand].

(** A classifier that reads the probability off the length of the feature
    vector, and frames whose vectors have the lengths [1 .. n]. *)
Definition count_probability (f : list R) : Q := Qmake (Z.of_nat (length f)) 100.

(** A classifier that gives every frame the float64 nearest to [p]. *)
Definition constant (p : Q) (f : list R) : Q := Float64.round p.

(** A classifier between two values: 0.9 on feature vectors of even
    length, 0.7 on the others. *)
Definition wavering (f : list R) : Q :=
  if Nat.even (length f) then Float64.round 0.9 else Float64.round 0.7.

Definition ramp (n : nat) : list (option (list R)) :=
  map (fun k => Some (repeat 0 k)) (seq 1 n).

(** Frames of the collection loop: no key pressed ([waitKey] gives -1,
    masked to 255), one clock value per frame, feature vectors told apart
    by their length. *)
Definition no_key : Z := 255.

Definition frame_at (k : nat) (t : Q) : CollectData.Frame :=
  {| CollectData.features := Some (repeat 0 k);
     CollectData.time_195 := t; CollectData.time_196 := t;
     CollectData.key := no_key |}.

Definition gap_at (t : Q) : CollectData.Frame :=
  {| CollectData.features := None;
     CollectData.time_195 := t; CollectData.time_196 := t;
     CollectData.key := no_key |}.

Definition short_run : list CollectData.Frame :=
  [frame_at 1 10; frame_at 2 11; frame_at 3 12.9].

Definition long_run : list CollectData.Frame :=
  [frame_at 1 10; frame_at 2 11.5; frame_at 3 13; frame_at 4 14; frame_at 5 15].

Definition later_run : list CollectData.Frame :=
  [frame_at 7 20; gap_at 21; frame_at 8 30].

(** * Vocabulary of the further properties *)

(** A zipped detection on which the loop of lines 110-115 raises: fewer
    than ten landmarks, or no handedness category. *)
Definition unusable (p : list Lm.t * list Category) : Prop :=
  (length (fst p) < 10)%nat \/ snd p = [].

(** The number of feature values the zipped detections contribute. *)
Definition feature_count (pairs : list (list Lm.t * list Category)) : nat :=
  list_sum (map (fun p => 2 * length (fst p))%nat pairs).

(** Each hand moved by its own translation of the image plane. *)
Definition translated (ts : list Np.row) (hands : list (list Lm.t))
  : list (list Lm.t) :=
  map (fun p => similar 1 (fst p) (snd p)) (combine ts hands).

(** The points a primitive is anchored at, and the pixels of a frame. *)
Definition points_of (p : Cv2.primitive) : list Cv2.point :=
  match p with
  | Cv2.Line pt1 pt2 _ _ => [pt1; pt2]
  | Cv2.Circle center _ _ _ => [center]
  end.

Definition inside (frame : Cv2.image) (pt : Cv2.point) : Prop :=
  (0 <= fst pt < snd (Cv2.shape frame))%Z
  /\ (0 <= snd pt < fst (Cv2.shape frame))%Z.

Definition in_unit_square (lm : Lm.t) : Prop :=
  0 <= Lm.x lm < 1 /\ 0 <= Lm.y lm < 1.

(** The records the calls of [save_sample] in a history write, in order. *)
Definition saved_records (h : list CollectData.Event) : list CollectData.record :=
  flat_map (fun e => match e with
                     | CollectData.Captured _ => []
                     | CollectData.SavedInstant row label
                     | CollectData.SavedAuto row label =>
                         [map CollectData.Float row ++ [CollectData.Int label]]
                     end) h.

(** The saves of a history with a given label. *)
Definition saves_labelled (label : Z) (h : list CollectData.Event) : nat :=
  length (filter (fun e => match e with
                           | CollectData.Captured _ => false
                           | CollectData.SavedInstant _ l
                           | CollectData.SavedAuto _ l => (l =? label)%Z
                           end) h).

(** The last [n] elements of a list. *)
Definition lastn {A : Type} (n : nat) (l : list A) : list A :=
  skipn (length l - n) l.

(** The feature vectors of the frames after the last frame without
    features, [acc] being those before the first frame of the list. *)
Fixpoint since_gap_from (acc : list (list R)) (frames : list (option (list R)))
  : list (list R) :=
  match frames with
  | [] => acc
  | None :: rest => since_gap_from [] rest
  | Some f :: rest => since_gap_from (acc ++ [f]) rest
  end.

Definition since_gap (frames : list (option (list R))) : list (list R) :=
  since_gap_from [] frames.

(** Sample data: ten landmarks on a line, a frame of 480 rows and 640
    columns, a quit frame. *)
Definition short_hand : list Lm.t :=
  map (fun i => Lm.mk (IZR (Z.of_nat i) / 40) 0) (seq 0 10).

Definition blank : Cv2.image := {| Cv2.shape := (480, 640)%Z; Cv2.drawn := [] |}.

Definition key_frame (k : nat) (t : Q) (c : ascii) : CollectData.Frame :=
  {| CollectData.features := Some (repeat 0 k);
     CollectData.time_195 := t; CollectData.time_196 := t;
     CollectData.key := ord c |}.

(** [st'] continues [st]: the history grew by [new], and the two counters
    by the saves in [new] with label 1 and with label 0. *)
Definition continues (st st' : CollectData.State) (new : list CollectData.Event)
  : Prop :=
  CollectData.history st' = CollectData.history st ++ new
  /\ CollectData.heart_count st'
     = (CollectData.heart_count st + Z.of_nat (saves_labelled 1 new))%Z
  /\ CollectData.not_heart_count st'
     = (CollectData.not_heart_count st + Z.of_nat (saves_labelled 0 new))%Z
  /\ length (saved_records new)
     = (saves_labelled 1 new + saves_labelled 0 new)%nat.

(** The feature vector [row] was computed for one of the frames. *)
Definition seen (frames : list CollectData.Frame) (row : list R) : Prop :=
  exists fr, In fr frames /\ CollectData.features fr = Some row.

(** Every save in the history wrote the features of a frame, every
    labelled snapshot was taken earlier in the history, and so was the
    stored one. *)
Definition traceable (frames : list CollectData.Frame) (st : CollectData.State)
  : Prop :=
  (forall row label,
     In (CollectData.SavedInstant row label) (CollectData.history st) ->
     seen frames row)
  /\ (forall c, In (CollectData.Captured c) (CollectData.history st) ->
                seen frames c)
  /\ (forall before row label after,
        CollectData.history st
        = before ++ CollectData.SavedAuto row label :: after ->
        In (CollectData.Captured row) before)
  /\ (forall c, CollectData.captured_features st = Some c ->
                In (CollectData.Captured c) (CollectData.history st)).

(** The prompt for a label is up exactly while a sample is pending. *)
Definition prompting (st : CollectData.State) : Prop :=
  CollectData.pending_sample st = true
  <-> CollectData.auto_sample_status st = CollectData.SampleCaptured.

(** The frame with an [H] or [N] key taken away. *)
Definition without_instant (fr : CollectData.Frame) : CollectData.Frame :=
  if CollectData.key_is (CollectData.key fr) "h" "H"
     || CollectData.key_is (CollectData.key fr) "n" "N"
  then {| CollectData.features := CollectData.features fr;
          CollectData.time_195 := CollectData.time_195 fr;
          CollectData.time_196 := CollectData.time_196 fr;
          CollectData.key := no_key |}
  else fr.

(** The history without the instant saves. *)
Definition auto_events (h : list CollectData.Event) : list CollectData.Event :=
  filter (fun e => match e with
                   | CollectData.SavedInstant _ _ => false
                   | _ => true
                   end) h.

(** Two states with the same hold timer, pending sample, prompt and
    auto-capture history; the counters and the instant saves may differ. *)
Definition same_capture (st st' : CollectData.State) : Prop :=
  CollectData.two_hands_start_time st = CollectData.two_hands_start_time st'
  /\ CollectData.pending_sample st = CollectData.pending_sample st'
  /\ CollectData.captured_features st = CollectData.captured_features st'
  /\ CollectData.auto_sample_status st = CollectData.auto_sample_status st'
  /\ auto_events (CollectData.history st) = auto_events (CollectData.history st').

(** * Properties *)

(** ** The Python and NumPy layer *)

Lemma flatten_length (arr : list Np.row) :
  length (Np.flatten arr) = (2 * length arr)%nat.
Proof.
  induction arr as [|p arr IH]; simpl; [reflexivity|].
  rewrite IH. lia.
Qed.

Lemma div_scalar_length (arr : list Np.row) (s : R) :
  length (Np.div_scalar arr s) = length arr.
Proof. apply length_map. Qed.

Lemma sub_row_length (arr : list Np.row) (w : Np.row) :
  length (Np.sub_row arr w) = length arr.
Proof. apply length_map. Qed.

(** Scaling a row by [s >= 0] scales its norm by [s]. *)
Lemma linalg_norm_scale (s : R) (v : Np.row) :
  0 <= s -> Np.linalg_norm (s * fst v, s * snd v) = s * Np.linalg_norm v.
Proof.
  intros Hs. unfold Np.linalg_norm; simpl.
  replace (s * fst v * (s * fst v) + s * snd v * (s * snd v))
    with ((s * s) * (fst v * fst v + snd v * snd v)) by ring.
  pose proof (Rle_0_sqr (fst v)) as Hx. pose proof (Rle_0_sqr (snd v)) as Hy.
  unfold Rsqr in Hx, Hy.
  rewrite sqrt_mult; [|nraR|lraR].
  now rewrite sqrt_square.
Qed.

Lemma index_map {A B : Type} (f : A -> B) (l : list A) (i : nat) (a : A) :
  nth_error l i = Some a -> index (map f l) i = Ok (f a).
Proof.
  intros H. unfold index. now rewrite nth_error_map, H.
Qed.

Lemma index_ok_lt {A : Type} (l : list A) (i : nat) :
  (i < length l)%nat -> exists a, nth_error l i = Some a.
Proof.
  intros H. destruct (nth_error l i) eqn:E; [eauto|].
  apply nth_error_None in E. lia.
Qed.

(** *** [list.sort(key=...)] is a stable sort *)

Section SortKey.

Context {A : Type} (k : A -> nat).

Lemma insert_key_perm (a : A) (l : list A) :
  Permutation (a :: l) (insert_key k a l).
Proof.
  induction l as [|b l IH]; simpl; [reflexivity|].
  destruct (k a <=? k b)%nat; [reflexivity|].
  rewrite perm_swap. now constructor.
Qed.

Lemma sort_key_perm (l : list A) : Permutation l (sort_key k l).
Proof.
  induction l as [|a l IH]; simpl; [constructor|].
  rewrite <- insert_key_perm. now constructor.
Qed.

Lemma sort_key_length (l : list A) : length (sort_key k l) = length l.
Proof. symmetry. apply Permutation_length, sort_key_perm. Qed.

Lemma insert_key_sorted (a : A) (l : list A) :
  Sorted (key_le k) l -> Sorted (key_le k) (insert_key k a l).
Proof.
  induction 1 as [|b l Hs IH Hb]; simpl.
  - repeat constructor.
  - destruct (k a <=? k b)%nat eqn:E.
    + apply Nat.leb_le in E. repeat constructor; assumption.
    + apply Nat.leb_gt in E. constructor; [assumption|].
      destruct l as [|c l]; simpl in *.
      * constructor. unfold key_le. lia.
      * destruct (k a <=? k c)%nat; constructor; unfold key_le.
        -- lia.
        -- now inversion Hb.
Qed.

Lemma sort_key_sorted (l : list A) : Sorted (key_le k) (sort_key k l).
Proof.
  induction l as [|a l IH]; simpl; [constructor|].
  now apply insert_key_sorted.
Qed.

(** Stability: elements of one key keep their input order. *)
Lemma insert_key_filter (n : nat) (a : A) (l : list A) :
  Sorted (key_le k) l ->
  filter (fun b => k b =? n)%nat (insert_key k a l)
  = filter (fun b => k b =? n)%nat (a :: l).
Proof.
  induction 1 as [|b l Hs IH Hb]; [reflexivity|].
  simpl insert_key. destruct (k a <=? k b)%nat eqn:E; [reflexivity|].
  apply Nat.leb_gt in E.
  change (filter (fun b => k b =? n)%nat (b :: insert_key k a l))
    with (if (k b =? n)%nat
          then b :: filter (fun b => k b =? n)%nat (insert_key k a l)
          else filter (fun b => k b =? n)%nat (insert_key k a l)).
  rewrite IH. simpl.
  destruct (k a =? n)%nat eqn:Ea, (k b =? n)%nat eqn:Eb; try reflexivity.
  apply Nat.eqb_eq in Ea, Eb. lia.
Qed.

Lemma sort_key_stable (n : nat) (l : list A) :
  filter (fun b => k b =? n)%nat (sort_key k l)
  = filter (fun b => k b =? n)%nat l.
Proof.
  induction l as [|a l IH]; [reflexivity|].
  simpl sort_key. rewrite insert_key_filter by apply sort_key_sorted.
  simpl. now rewrite IH.
Qed.

End SortKey.

(** ** Normalisation *)

Lemma scale_of_floor (wrist mcp : Np.row) :
  1e-6 <= CollectData.scale_of wrist mcp.
Proof.
  unfold CollectData.scale_of.
  destruct (Rlt_dec _ _) as [H|H]; lraR.
Qed.

Lemma scale_of_pos (wrist mcp : Np.row) : 0 < CollectData.scale_of wrist mcp.
Proof. pose proof (scale_of_floor wrist mcp). lraR. Qed.

Lemma scale_of_clamped (wrist mcp : Np.row) :
  Np.linalg_norm (Np.row_sub mcp wrist) < 1e-6 ->
  CollectData.scale_of wrist mcp = 1e-6.
Proof.
  intros H. unfold CollectData.scale_of.
  destruct (Rlt_dec _ _); [reflexivity|contradiction].
Qed.

Lemma scale_of_unclamped (wrist mcp : Np.row) :
  1e-6 <= Np.linalg_norm (Np.row_sub mcp wrist) ->
  CollectData.scale_of wrist mcp = Np.linalg_norm (Np.row_sub mcp wrist).
Proof.
  intros H. unfold CollectData.scale_of.
  destruct (Rlt_dec _ _); [lraR|reflexivity].
Qed.

(** With landmarks 0 and 9 present the function returns, and what. *)
Lemma normalize_landmarks_anchored (hand : list Lm.t) (w m : Lm.t) :
  nth_error hand 0 = Some w -> nth_error hand 9 = Some m ->
  CollectData.normalize_landmarks hand
  = Ok (Np.flatten
          (Np.div_scalar (Np.sub_row (coords hand) (Lm.x w, Lm.y w))
             (CollectData.scale_of (Lm.x w, Lm.y w) (Lm.x m, Lm.y m)))).
Proof.
  intros H0 H9. unfold CollectData.normalize_landmarks.
  rewrite (index_map _ _ _ _ H0), (index_map _ _ _ _ H9). reflexivity.
Qed.

Lemma anchors_of_21 (hand : list Lm.t) :
  length hand = 21%nat ->
  exists w m, nth_error hand 0 = Some w /\ nth_error hand 9 = Some m.
Proof.
  intros H.
  destruct (index_ok_lt hand 0) as [w Hw]; [lia|].
  destruct (index_ok_lt hand 9) as [m Hm]; [lia|].
  eauto.
Qed.

Lemma normalize_landmarks_length (hand : list Lm.t) (v : list R) :
  CollectData.normalize_landmarks hand = Ok v ->
  length v = (2 * length hand)%nat.
Proof.
  unfold CollectData.normalize_landmarks, index.
  destruct (nth_error _ 0); [|discriminate].
  destruct (nth_error _ 9); [|discriminate].
  simpl. intros [= <-].
  now rewrite flatten_length, div_scalar_length, sub_row_length, length_map.
Qed.

(** The two scripts carry the same normaliser. *)
Lemma scale_of_same (wrist mcp : Np.row) :
  DetectRealtime.scale_of wrist mcp = CollectData.scale_of wrist mcp.
Proof. reflexivity. Qed.

Lemma normalize_landmarks_same (hand : list Lm.t) :
  DetectRealtime.normalize_landmarks hand = CollectData.normalize_landmarks hand.
Proof. reflexivity. Qed.

Lemma hand_data_of_same (pairs : list (list Lm.t * list Category)) :
  DetectRealtime.hand_data_of pairs = CollectData.hand_data_of pairs.
Proof.
  induction pairs as [|[h c] rest IH]; [reflexivity|].
  simpl. rewrite IH, normalize_landmarks_same. reflexivity.
Qed.

Lemma extract_features_same (hands : list (list Lm.t))
    (handedness : list (list Category)) :
  DetectRealtime.extract_features hands handedness
  = CollectData.extract_features hands handedness.
Proof.
  unfold DetectRealtime.extract_features, CollectData.extract_features.
  rewrite hand_data_of_same. reflexivity.
Qed.

Lemma similar_nth (s : R) (t : Np.row) (hand : list Lm.t) (i : nat) (lm : Lm.t) :
  nth_error hand i = Some lm ->
  nth_error (similar s t hand) i
  = Some (Lm.mk (s * Lm.x lm + fst t) (s * Lm.y lm + snd t)).
Proof.
  intros H. unfold similar. now rewrite nth_error_map, H.
Qed.

(** The anchor distance of the transformed hand is [s] times the
    original one. *)
Lemma similar_anchor_norm (s tx ty wx wy mx my : R) :
  0 <= s ->
  Np.linalg_norm (Np.row_sub (s * mx + tx, s * my + ty) (s * wx + tx, s * wy + ty))
  = s * Np.linalg_norm (Np.row_sub (mx, my) (wx, wy)).
Proof.
  intros Hs. rewrite <- linalg_norm_scale by assumption.
  unfold Np.row_sub; simpl. f_equal. f_equal; ring.
Qed.

(** Dividing the transformed offsets by [s] times the divisor gives the
    original quotients. *)
Lemma normalized_similar (s sc : R) (t w : Np.row) (hand : list Lm.t) :
  s <> 0 -> sc <> 0 ->
  Np.flatten
    (Np.div_scalar
       (Np.sub_row (coords (similar s t hand))
          (s * fst w + fst t, s * snd w + snd t))
       (s * sc))
  = Np.flatten (Np.div_scalar (Np.sub_row (coords hand) w) sc).
Proof.
  intros Hs Hsc. induction hand as [|lm hand IH]; [reflexivity|].
  unfold Np.flatten, Np.div_scalar, Np.sub_row, coords, similar in *.
  cbn [map flat_map app Np.row_sub fst snd Lm.x Lm.y].
  rewrite IH. f_equal; [|f_equal]; field; auto.
Qed.

Lemma anchor_distance_eq (hand : list Lm.t) (w m : Lm.t) :
  nth_error hand 0 = Some w -> nth_error hand 9 = Some m ->
  anchor_distance hand
  = Np.linalg_norm (Np.row_sub (Lm.x m, Lm.y m) (Lm.x w, Lm.y w)).
Proof.
  intros H0 H9. unfold anchor_distance, coords.
  now rewrite !nth_error_map, H0, H9.
Qed.

(** Whenever the divisor of the transformed hand is [s] times the
    divisor of the original, the two outputs coincide. *)
Lemma normalize_similar_when (s : R) (t : Np.row) (hand : list Lm.t) (w m : Lm.t) :
  nth_error hand 0 = Some w -> nth_error hand 9 = Some m ->
  s <> 0 ->
  CollectData.scale_of (s * Lm.x w + fst t, s * Lm.y w + snd t)
                       (s * Lm.x m + fst t, s * Lm.y m + snd t)
  = s * CollectData.scale_of (Lm.x w, Lm.y w) (Lm.x m, Lm.y m) ->
  CollectData.normalize_landmarks (similar s t hand)
  = CollectData.normalize_landmarks hand.
Proof.
  intros H0 H9 Hs Hsc.
  rewrite (normalize_landmarks_anchored _ _ _ (similar_nth s t _ _ _ H0)
             (similar_nth s t _ _ _ H9)).
  rewrite (normalize_landmarks_anchored _ _ _ H0 H9).
  cbn [Lm.x Lm.y]. rewrite Hsc.
  f_equal.
  apply (normalized_similar s _ t (Lm.x w, Lm.y w) hand Hs).
  pose proof (scale_of_pos (Lm.x w, Lm.y w) (Lm.x m, Lm.y m)). lraR.
Qed.

Lemma tiny_hand_distance : anchor_distance tiny_hand = 5e-7.
Proof.
  unfold anchor_distance, tiny_hand, coords, origin. cbn [repeat app map nth_error Lm.x Lm.y].
  unfold Np.linalg_norm, Np.row_sub. cbn [fst snd].
  replace ((0 - 0) * (0 - 0) + (5e-7 - 0) * (5e-7 - 0)) with (5e-7 * 5e-7) by lraR.
  apply sqrt_square. lraR.
Qed.

Lemma flatten_nth (arr : list Np.row) (i : nat) (p : Np.row) :
  nth_error arr i = Some p ->
  nth_error (Np.flatten arr) (2 * i) = Some (fst p)
  /\ nth_error (Np.flatten arr) (2 * i + 1) = Some (snd p).
Proof.
  revert i. induction arr as [|q arr IH]; intros [|i] H; try discriminate.
  - injection H as ->. split; reflexivity.
  - replace (2 * S i)%nat with (S (S (2 * i))) by lia.
    cbn [Np.flatten flat_map app nth_error plus].
    apply (IH i H).
Qed.

Lemma normalized_as_map (arr : list Np.row) (w : Np.row) (s : R) :
  Np.div_scalar (Np.sub_row arr w) s
  = map (fun p => ((fst p - fst w) / s, (snd p - snd w) / s)) arr.
Proof.
  unfold Np.div_scalar, Np.sub_row. rewrite map_map. reflexivity.
Qed.

Lemma normalized_point (q : Lm.t) (s : R) (n : nat) :
  Np.flatten
    (Np.div_scalar (Np.sub_row (coords (repeat q n)) (Lm.x q, Lm.y q)) s)
  = repeat 0 (2 * n).
Proof.
  induction n as [|n IH]; [reflexivity|].
  replace (2 * S n)%nat with (S (S (2 * n))) by lia.
  unfold Np.flatten, Np.div_scalar, Np.sub_row, coords in *.
  cbn [repeat map flat_map app Np.row_sub fst snd].
  rewrite IH. f_equal; [|f_equal]; unfold Rdiv, Rminus;
    now rewrite Rplus_opp_r, Rmult_0_l.
Qed.

(** Division by a divisor of at least [1e-6] amplifies by at most [1e6]. *)
Lemma div_floor_bound (a s : R) : 1e-6 <= s -> Rabs (a / s) <= 1e6 * Rabs a.
Proof.
  intros Hs. unfold Rdiv. rewrite Rabs_mult.
  assert (0 < s) by lraR.
  rewrite (Rabs_right (/ s)) by (left; now apply Rinv_0_lt_compat).
  assert (/ s <= 1e6).
  { replace 1e6 with (/ 1e-6) by lraR.
    apply Rinv_le_contravar; lraR. }
  pose proof (Rabs_pos a). nraR.
Qed.

(** C3.  For every hand of 21 landmarks the call returns and the first
    two values of the output, the wrist's normalised x and y, are 0 and 0. *)
Theorem wrist_maps_to_origin (hand : list Lm.t) :
  length hand = 21%nat ->
  exists v, CollectData.normalize_landmarks hand = Ok v /\ firstn 2 v = [0; 0].
Proof.
  intros Hlen. destruct (anchors_of_21 hand Hlen) as (w & m & H0 & H9).
  eexists. split; [apply (normalize_landmarks_anchored _ _ _ H0 H9)|].
  destruct hand as [|w' hand]; [discriminate|]. injection H0 as ->.
  unfold Np.flatten, Np.div_scalar, Np.sub_row, coords.
  cbn [map flat_map app firstn Np.row_sub fst snd].
  f_equal; [|f_equal]; unfold Rdiv, Rminus;
    now rewrite Rplus_opp_r, Rmult_0_l.
Qed.

Lemma wrist_maps_to_origin_witness :
  length spread_hand = 21%nat
  /\ exists v, CollectData.normalize_landmarks spread_hand = Ok v
               /\ firstn 2 v = [0; 0].
Proof.
  split; [reflexivity|]. apply (wrist_maps_to_origin spread_hand). reflexivity.
Defined.

(** C6.  On a hand of 21 landmarks both copies of the normaliser return
    (no exception), with 42 values.  The divisor is the anchor distance,
    replaced by exactly [1e-6] when that distance is below [1e-6]; it is
    therefore at least [1e-6] and never zero, every output value is the
    landmark's offset from the wrist over that divisor, at most [1e6]
    times the offset in magnitude, and a hand whose landmarks all lie on
    one point yields 42 zeros. *)
Theorem normalize_total_with_scale_floor (hand : list Lm.t) :
  length hand = 21%nat ->
  exists wrist mcp v,
    nth_error (coords hand) 0 = Some wrist
    /\ nth_error (coords hand) 9 = Some mcp
    /\ CollectData.normalize_landmarks hand = Ok v
    /\ DetectRealtime.normalize_landmarks hand = Ok v
    /\ length v = 42%nat
    /\ let d := Np.linalg_norm (Np.row_sub mcp wrist) in
       let s := CollectData.scale_of wrist mcp in
       DetectRealtime.scale_of wrist mcp = s
       /\ (d < 1e-6 -> s = 1e-6)
       /\ (1e-6 <= d -> s = d)
       /\ 1e-6 <= s
       /\ s <> 0
       /\ (forall i p,
             nth_error (coords hand) i = Some p ->
             nth_error v (2 * i) = Some ((fst p - fst wrist) / s)
             /\ nth_error v (2 * i + 1) = Some ((snd p - snd wrist) / s)
             /\ Rabs ((fst p - fst wrist) / s) <= 1e6 * Rabs (fst p - fst wrist)
             /\ Rabs ((snd p - snd wrist) / s) <= 1e6 * Rabs (snd p - snd wrist))
       /\ (forall q, hand = point_hand q -> v = repeat 0 42).
Proof.
  intros Hlen. destruct (anchors_of_21 hand Hlen) as (w & m & H0 & H9).
  exists (Lm.x w, Lm.y w), (Lm.x m, Lm.y m). eexists.
  pose proof (normalize_landmarks_anchored _ _ _ H0 H9) as Hn.
  pose proof (scale_of_floor (Lm.x w, Lm.y w) (Lm.x m, Lm.y m)) as Hfloor.
  split; [unfold coords; now rewrite nth_error_map, H0|].
  split; [unfold coords; now rewrite nth_error_map, H9|].
  split; [exact Hn|].
  split; [rewrite normalize_landmarks_same; exact Hn|].
  split; [rewrite (normalize_landmarks_length _ _ Hn), Hlen; reflexivity|].
  cbv zeta.
  split; [apply scale_of_same|].
  split; [apply scale_of_clamped|].
  split; [apply scale_of_unclamped|].
  split; [exact Hfloor|].
  split; [lraR|].
  split.
  - intros i p Hp. rewrite normalized_as_map.
    apply (map_nth_error
             (fun p => ((fst p - fst (Lm.x w, Lm.y w))
                          / CollectData.scale_of (Lm.x w, Lm.y w) (Lm.x m, Lm.y m),
                        (snd p - snd (Lm.x w, Lm.y w))
                          / CollectData.scale_of (Lm.x w, Lm.y w) (Lm.x m, Lm.y m))))
      in Hp.
    destruct (flatten_nth _ _ _ Hp) as [Hx Hy].
    repeat split; [exact Hx|exact Hy| |]; now apply div_floor_bound.
  - intros q ->. unfold point_hand in *.
    injection H0 as <-. apply (normalized_point q _ 21).
Qed.

Lemma normalize_total_with_scale_floor_witness :
  length (point_hand origin) = 21%nat
  /\ exists v, CollectData.normalize_landmarks (point_hand origin) = Ok v
               /\ length v = 42%nat.
Proof.
  split; [reflexivity|].
  destruct (normalize_total_with_scale_floor (point_hand origin) eq_refl)
    as (w & m & v & _ & _ & Hv & _ & Hl & _).
  exists v. split; assumption.
Defined.

(** C4 as stated fails below the scale floor: the collapsed hand has anchor
    distance 5e-7, so its divisor is the floor 1e-6, while the same hand
    magnified four times has anchor distance 2e-6 and is divided by that.
    The middle MCP's normalised y (output index 19) is 1/2 for the first
    and 1 for the second. *)
Lemma scale_invariance_fails_below_floor :
  length tiny_hand = 21%nat
  /\ 0 < 4
  /\ (exists v v',
        CollectData.normalize_landmarks tiny_hand = Ok v
        /\ CollectData.normalize_landmarks (similar 4 (0, 0) tiny_hand) = Ok v'
        /\ nth_error v 19 = Some (1 / 2)
        /\ nth_error v' 19 = Some 1)
  /\ CollectData.normalize_landmarks (similar 4 (0, 0) tiny_hand)
     <> CollectData.normalize_landmarks tiny_hand.
Proof.
  assert (H0 : nth_error tiny_hand 0 = Some origin) by reflexivity.
  assert (H9 : nth_error tiny_hand 9 = Some (Lm.mk 0 5e-7)) by reflexivity.
  pose proof (normalize_landmarks_anchored _ _ _ H0 H9) as Hv.
  pose proof (normalize_landmarks_anchored _ _ _
                (similar_nth 4 (0, 0) _ _ _ H0) (similar_nth 4 (0, 0) _ _ _ H9)) as Hv'.
  pose proof tiny_hand_distance as Hd.
  rewrite (anchor_distance_eq _ _ _ H0 H9) in Hd.
  assert (Hs : CollectData.scale_of (Lm.x origin, Lm.y origin) (0, 5e-7) = 1e-6).
  { apply scale_of_clamped. cbn [Lm.x Lm.y] in Hd. rewrite Hd. lraR. }
  assert (Hs' : CollectData.scale_of
                  (4 * Lm.x origin + 0, 4 * Lm.y origin + 0)
                  (4 * 0 + 0, 4 * 5e-7 + 0) = 2e-6).
  { cbn [Lm.x Lm.y] in Hd.
    rewrite scale_of_unclamped;
      rewrite (similar_anchor_norm 4 0 0 (Lm.x origin) (Lm.y origin) 0 5e-7)
        by lraR; rewrite Hd; lraR. }
  cbn [Lm.x Lm.y fst snd] in Hv, Hv'. rewrite Hs in Hv. rewrite Hs' in Hv'.
  assert (E : nth_error (Np.flatten
                (Np.div_scalar
                   (Np.sub_row (coords tiny_hand) (Lm.x origin, Lm.y origin)) 1e-6)) 19
              = Some (1 / 2)).
  { rewrite normalized_as_map.
    match goal with
    | |- nth_error (Np.flatten ?a) 19 = _ =>
        destruct (flatten_nth a 9 _ eq_refl) as [_ E9]
    end.
    cbn [Nat.mul Nat.add] in E9. rewrite E9.
    cbn [snd fst Lm.x Lm.y origin]. f_equal. lraR. }
  assert (E' : nth_error (Np.flatten
                (Np.div_scalar
                   (Np.sub_row (coords (similar 4 (0, 0) tiny_hand))
                      (4 * Lm.x origin + 0, 4 * Lm.y origin + 0)) 2e-6)) 19
              = Some 1).
  { rewrite normalized_as_map.
    match goal with
    | |- nth_error (Np.flatten ?a) 19 = _ =>
        destruct (flatten_nth a 9 _ eq_refl) as [_ E9]
    end.
    cbn [Nat.mul Nat.add] in E9. rewrite E9.
    cbn [snd fst Lm.x Lm.y origin]. f_equal. lraR. }
  split; [reflexivity|]. split; [lraR|]. split.
  - eexists _, _.
    split; [exact Hv|]. split; [exact Hv'|]. split; [exact E|exact E'].
  - intros Heq. rewrite Hv, Hv' in Heq.
    apply (f_equal (fun r => match r with
                             | Ok l => nth_error l 19
                             | Raise _ => None
                             end)) in Heq.
    rewrite E, E' in Heq. injection Heq as Heq. lraR.
Qed.

Lemma linalg_norm_ge_fst (v : Np.row) : 0 <= fst v -> fst v <= Np.linalg_norm v.
Proof.
  intros H. unfold Np.linalg_norm.
  rewrite <- (sqrt_square (fst v)) at 1 by assumption.
  pose proof (Rle_0_sqr (fst v)) as Hx. pose proof (Rle_0_sqr (snd v)) as Hy.
  unfold Rsqr in Hx, Hy.
  apply sqrt_le_1; lraR.
Qed.

Lemma spread_hand_distance : 9 / 40 <= anchor_distance spread_hand.
Proof.
  unfold anchor_distance, spread_hand, coords.
  cbn [seq map nth_error Lm.x Lm.y Z.of_nat Pos.of_succ_nat Pos.succ Nat.mul Nat.add].
  match goal with
  | |- _ <= Np.linalg_norm ?v =>
      apply Rle_trans with (fst v); [cbn [fst Np.row_sub]; lraR|];
      apply linalg_norm_ge_fst; cbn [fst Np.row_sub]; lraR
  end.
Qed.

(** C4, amended.  A translation alone never changes the output.  A uniform
    scaling by [s > 0] followed by a translation leaves it unchanged
    whenever the scale floor is reached neither by the hand nor by its
    image: both anchor distances are at least [1e-6].  Equality is exact
    in real arithmetic. *)
Theorem normalize_similarity_invariant (hand : list Lm.t) (s : R) (t : Np.row) :
  length hand = 21%nat ->
  0 < s ->
  s = 1 \/ (1e-6 <= anchor_distance hand /\ 1e-6 <= s * anchor_distance hand) ->
  CollectData.normalize_landmarks (similar s t hand)
  = CollectData.normalize_landmarks hand.
Proof.
  intros Hlen Hs Hcase.
  destruct (anchors_of_21 hand Hlen) as (w & m & H0 & H9).
  rewrite (anchor_distance_eq _ _ _ H0 H9) in Hcase.
  apply (normalize_similar_when s t _ _ _ H0 H9); [lraR|].
  unfold CollectData.scale_of.
  rewrite (similar_anchor_norm s (fst t) (snd t) (Lm.x w) (Lm.y w) (Lm.x m) (Lm.y m))
    by lraR.
  set (d := Np.linalg_norm _) in *.
  destruct Hcase as [-> | [Hd Hsd]].
  - destruct (Rlt_dec (1 * d) 1e-6), (Rlt_dec d 1e-6); lraR.
  - destruct (Rlt_dec (s * d) 1e-6), (Rlt_dec d 1e-6); lraR.
Qed.

Lemma normalize_similarity_invariant_witness :
  CollectData.normalize_landmarks (similar 2 (1 / 10, 1 / 5) spread_hand)
  = CollectData.normalize_landmarks spread_hand.
Proof.
  apply (normalize_similarity_invariant spread_hand 2 (1 / 10, 1 / 5)).
  - reflexivity.
  - lraR.
  - right. pose proof spread_hand_distance. split; lraR.
Defined.

(** ** Feature extraction *)

(** A binary key splits a sorted list into the zeros and the ones. *)
Lemma sorted_binary_split {A : Type} (k : A -> nat) (l : list A) :
  (forall a, k a <= 1)%nat ->
  Sorted (key_le k) l ->
  l = filter (fun a => k a =? 0)%nat l ++ filter (fun a => k a =? 1)%nat l.
Proof.
  intros Hk Hs.
  assert (Htr : Relations_1.Transitive (key_le k)).
  { intros a b c. unfold key_le. lia. }
  apply (Sorted_StronglySorted Htr) in Hs.
  induction Hs as [|a l Hs IH Ha]; [reflexivity|].
  cbn [filter]. destruct (k a =? 0)%nat eqn:E0.
  - apply Nat.eqb_eq in E0. rewrite E0. cbn [Nat.eqb app]. now rewrite <- IH.
  - apply Nat.eqb_neq in E0. pose proof (Hk a) as Ha1.
    assert (E1 : k a = 1%nat) by lia. rewrite E1. cbn [Nat.eqb].
    assert (H1 : Forall (fun b => k b = 1%nat) l).
    { eapply Forall_impl; [|exact Ha]. intros b Hb. unfold key_le in Hb.
      pose proof (Hk b). lia. }
    assert (F0 : filter (fun b => k b =? 0)%nat l = []).
    { clear -H1. induction H1 as [|b l Hb _ IHl]; [reflexivity|].
      cbn [filter]. rewrite Hb. exact IHl. }
    assert (F1 : filter (fun b => k b =? 1)%nat l = l).
    { clear -H1. induction H1 as [|b l Hb _ IHl]; [reflexivity|].
      cbn [filter]. rewrite Hb. cbn [Nat.eqb]. now rewrite IHl. }
    now rewrite F0, F1.
Qed.

(** Python's sort with a binary key: the zeros in input order, then the
    ones in input order. *)
Lemma sort_key_binary {A : Type} (k : A -> nat) (l : list A) :
  (forall a, k a <= 1)%nat ->
  sort_key k l
  = filter (fun a => k a =? 0)%nat l ++ filter (fun a => k a =? 1)%nat l.
Proof.
  intros Hk.
  rewrite (sorted_binary_split k (sort_key k l) Hk (sort_key_sorted k l)).
  now rewrite !sort_key_stable.
Qed.

Lemma hand_key_binary (x : string * list R) : (CollectData.hand_key x <= 1)%nat.
Proof. unfold CollectData.hand_key. destruct (String.eqb _ _); lia. Qed.

Lemma normalized_length (hand : list Lm.t) :
  length hand = 21%nat -> length (normalized hand) = 42%nat.
Proof.
  intros Hlen. unfold normalized.
  destruct (anchors_of_21 hand Hlen) as (w & m & H0 & H9).
  pose proof (normalize_landmarks_anchored _ _ _ H0 H9) as Hn.
  rewrite Hn, (normalize_landmarks_length _ _ Hn), Hlen. reflexivity.
Qed.

Lemma normalized_ok (hand : list Lm.t) :
  length hand = 21%nat ->
  CollectData.normalize_landmarks hand = Ok (normalized hand).
Proof.
  intros Hlen. unfold normalized.
  destruct (anchors_of_21 hand Hlen) as (w & m & H0 & H9).
  now rewrite (normalize_landmarks_anchored _ _ _ H0 H9).
Qed.

Lemma hand_data_of_labelled (hands : list (list Lm.t))
    (handedness : list (list Category)) :
  Forall (fun h => length h = 21%nat) hands ->
  Forall (fun c => c <> []) handedness ->
  CollectData.hand_data_of (zip hands handedness) = Ok (labelled hands handedness).
Proof.
  intros Hh. revert handedness.
  induction Hh as [|h hands Hlen _ IH]; intros handedness Hc; [reflexivity|].
  destruct Hc as [|c handedness Hne Hc]; [reflexivity|].
  destruct c as [|c0 c]; [contradiction|].
  unfold labelled, zip in *. cbn [combine map CollectData.hand_data_of fst snd].
  unfold index at 1. cbn [nth_error bind].
  rewrite (normalized_ok h Hlen). cbn [bind].
  rewrite (IH _ Hc). reflexivity.
Qed.

Lemma labelled_length (hands : list (list Lm.t))
    (handedness : list (list Category)) :
  length handedness = length hands ->
  length (labelled hands handedness) = length hands.
Proof.
  intros H. unfold labelled, zip. rewrite length_map, length_combine. lia.
Qed.

Lemma labelled_widths (hands : list (list Lm.t))
    (handedness : list (list Category)) :
  Forall (fun h => length h = 21%nat) hands ->
  Forall (fun x => length (snd x) = 42%nat) (labelled hands handedness).
Proof.
  intros Hh. revert handedness.
  induction Hh as [|h hands Hlen _ IH]; intros [|c handedness];
    try constructor.
  - now apply normalized_length.
  - apply IH.
Qed.

Lemma concat_widths {A : Type} (w : nat) (l : list (A * list R)) :
  Forall (fun x => length (snd x) = w) l ->
  length (concat (map snd l)) = (w * length l)%nat.
Proof.
  induction 1 as [|x l Hx _ IH]; cbn [map concat length]; [lia|].
  rewrite length_app, IH, Hx. lia.
Qed.

Lemma sorted_hands (hand_data : list (string * list R)) :
  concat (map snd (sort_key CollectData.hand_key hand_data))
  = hands_where is_left hand_data
    ++ hands_where (fun x => negb (is_left x)) hand_data.
Proof.
  rewrite (sort_key_binary CollectData.hand_key hand_data hand_key_binary).
  rewrite map_app, concat_app. unfold hands_where.
  f_equal; do 2 f_equal; apply filter_ext; intros x;
    unfold CollectData.hand_key, is_left; now destruct (String.eqb _ _).
Qed.

(** What the function returns on two or more well-formed detections. *)
Lemma extract_features_labelled (hands : list (list Lm.t))
    (handedness : list (list Category)) :
  (2 <= length hands)%nat ->
  length handedness = length hands ->
  Forall (fun h => length h = 21%nat) hands ->
  Forall (fun c => c <> []) handedness ->
  CollectData.extract_features hands handedness
  = Ok (Some (concat (map snd (sort_key CollectData.hand_key
                                 (labelled hands handedness))))).
Proof.
  intros H2 Hlen Hh Hc. unfold CollectData.extract_features.
  destruct hands as [|h1 hands]; [simpl in H2; lia|].
  cbn [is_falsy orb].
  destruct (Nat.ltb_spec (length (h1 :: hands)) 2) as [Hlt|_]; [lia|].
  rewrite (hand_data_of_labelled _ _ Hh Hc). cbn [bind].
  pose proof (sort_key_length CollectData.hand_key
                (labelled (h1 :: hands) handedness)) as Hs.
  rewrite (labelled_length _ _ Hlen) in Hs.
  destruct (sort_key _ _) as [|x l] eqn:E; [simpl in Hs; lia|].
  reflexivity.
Qed.

Lemma extract_features_few (hands : list (list Lm.t))
    (handedness : list (list Category)) :
  (length hands < 2)%nat ->
  CollectData.extract_features hands handedness = Ok None.
Proof.
  intros H. unfold CollectData.extract_features.
  destruct (Nat.ltb_spec (length hands) 2) as [_|Hge]; [|lia].
  now rewrite orb_true_r.
Qed.

Lemma is_left_Left (v : list R) : is_left ("Left", v) = true.
Proof. reflexivity. Qed.

Lemma is_left_Right (v : list R) : is_left ("Right", v) = false.
Proof. reflexivity. Qed.

(** C1 as stated fails on three detections: nothing is dropped after the
    sort, and the vector has 3 * 42 = 126 values, the third hand's
    included. *)
Lemma three_hands_give_126_values :
  (2 <= length three_hands)%nat
  /\ Forall (fun h => length h = 21%nat) three_hands
  /\ exists v,
       CollectData.extract_features three_hands three_labels = Ok (Some v)
       /\ v = normalized tiny_hand
              ++ normalized spread_hand ++ normalized (point_hand origin)
       /\ length v = 126%nat
       /\ length v <> 84%nat.
Proof.
  assert (Hh : Forall (fun h => length h = 21%nat) three_hands)
    by (repeat constructor).
  assert (Hc : Forall (fun c : list Category => c <> []) three_labels)
    by (repeat constructor; discriminate).
  split; [simpl; lia|]. split; [exact Hh|].
  eexists. split; [apply extract_features_labelled; auto; simpl; lia|].
  assert (Hl : length (concat (map snd (sort_key CollectData.hand_key
                                          (labelled three_hands three_labels))))
               = 126%nat).
  { rewrite (concat_widths 42).
    - now rewrite sort_key_length, labelled_length.
    - eapply Permutation_Forall; [apply sort_key_perm|].
      now apply labelled_widths. }
  split; [|split; [exact Hl|rewrite Hl; lia]].
  rewrite sorted_hands. unfold hands_where, three_hands, three_labels.
  cbn [labelled zip combine map filter fst snd label_of category_name
       left_hand right_hand].
  rewrite !is_left_Left, !is_left_Right.
  cbn [negb map concat snd]. now rewrite !app_nil_r.
Qed.

(** The only exception the normaliser raises is the [IndexError] of a
    missing landmark 0 or 9. *)
Lemma normalize_landmarks_raises (hand : list Lm.t) (e : exn) :
  CollectData.normalize_landmarks hand = Raise e -> e = IndexError.
Proof.
  unfold CollectData.normalize_landmarks, index.
  destruct (nth_error _ 0); cbn [bind]; [|now intros [= <-]].
  destruct (nth_error _ 9); cbn [bind]; [discriminate|now intros [= <-]].
Qed.

(** Two detections: what the function does, whatever the landmark counts. *)
Lemma extract_features_pair (h1 h2 : list Lm.t) (c1 c2 : Category)
    (r1 r2 : list Category) :
  CollectData.extract_features [h1; h2] [c1 :: r1; c2 :: r2]
  = (v1 <- CollectData.normalize_landmarks h1 ;;
     v2 <- CollectData.normalize_landmarks h2 ;;
     Ok (Some (if negb (String.eqb (category_name c1) "Left")
                  && String.eqb (category_name c2) "Left"
               then v2 ++ v1
               else v1 ++ v2))).
Proof.
  unfold CollectData.extract_features, zip.
  cbn [is_falsy length Nat.ltb Nat.leb orb combine CollectData.hand_data_of].
  unfold index. cbn [nth_error bind].
  destruct (CollectData.normalize_landmarks h1) as [v1|e1]; [|reflexivity].
  destruct (CollectData.normalize_landmarks h2) as [v2|e2]; [|reflexivity].
  cbn [bind sort_key insert_key]. unfold CollectData.hand_key. cbn [fst].
  destruct (String.eqb (category_name c1) "Left"),
           (String.eqb (category_name c2) "Left");
    cbn [Nat.leb negb andb map snd Np.concatenate bind concat];
    now rewrite app_nil_r.
Qed.

(** C1, amended.  In both scripts: with fewer than two hands the function
    returns [None]; with two or more well-formed detections (21 landmarks
    each, one non-empty handedness entry per hand) it returns the
    normalised hands of all of them, 42 values per hand, those labelled
    "Left" first and the others after, each group in detection order.
    With exactly two hands, which is what the detector (created with
    [num_hands=2]) delivers at most, these are 84 values. *)
Theorem extract_features_arity (hands : list (list Lm.t))
    (handedness : list (list Category)) :
  ((length hands < 2)%nat ->
   CollectData.extract_features hands handedness = Ok None
   /\ DetectRealtime.extract_features hands handedness = Ok None)
  /\ ((2 <= length hands)%nat ->
      length handedness = length hands ->
      Forall (fun h => length h = 21%nat) hands ->
      Forall (fun c => c <> []) handedness ->
      exists v,
        CollectData.extract_features hands handedness = Ok (Some v)
        /\ DetectRealtime.extract_features hands handedness = Ok (Some v)
        /\ v = hands_where is_left (labelled hands handedness)
               ++ hands_where (fun x => negb (is_left x))
                    (labelled hands handedness)
        /\ length v = (42 * length hands)%nat
        /\ (length hands = 2%nat -> length v = 84%nat)).
Proof.
  split.
  - intros Hlt. split; [|rewrite (extract_features_same hands handedness)];
      now apply extract_features_few.
  - intros H2 Hlen Hh Hc.
    pose proof (extract_features_labelled hands handedness H2 Hlen Hh Hc) as He.
    eexists. split; [exact He|].
    split; [now rewrite (extract_features_same hands handedness)|].
    split; [apply sorted_hands|].
    assert (Hl : length (concat (map snd (sort_key CollectData.hand_key
                                            (labelled hands handedness))))
                 = (42 * length hands)%nat).
    { rewrite (concat_widths 42).
      - now rewrite sort_key_length, labelled_length.
      - eapply Permutation_Forall; [apply sort_key_perm|].
        now apply labelled_widths. }
    split; [exact Hl|]. intros H. rewrite Hl, H. reflexivity.
Qed.

Lemma extract_features_arity_witness :
  CollectData.extract_features [spread_hand] [right_hand] = Ok None
  /\ exists v,
       CollectData.extract_features [spread_hand; tiny_hand] [right_hand; left_hand]
       = Ok (Some v)
       /\ length v = 84%nat.
Proof.
  split.
  - apply (extract_features_arity [spread_hand] [right_hand]). simpl. lia.
  - destruct (proj2 (extract_features_arity [spread_hand; tiny_hand]
                       [right_hand; left_hand]))
      as (v & Hv & _ & _ & _ & Hl).
    + simpl. lia.
    + reflexivity.
    + repeat constructor.
    + repeat constructor; discriminate.
    + exists v. split; [exact Hv|]. apply Hl. reflexivity.
Defined.

(** C5.  For a hand labelled "Left" and a hand labelled "Right" the two
    detection orders give the same result; on 21-landmark hands it is the
    left hand's 42 values followed by the right hand's.  Two hands with
    equal labels stay in detection order. *)
Theorem canonical_order_independent (hl hr : list Lm.t) (cl cr : Category)
    (rl rr : list Category) :
  category_name cl = "Left" ->
  category_name cr = "Right" ->
  CollectData.extract_features [hr; hl] [cr :: rr; cl :: rl]
  = CollectData.extract_features [hl; hr] [cl :: rl; cr :: rr]
  /\ (length hl = 21%nat -> length hr = 21%nat ->
      CollectData.extract_features [hr; hl] [cr :: rr; cl :: rl]
      = Ok (Some (normalized hl ++ normalized hr)))
  /\ (forall (A B : list Lm.t) (ca cb : Category) (ra rb : list Category),
        length A = 21%nat -> length B = 21%nat ->
        category_name ca = category_name cb ->
        CollectData.extract_features [A; B] [ca :: ra; cb :: rb]
        = Ok (Some (normalized A ++ normalized B))).
Proof.
  intros Hl Hr. rewrite !extract_features_pair, Hl, Hr.
  change (String.eqb "Right" "Left") with false.
  change (String.eqb "Left" "Left") with true.
  cbn [negb andb]. split; [|split].
  - destruct (CollectData.normalize_landmarks hl) as [vl|el] eqn:El,
             (CollectData.normalize_landmarks hr) as [vr|er] eqn:Er;
      try reflexivity.
    now rewrite (normalize_landmarks_raises hl el El),
      (normalize_landmarks_raises hr er Er).
  - intros HL HR. now rewrite (normalized_ok hl HL), (normalized_ok hr HR).
  - intros A B ca cb ra rb HA HB Hab.
    rewrite extract_features_pair, Hab, (normalized_ok A HA), (normalized_ok B HB).
    cbn [bind]. now destruct (String.eqb (category_name cb) "Left").
Qed.

Lemma canonical_order_independent_witness :
  CollectData.extract_features [spread_hand; tiny_hand] [right_hand; left_hand]
  = CollectData.extract_features [tiny_hand; spread_hand] [left_hand; right_hand].
Proof.
  apply (canonical_order_independent tiny_hand spread_hand
           {| category_name := "Left" |} {| category_name := "Right" |} [] []);
    reflexivity.
Defined.

(** C10.  The normaliser and the feature extractor of the collection
    script and of the inference script are the same functions. *)
Theorem feature_definitions_agree :
  (forall wrist mcp,
     DetectRealtime.scale_of wrist mcp = CollectData.scale_of wrist mcp)
  /\ (forall hand,
        DetectRealtime.normalize_landmarks hand
        = CollectData.normalize_landmarks hand)
  /\ (forall hands handedness,
        DetectRealtime.extract_features hands handedness
        = CollectData.extract_features hands handedness).
Proof.
  split; [exact scale_of_same|].
  split; [exact normalize_landmarks_same|exact extract_features_same].
Qed.

Lemma Qle_bool_false (x y : Q) : (y < x)%Q -> Qle_bool x y = false.
Proof.
  intros H. destruct (Qle_bool x y) eqn:E; [|reflexivity].
  apply Qle_bool_iff in E. lraQ.
Qed.

(** ** float64 arithmetic *)

(** *** Rounding to an integer *)

Lemma round_half_even_cases (x : Q) :
  (Py.round_half_even x = Qfloor x /\ (x - inject_Z (Qfloor x) <= 1 # 2)%Q)
  \/ (Py.round_half_even x = (Qfloor x + 1)%Z
      /\ (1 # 2 <= x - inject_Z (Qfloor x))%Q).
Proof.
  unfold Py.round_half_even.
  destruct (Qcompare_spec (x - inject_Z (Qfloor x)) (1 # 2)) as [E|L|G].
  - destruct (Z.even (Qfloor x)); [left|right]; (split; [reflexivity|]);
      rewrite E; apply Qle_refl.
  - left. split; [reflexivity|now apply Qlt_le_weak].
  - right. split; [reflexivity|now apply Qlt_le_weak].
Qed.

Lemma floor_bounds (x : Q) :
  (inject_Z (Qfloor x) <= x /\ x < inject_Z (Qfloor x) + 1)%Q.
Proof.
  split; [apply Qfloor_le|].
  pose proof (Qlt_floor x) as H. rewrite inject_Z_plus in H. exact H.
Qed.

Lemma round_half_even_error (x : Q) :
  (x - (1 # 2) <= inject_Z (Py.round_half_even x) <= x + (1 # 2))%Q.
Proof.
  pose proof (floor_bounds x) as [Hl Hu].
  destruct (round_half_even_cases x) as [[-> H]|[-> H]].
  - split; lraQ.
  - rewrite inject_Z_plus. change (inject_Z 1) with 1%Q. split; lraQ.
Qed.

Lemma round_half_even_le_int (x : Q) (k : Z) :
  (x <= inject_Z k)%Q -> (Py.round_half_even x <= k)%Z.
Proof.
  intros H. pose proof (floor_bounds x) as [Hl Hu].
  destruct (round_half_even_cases x) as [[-> _]|[-> Hh]].
  - rewrite Zle_Qle. lraQ.
  - assert (Hlt : (inject_Z (Qfloor x) < inject_Z k)%Q) by lraQ.
    rewrite <- Zlt_Qlt in Hlt. lia.
Qed.

Lemma round_half_even_ge_int (x : Q) (k : Z) :
  (inject_Z k <= x)%Q -> (k <= Py.round_half_even x)%Z.
Proof.
  intros H. assert (Hf : (k <= Qfloor x)%Z).
  { rewrite <- (Qfloor_Z k). now apply Qfloor_resp_le. }
  destruct (round_half_even_cases x) as [[-> _]|[-> _]]; lia.
Qed.

Lemma round_half_even_int (k : Z) : Py.round_half_even (inject_Z k) = k.
Proof.
  apply Z.le_antisymm.
  - apply round_half_even_le_int, Qle_refl.
  - apply round_half_even_ge_int, Qle_refl.
Qed.

Lemma round_half_even_below (x : Q) (k : Z) :
  (x < inject_Z k + (1 # 2))%Q -> (Py.round_half_even x <= k)%Z.
Proof.
  intros H. pose proof (round_half_even_error x) as [_ Hu].
  assert (Hlt : (inject_Z (Py.round_half_even x) < inject_Z (k + 1))%Q).
  { rewrite inject_Z_plus. change (inject_Z 1) with 1%Q. lraQ. }
  rewrite <- Zlt_Qlt in Hlt. lia.
Qed.

(** *** Powers of two *)

Lemma pow2_pos (e : Z) : (0 < Float64.pow2 e)%Q.
Proof. apply Qpower_0_lt. reflexivity. Qed.

Lemma pow2_add (a b : Z) :
  (Float64.pow2 (a + b) == Float64.pow2 a * Float64.pow2 b)%Q.
Proof. apply Qpower_plus. discriminate. Qed.

Lemma pow2_le (a b : Z) : (a <= b)%Z -> (Float64.pow2 a <= Float64.pow2 b)%Q.
Proof. intros H. apply Qpower_le_compat_l; [exact H|]. discriminate. Qed.

Lemma pow2_lt_inv (a b : Z) : (Float64.pow2 a < Float64.pow2 b)%Q -> (a < b)%Z.
Proof.
  intros H. destruct (Z.lt_ge_cases a b) as [L|G]; [exact L|].
  apply pow2_le in G. lraQ.
Qed.

Lemma pow2_int (n : Z) : (0 <= n)%Z -> (Float64.pow2 n == inject_Z (2 ^ n))%Q.
Proof. intros H. unfold Float64.pow2. now rewrite Zpower_Qpower. Qed.

(** *** The binary logarithm *)

Lemma ilog2_rough (n : Z) (d : positive) :
  (0 < n)%Z ->
  let e := (Z.log2 n - Z.log2 (Zpos d))%Z in
  (Float64.pow2 (e - 1) <= n # d /\ n # d < Float64.pow2 (e + 1))%Q.
Proof.
  intros Hn e.
  pose proof (Z.log2_spec n Hn) as [Ha1 Ha2].
  pose proof (Z.log2_spec (Zpos d) (Pos2Z.is_pos d)) as [Hb1 Hb2].
  pose proof (Z.log2_nonneg n) as Ha0.
  pose proof (Z.log2_nonneg (Zpos d)) as Hb0.
  set (a := Z.log2 n) in *. set (b := Z.log2 (Zpos d)) in *.
  assert (Pa : (0 < 2 ^ a)%Z) by (apply Z.pow_pos_nonneg; lia).
  assert (Pb : (0 < 2 ^ b)%Z) by (apply Z.pow_pos_nonneg; lia).
  split.
  - apply (Qmult_le_r _ _ (Float64.pow2 (b + 1))); [apply pow2_pos|].
    rewrite <- pow2_add. replace (e - 1 + (b + 1))%Z with a by (unfold e; lia).
    rewrite !pow2_int by lia.
    unfold Qle, Qmult, inject_Z. cbn [Qnum Qden].
    rewrite Pos.mul_1_r, Z.mul_1_r.
    replace (b + 1)%Z with (Z.succ b) by lia. nia.
  - apply (Qmult_lt_r _ _ (Float64.pow2 b)); [apply pow2_pos|].
    rewrite <- pow2_add. replace (e + 1 + b)%Z with (Z.succ a) by (unfold e; lia).
    rewrite !pow2_int by lia.
    unfold Qlt, Qmult, inject_Z. cbn [Qnum Qden].
    rewrite Pos.mul_1_r, Z.mul_1_r. nia.
Qed.

Lemma ilog2_spec (x : Q) :
  (0 < x)%Q ->
  (Float64.pow2 (Float64.ilog2 x) <= x < Float64.pow2 (Float64.ilog2 x + 1))%Q.
Proof.
  intros Hx. destruct x as [n d].
  assert (Hn : (0 < n)%Z).
  { unfold Qlt in Hx. cbn in Hx. lia. }
  pose proof (ilog2_rough n d Hn) as [Hl Hu]. cbv zeta in Hl, Hu.
  unfold Float64.ilog2. cbn [Qnum Qden].
  set (e := (Z.log2 n - Z.log2 (Zpos d))%Z) in *.
  destruct (Qle_bool (Float64.pow2 e) (n # d)) eqn:E.
  - apply Qle_bool_iff in E. split; assumption.
  - assert (Hlt : (n # d < Float64.pow2 e)%Q).
    { apply Qnot_le_lt. intros H. apply Qle_bool_iff in H. congruence. }
    replace (e - 1 + 1)%Z with e by lia. split; assumption.
Qed.

Lemma ilog2_unique (x : Q) (m : Z) :
  (Float64.pow2 m <= x < Float64.pow2 (m + 1))%Q -> Float64.ilog2 x = m.
Proof.
  intros [Hl Hu].
  assert (Hx : (0 < x)%Q) by (pose proof (pow2_pos m); lraQ).
  destruct (ilog2_spec x Hx) as [Sl Su].
  assert (Float64.ilog2 x < m + 1)%Z by (apply pow2_lt_inv; lraQ).
  assert (m < Float64.ilog2 x + 1)%Z by (apply pow2_lt_inv; lraQ).
  lia.
Qed.

Lemma ilog2_lt (x : Q) (k : Z) :
  (0 < x < Float64.pow2 k)%Q -> (Float64.ilog2 x < k)%Z.
Proof.
  intros [H0 Hk]. destruct (ilog2_spec x H0) as [Sl _].
  apply pow2_lt_inv. lraQ.
Qed.

Lemma ilog2_ge (x : Q) (k : Z) :
  (Float64.pow2 k <= x)%Q -> (k <= Float64.ilog2 x)%Z.
Proof.
  intros Hk.
  assert (H0 : (0 < x)%Q) by (pose proof (pow2_pos k); lraQ).
  destruct (ilog2_spec x H0) as [_ Su].
  assert (k < Float64.ilog2 x + 1)%Z by (apply pow2_lt_inv; lraQ). lia.
Qed.

(** *** Rounding to a float64 *)

Lemma round_half_even_comp (x y : Q) :
  (x == y)%Q -> Py.round_half_even x = Py.round_half_even y.
Proof.
  intros E. unfold Py.round_half_even.
  rewrite (Qfloor_comp x y E).
  assert (E2 : (x - inject_Z (Qfloor y) == y - inject_Z (Qfloor y))%Q)
    by (rewrite E; reflexivity).
  now rewrite (Qcompare_comp _ _ E2 (1 # 2) (1 # 2) (Qeq_refl _)).
Qed.

Lemma round_spec (x : Q) :
  (Float64.round x
   == inject_Z (Py.round_half_even (x / Float64.pow2 (ulp_exp x)))
      * Float64.pow2 (ulp_exp x))%Q.
Proof.
  unfold Float64.round, ulp_exp. cbv zeta.
  etransitivity; [apply Qred_correct|].
  assert (E : (Qred x / Float64.pow2 (Float64.cexp (Qred x))
               == x / Float64.pow2 (Float64.cexp (Qred x)))%Q)
    by (apply Qdiv_comp; [apply Qred_correct|reflexivity]).
  now rewrite (round_half_even_comp _ _ E).
Qed.

Lemma round_comp (x y : Q) : (x == y)%Q -> Float64.round x = Float64.round y.
Proof.
  intros E. unfold Float64.round. cbv zeta.
  now rewrite (Qred_complete x y E).
Qed.

Lemma ulp_exp_min (x : Q) : (-1074 <= ulp_exp x)%Z.
Proof. unfold ulp_exp, Float64.cexp. lia. Qed.

Lemma ulp_exp_le (x : Q) (k : Z) :
  (0 < Qabs x < Float64.pow2 (k + 1))%Q ->
  (ulp_exp x <= Z.max (k - 52) (-1074))%Z.
Proof.
  intros H. unfold ulp_exp, Float64.cexp.
  assert (E : (Qabs (Qred x) == Qabs x)%Q) by (now rewrite Qred_correct).
  rewrite <- E in H.
  pose proof (ilog2_lt (Qabs (Qred x)) (k + 1) H). lia.
Qed.

Lemma ulp_exp_ge (x : Q) (k : Z) :
  (Float64.pow2 k <= Qabs x)%Q -> (k - 52 <= ulp_exp x)%Z.
Proof.
  intros H. unfold ulp_exp, Float64.cexp.
  assert (E : (Qabs (Qred x) == Qabs x)%Q) by (now rewrite Qred_correct).
  rewrite <- E in H.
  pose proof (ilog2_ge (Qabs (Qred x)) k H). lia.
Qed.

Lemma div_pow2_mul (x : Q) (e : Z) :
  (x / Float64.pow2 e * Float64.pow2 e == x)%Q.
Proof. pose proof (pow2_pos e). field. lraQ. Qed.

(** Rounding moves a number by at most half a unit in its last place. *)
Lemma round_error (x : Q) :
  (x - Float64.pow2 (ulp_exp x) * (1 # 2) <= Float64.round x
   <= x + Float64.pow2 (ulp_exp x) * (1 # 2))%Q.
Proof.
  rewrite round_spec. set (p := Float64.pow2 (ulp_exp x)).
  assert (Hp : (0 < p)%Q) by apply pow2_pos.
  pose proof (round_half_even_error (x / p)) as [Hl Hu].
  pose proof (div_pow2_mul x (ulp_exp x)) as E. fold p in E.
  set (r := inject_Z (Py.round_half_even (x / p))) in *.
  split.
  - assert ((x / p - (1 # 2)) * p <= r * p)%Q
      by (apply Qmult_le_compat_r; [exact Hl|lraQ]).
    lraQ.
  - assert (r * p <= (x / p + (1 # 2)) * p)%Q
      by (apply Qmult_le_compat_r; [exact Hu|lraQ]).
    lraQ.
Qed.

(** Rounding does not cross a number of the grid it rounds to. *)
Lemma grid_point (K e c : Z) :
  (c <= e)%Z ->
  (inject_Z K * Float64.pow2 e
   == inject_Z (K * 2 ^ (e - c)) * Float64.pow2 c)%Q.
Proof.
  intros H. rewrite inject_Z_mult, <- pow2_int by lia.
  rewrite <- Qmult_assoc, <- pow2_add.
  now replace (e - c + c)%Z with e by lia.
Qed.

Lemma round_le_grid (x : Q) (K e : Z) :
  (ulp_exp x <= e)%Z ->
  (x <= inject_Z K * Float64.pow2 e)%Q ->
  (Float64.round x <= inject_Z K * Float64.pow2 e)%Q.
Proof.
  intros He Hx. rewrite round_spec, (grid_point K e (ulp_exp x) He) in *.
  set (p := Float64.pow2 (ulp_exp x)) in *.
  assert (Hp : (0 < p)%Q) by apply pow2_pos.
  apply Qmult_le_compat_r; [|lraQ].
  rewrite <- Zle_Qle. apply round_half_even_le_int.
  apply Qle_shift_div_r; assumption.
Qed.

Lemma round_ge_grid (x : Q) (K e : Z) :
  (ulp_exp x <= e)%Z ->
  (inject_Z K * Float64.pow2 e <= x)%Q ->
  (inject_Z K * Float64.pow2 e <= Float64.round x)%Q.
Proof.
  intros He Hx. rewrite round_spec, (grid_point K e (ulp_exp x) He) in *.
  set (p := Float64.pow2 (ulp_exp x)) in *.
  assert (Hp : (0 < p)%Q) by apply pow2_pos.
  apply Qmult_le_compat_r; [|lraQ].
  rewrite <- Zle_Qle. apply round_half_even_ge_int.
  apply Qle_shift_div_l; assumption.
Qed.

Lemma round_nonneg (x : Q) : (0 <= x)%Q -> (0 <= Float64.round x)%Q.
Proof.
  intros H.
  pose proof (round_ge_grid x 0 (ulp_exp x) (Z.le_refl _)) as G.
  rewrite Qmult_0_l in G. now apply G.
Qed.

Lemma round_nonpos (x : Q) : (x <= 0)%Q -> (Float64.round x <= 0)%Q.
Proof.
  intros H.
  pose proof (round_le_grid x 0 (ulp_exp x) (Z.le_refl _)) as G.
  rewrite Qmult_0_l in G. now apply G.
Qed.

Lemma round_zero (x : Q) : (x == 0)%Q -> (Float64.round x == 0)%Q.
Proof.
  intros E. apply Qle_antisym.
  - apply round_nonpos. rewrite E. apply Qle_refl.
  - apply round_nonneg. rewrite E. apply Qle_refl.
Qed.

Lemma ulp_exp_16 (x : Q) : (0 < x < 16)%Q -> (ulp_exp x <= -49)%Z.
Proof.
  intros [H0 H16].
  assert (H : (ulp_exp x <= Z.max (3 - 52) (-1074))%Z).
  { apply ulp_exp_le. rewrite Qabs_pos by lraQ.
    split; [exact H0|]. change (Float64.pow2 (3 + 1)) with 16%Q. exact H16. }
  lia.
Qed.

Lemma round_error_16 (x : Q) :
  (0 <= x < 16)%Q ->
  (x - half_ulp <= Float64.round x <= x + half_ulp)%Q.
Proof.
  intros [H0 H16]. destruct (Qle_lt_or_eq 0 x H0) as [Hpos|Hz].
  - pose proof (round_error x) as [Hl Hu].
    pose proof (pow2_le _ _ (ulp_exp_16 x (conj Hpos H16))) as Hp.
    assert (E : (Float64.pow2 (-49) == 2 * half_ulp)%Q) by reflexivity.
    rewrite E in Hp. split; lraQ.
  - rewrite (round_zero x) by (symmetry; exact Hz).
    unfold half_ulp. split; lraQ.
Qed.

Lemma round_le_int (x : Q) (K : Z) :
  (0 <= x < 16)%Q -> (x <= inject_Z K)%Q -> (Float64.round x <= inject_Z K)%Q.
Proof.
  intros [H0 H16] HK. destruct (Qle_lt_or_eq 0 x H0) as [Hpos|Hz].
  - pose proof (ulp_exp_16 x (conj Hpos H16)) as He.
    pose proof (round_le_grid x K 0 ltac:(lia)) as G.
    change (Float64.pow2 0) with 1%Q in G. rewrite Qmult_1_r in G.
    now apply G.
  - rewrite (round_zero x) by (symmetry; exact Hz). lraQ.
Qed.

Lemma round_int (K : Z) :
  (0 <= K < 16)%Z -> (Float64.round (inject_Z K) == inject_Z K)%Q.
Proof.
  intros HK.
  assert (H : (0 <= inject_Z K < 16)%Q).
  { split; [change 0%Q with (inject_Z 0); rewrite <- Zle_Qle; lia|].
    change 16%Q with (inject_Z 16). rewrite <- Zlt_Qlt. lia. }
  apply Qle_antisym.
  - apply round_le_int; [exact H|apply Qle_refl].
  - destruct H as [H0 H16]. destruct (Qle_lt_or_eq 0 _ H0) as [Hpos|Hz].
    + pose proof (ulp_exp_16 _ (conj Hpos H16)) as He.
      pose proof (round_ge_grid (inject_Z K) K 0 ltac:(lia)) as G.
      change (Float64.pow2 0) with 1%Q in G. rewrite Qmult_1_r in G.
      apply G. apply Qle_refl.
    + eapply Qle_trans; [|apply round_nonneg; exact H0].
      rewrite <- Hz. apply Qle_refl.
Qed.

(** *** NumPy's pairwise summation *)

(** The block loop ends by its condition, not by its fuel. *)
Lemma accumulate_done (fuel : nat) (r a : list Q) :
  (length a <= fuel)%nat ->
  (length (snd (Np.accumulate fuel r a)) < 8)%nat.
Proof.
  revert r a. induction fuel as [|fuel IH]; intros r a H.
  - cbn [Np.accumulate snd]. lia.
  - cbn [Np.accumulate].
    destruct (Nat.leb_spec 8 (length a)) as [Hge|Hlt]; [|cbn [snd]; lia].
    apply IH. rewrite length_skipn. lia.
Qed.

(** The halving of [pairwise] never runs out of fuel. *)
Lemma pairwise_fuel (fuel fuel' : nat) (a : list Q) :
  (length a <= fuel)%nat -> (length a <= fuel')%nat ->
  Np.pairwise fuel a = Np.pairwise fuel' a.
Proof.
  revert fuel' a. induction fuel as [|fuel IH]; intros fuel' a H H'.
  - assert (E : length a = 0%nat) by lia.
    destruct a; [|discriminate]. now destruct fuel'.
  - destruct fuel' as [|fuel'].
    + assert (E : length a = 0%nat) by lia.
      destruct a; [|discriminate]. reflexivity.
    + cbn [Np.pairwise].
      destruct (Nat.ltb_spec (length a) 8) as [H8|H8]; [reflexivity|].
      destruct (Nat.leb_spec (length a) 128) as [Hb|Hb]; [reflexivity|].
      set (n2 := (length a / 2 - (length a / 2) mod 8)%nat).
      assert (Hn2 : (1 <= n2 < length a)%nat).
      { unfold n2.
        pose proof (Nat.mod_upper_bound (length a / 2) 8 ltac:(lia)).
        pose proof (Nat.div_lt (length a) 2 ltac:(lia) ltac:(lia)).
        assert (64 <= length a / 2)%nat
          by (apply Nat.div_le_lower_bound; lia).
        lia. }
      f_equal; apply IH; rewrite ?length_firstn, ?length_skipn; lia.
Qed.

(** The model on values known from Python: [0.1 + 0.2] is
    [0.30000000000000004], and [np.mean] of three, six and ten values 0.8
    is [0.8000000000000002], [0.7999999999999999] and [0.8]. *)
Lemma float64_reference_values :
  Float64.round 0.8 = 3602879701896397 # 4503599627370496
  /\ Float64.add (Float64.round 0.1) (Float64.round 0.2)
     = 1351079888211149 # 4503599627370496
  /\ Np.mean (repeat (Float64.round 0.8) 3) = 7205759403792795 # 9007199254740992
  /\ Np.mean (repeat (Float64.round 0.8) 6) = 7205759403792793 # 9007199254740992
  /\ Np.mean (repeat (Float64.round 0.8) 10) = Float64.round 0.8.
Proof. repeat split; vm_compute; reflexivity. Qed.

(** *** Sums of probabilities in float64 *)

Lemma sums_zero : sums 0 0 0 0.
Proof. unfold sums, half_ulp. change (inject_Z 0) with 0%Q. repeat split; lraQ. Qed.

Lemma sums_leaf (p : Q) : unit_interval p -> sums 1 0 p p.
Proof.
  intros [H0 H1]. unfold sums, half_ulp. change (inject_Z 1) with 1%Q.
  repeat split; lraQ.
Qed.

Lemma sums_add (K K1 K2 : Z) (m1 m2 s1 s2 S1 S2 : Q) :
  sums K1 m1 s1 S1 -> sums K2 m2 s2 S2 ->
  K = (K1 + K2)%Z -> (K <= 15)%Z -> (m1 + m2 + 1 <= 12)%Q ->
  sums K (m1 + m2 + 1) (Float64.add s1 s2) (S1 + S2).
Proof.
  intros (A1 & B1 & C1 & D1) (A2 & B2 & C2 & D2) -> HK Hm.
  assert (HKq : (inject_Z (K1 + K2) <= 15)%Q).
  { change 15%Q with (inject_Z 15). now rewrite <- Zle_Qle. }
  rewrite inject_Z_plus in *.
  assert (Hr : (0 <= s1 + s2 < 16)%Q) by (split; lraQ).
  pose proof (round_error_16 _ Hr) as [El Eu].
  assert (Hi : (Float64.round (s1 + s2) <= inject_Z (K1 + K2))%Q).
  { apply round_le_int; [exact Hr|]. rewrite inject_Z_plus. lraQ. }
  rewrite inject_Z_plus in Hi.
  pose proof (round_nonneg (s1 + s2) ltac:(lraQ)) as Hn.
  unfold sums, Float64.add. rewrite inject_Z_plus.
  repeat split; try lraQ.
Qed.

(** [sums] for a sum written out as additions, leaf by leaf. *)
Ltac sums_tree :=
  first
    [ apply sums_zero
    | apply sums_leaf; assumption
    | eapply sums_add;
        [sums_tree | sums_tree | reflexivity | cbv; discriminate
        | cbv; discriminate] ].

(** [Forall unit_interval] on a list written out, as one hypothesis per
    element. *)
Ltac unit_hyps H :=
  repeat match type of H with
         | Forall _ (_ :: _) =>
             let Hx := fresh "Hx" in
             let Ht := fresh "Ht" in
             apply Forall_cons_iff in H as [Hx Ht]; unit_hyps Ht
         end.

(** The lists [w] of length below [n], one goal per length. *)
Ltac cases_upto w Hl n :=
  lazymatch n with
  | O => exfalso; cbn [length] in Hl; lia
  | S ?k => destruct w as [|? w]; [|cases_upto w Hl k]
  end.

(** Up to ten probabilities: the float64 sum stands for their exact sum
    after at most ten rounded additions. *)
Lemma pairwise_sum_sums (w : list Q) :
  (length w <= 10)%nat -> Forall unit_interval w ->
  exists m S,
    sums (Z.of_nat (length w)) m (Np.pairwise_sum w) S
    /\ (m <= 10)%Q /\ (S == fold_left Qplus w 0)%Q.
Proof.
  intros Hl Hw.
  cases_upto w Hl 11%nat;
    unit_hyps Hw;
    cbv [Np.pairwise_sum Np.pairwise Np.sum_block Np.accumulate Np.add_rows
         length Nat.ltb Nat.leb firstn skipn fold_left];
    eexists; eexists; (split; [sums_tree|split; [cbv; discriminate|]]);
    cbn [fold_left]; ring.
Qed.

Lemma count_unit {A : Type} (w : list A) :
  w <> [] -> (1 <= inject_Z (Z.of_nat (length w)))%Q.
Proof.
  intros H. destruct w as [|x w]; [now elim H|].
  change 1%Q with (inject_Z 1). rewrite <- Zle_Qle. cbn [length]. lia.
Qed.

(** The float64 mean of up to ten probabilities is a probability, within
    [2^-46] of their exact mean. *)
Lemma mean_close (w : list Q) :
  w <> [] -> (length w <= 10)%nat -> Forall unit_interval w ->
  unit_interval (Np.mean w)
  /\ (average w - mean_tolerance <= Np.mean w <= average w + mean_tolerance)%Q.
Proof.
  intros Hne Hl Hw.
  destruct (pairwise_sum_sums w Hl Hw) as (m & S & (A & B & C & D) & Hm & HS).
  pose proof (count_unit w Hne) as Hn.
  assert (En : (Float64.of_int (Z.of_nat (length w))
                == inject_Z (Z.of_nat (length w)))%Q)
    by (apply round_int; lia).
  unfold Np.mean, Float64.div, average. rewrite <- HS.
  set (n := inject_Z (Z.of_nat (length w))) in *.
  set (s := Np.pairwise_sum w) in *.
  assert (Eq : (s / Float64.of_int (Z.of_nat (length w)) == s / n)%Q)
    by (now rewrite En).
  rewrite (round_comp _ _ Eq).
  assert (Hq : (0 <= s / n <= 1)%Q).
  { split; [apply Qle_shift_div_l|apply Qle_shift_div_r]; lraQ. }
  assert (Hd : (S / n - m * half_ulp <= s / n <= S / n + m * half_ulp)%Q).
  { assert (Hmu : (0 <= m * half_ulp)%Q)
      by (apply Qmult_le_0_compat; [lraQ|unfold half_ulp; lraQ]).
    assert (Hi : (0 < / n <= 1)%Q).
    { split; [apply Qinv_lt_0_compat; lraQ|].
      apply Qle_shift_inv_r; lraQ. }
    unfold Qdiv. set (q := (/ n)%Q) in *. set (mu := (m * half_ulp)%Q) in *.
    split; Lqa.nra. }
  pose proof (round_error_16 (s / n) ltac:(split; lraQ)) as [El Eu].
  split.
  - split; [apply round_nonneg; lraQ|].
    change 1%Q with (inject_Z 1). apply round_le_int; [split; lraQ|].
    change (inject_Z 1) with 1%Q. lraQ.
  - assert (Hh : (m * half_ulp + half_ulp <= mean_tolerance)%Q).
    { unfold half_ulp, mean_tolerance in *. lraQ. }
    split; lraQ.
Qed.

(** ** The smoothing window of the detector *)

Section Detector.

Variable heart_probability : list R -> Q.

Lemma deque_append_maxlen {A : Type} (d : deque A) (a : A) :
  maxlen (deque_append d a) = maxlen d.
Proof. unfold deque_append. now destruct (_ <? _)%nat. Qed.

Lemma deque_append_bounded {A : Type} (d : deque A) (a : A) :
  (length (items d) <= maxlen d)%nat ->
  (length (items (deque_append d a)) <= maxlen d)%nat.
Proof.
  intros H. unfold deque_append.
  destruct (Nat.ltb_spec (maxlen d) (length (items d ++ [a]))) as [Hlt|Hge];
    cbn [items].
  - rewrite length_app in Hlt. cbn [length] in Hlt.
    destruct (items d) as [|x l]; cbn [app tl length] in *.
    + lia.
    + rewrite length_app. cbn [length]. lia.
  - exact Hge.
Qed.

(** Below capacity the new value is added on the right. *)
Lemma deque_append_room {A : Type} (d : deque A) (a : A) :
  (length (items d) < maxlen d)%nat ->
  items (deque_append d a) = items d ++ [a].
Proof.
  intros H. unfold deque_append.
  destruct (Nat.ltb_spec (maxlen d) (length (items d ++ [a]))) as [Hlt|Hge];
    [|reflexivity].
  rewrite length_app in Hlt. cbn [length] in Hlt. lia.
Qed.

(** At capacity the leftmost value leaves. *)
Lemma deque_append_full {A : Type} (d : deque A) (a oldest : A) (rest : list A) :
  items d = oldest :: rest ->
  length (items d) = maxlen d ->
  items (deque_append d a) = rest ++ [a].
Proof.
  intros Hi Hl. unfold deque_append.
  destruct (Nat.ltb_spec (maxlen d) (length (items d ++ [a]))) as [Hlt|Hge].
  - now rewrite Hi.
  - rewrite length_app in Hge. cbn [length] in Hge. lia.
Qed.

Lemma update_maxlen (features : option (list R)) (buf : deque Q) :
  maxlen (fst (DetectRealtime.update heart_probability features buf)) = maxlen buf.
Proof.
  destruct features as [f|]; cbn [DetectRealtime.update fst].
  - apply deque_append_maxlen.
  - reflexivity.
Qed.

Lemma update_bounded (features : option (list R)) (buf : deque Q) :
  (length (items buf) <= maxlen buf)%nat ->
  (length (items (fst (DetectRealtime.update heart_probability features buf))) <= maxlen buf)%nat.
Proof.
  destruct features as [f|]; cbn [DetectRealtime.update fst].
  - apply deque_append_bounded.
  - intros _. cbn. lia.
Qed.

Lemma main_loop_cons (features : option (list R))
    (frames : list (option (list R))) (buf : deque Q) :
  DetectRealtime.main_loop heart_probability (features :: frames) buf
  = (fst (DetectRealtime.main_loop heart_probability frames (fst (DetectRealtime.update heart_probability features buf))),
     snd (DetectRealtime.update heart_probability features buf) :: snd (DetectRealtime.main_loop heart_probability frames (fst (DetectRealtime.update heart_probability features buf)))).
Proof.
  cbn [DetectRealtime.main_loop].
  destruct (DetectRealtime.update heart_probability features buf) as [b d]. cbn [fst snd].
  now destruct (DetectRealtime.main_loop heart_probability frames b).
Qed.

Lemma main_loop_invariant (frames : list (option (list R))) (buf : deque Q) :
  (length (items buf) <= maxlen buf)%nat ->
  maxlen (fst (DetectRealtime.main_loop heart_probability frames buf)) = maxlen buf
  /\ (length (items (fst (DetectRealtime.main_loop heart_probability frames buf))) <= maxlen buf)%nat.
Proof.
  revert buf. induction frames as [|features frames IH]; intros buf Hb.
  - split; [reflexivity|exact Hb].
  - rewrite main_loop_cons. cbn [fst].
    pose proof (update_maxlen features buf) as Hm.
    pose proof (update_bounded features buf Hb) as Hl.
    destruct (IH (fst (DetectRealtime.update heart_probability features buf))) as [IH1 IH2]; [now rewrite Hm|].
    rewrite Hm in IH1, IH2. split; assumption.
Qed.

(** C7.  In every state the loop reaches from the empty window, the
    window holds at most 10 probabilities.  A frame with features adds its
    probability on the right; at 10 entries the leftmost, oldest entry is
    dropped and the other nine are kept in order. *)
Theorem prediction_window_bounded_fifo (frames : list (option (list R)))
    (f : list R) :
  let buf := fst (DetectRealtime.main_loop heart_probability frames
                    DetectRealtime.initial) in
  let buf' := fst (DetectRealtime.update heart_probability (Some f) buf) in
  maxlen buf = 10%nat
  /\ (length (items buf) <= 10)%nat
  /\ ((length (items buf) < 10)%nat ->
      items buf' = items buf ++ [heart_probability f])
  /\ (forall oldest rest,
        items buf = oldest :: rest ->
        length (items buf) = 10%nat ->
        items buf' = rest ++ [heart_probability f]
        /\ length (items buf') = 10%nat).
Proof.
  intros buf buf'.
  destruct (main_loop_invariant frames DetectRealtime.initial) as [Hm Hl];
    [cbn; lia|].
  change (maxlen DetectRealtime.initial) with 10%nat in Hm, Hl.
  fold buf in Hm, Hl.
  split; [exact Hm|]. split; [exact Hl|]. split.
  - intros Hlt. apply deque_append_room. rewrite Hm. exact Hlt.
  - intros oldest rest Hi Hfull.
    assert (E : items buf' = rest ++ [heart_probability f]).
    { apply (deque_append_full buf _ oldest rest Hi). now rewrite Hm. }
    split; [exact E|]. rewrite E, length_app. rewrite Hi in Hfull.
    cbn [length] in *. lia.
Qed.

(** C8.  A frame without features empties the window in that step,
    whatever it held, and shows "NO HEART" without a confidence.  What the
    loop shows from that frame on does not depend on the frames before
    it. *)
Theorem gap_clears_window (buf : deque Q)
    (before before' after : list (option (list R))) :
  items (fst (DetectRealtime.update heart_probability None buf)) = []
  /\ DetectRealtime.is_gesture
       (snd (DetectRealtime.update heart_probability None buf)) = false
  /\ DetectRealtime.avg_probability
       (snd (DetectRealtime.update heart_probability None buf)) = None
  /\ DetectRealtime.main_loop heart_probability (None :: after)
       (fst (DetectRealtime.main_loop heart_probability before
               DetectRealtime.initial))
     = DetectRealtime.main_loop heart_probability (None :: after)
         (fst (DetectRealtime.main_loop heart_probability before'
                 DetectRealtime.initial)).
Proof.
  repeat split.
  rewrite !main_loop_cons. cbn [DetectRealtime.update fst snd].
  unfold deque_clear.
  destruct (main_loop_invariant before DetectRealtime.initial) as [-> _];
    [cbn; lia|].
  destruct (main_loop_invariant before' DetectRealtime.initial) as [-> _];
    [cbn; lia|].
  reflexivity.
Qed.

Lemma is_gesture_threshold (f : list R) (buf : deque Q) :
  DetectRealtime.is_gesture
    (snd (DetectRealtime.update heart_probability (Some f) buf))
  = Qle_bool DetectRealtime.HEART_THRESHOLD
      (Np.mean (items (fst (DetectRealtime.update heart_probability (Some f) buf)))).
Proof.
  cbn [DetectRealtime.update fst snd]. unfold DetectRealtime.is_gesture.
  cbn [DetectRealtime.display_text].
  now destruct (Qle_bool _ _).
Qed.

Lemma threshold_value :
  (DetectRealtime.HEART_THRESHOLD == 3602879701896397 # 4503599627370496)%Q.
Proof. reflexivity. Qed.

(** C9.  With features present the decision is the comparison of the
    window's mean, after the append, with 0.80, both as float64 values,
    and the comparison is inclusive: a computed mean equal to the
    threshold gives "HEART".  Ten values 0.9 give true, ten values 0.5
    give false.  The computed mean of up to ten probabilities is within
    [2^-46] of their exact mean, so an exact mean that far above the
    threshold gives true and one that far below gives false. *)
Theorem decision_is_mean_threshold (f : list R) (buf : deque Q) :
  let shown := snd (DetectRealtime.update heart_probability (Some f) buf) in
  let window :=
    items (fst (DetectRealtime.update heart_probability (Some f) buf)) in
  DetectRealtime.avg_probability shown = Some (Np.mean window)
  /\ (DetectRealtime.is_gesture shown = true
      <-> (DetectRealtime.HEART_THRESHOLD <= Np.mean window)%Q)
  /\ ((Np.mean window == DetectRealtime.HEART_THRESHOLD)%Q ->
      DetectRealtime.is_gesture shown = true)
  /\ (window = repeat (Float64.round 0.9) 10 ->
      DetectRealtime.is_gesture shown = true)
  /\ (window = repeat (Float64.round 0.5) 10 ->
      DetectRealtime.is_gesture shown = false)
  /\ (0.80 < DetectRealtime.HEART_THRESHOLD < 0.80 + mean_tolerance)%Q
  /\ ((0 < length window <= 10)%nat -> Forall unit_interval window ->
      (average window - mean_tolerance <= Np.mean window
       <= average window + mean_tolerance)%Q
      /\ ((DetectRealtime.HEART_THRESHOLD + mean_tolerance <= average window)%Q ->
          DetectRealtime.is_gesture shown = true)
      /\ ((average window < DetectRealtime.HEART_THRESHOLD - mean_tolerance)%Q ->
          DetectRealtime.is_gesture shown = false)).
Proof.
  intros shown window.
  pose proof (is_gesture_threshold f buf) as Hg. fold shown window in Hg.
  split; [reflexivity|].
  split; [rewrite Hg; apply Qle_bool_iff|].
  split; [intros He; rewrite Hg; apply Qle_bool_iff; rewrite He; apply Qle_refl|].
  split; [intros Hw; rewrite Hg, Hw; vm_compute; reflexivity|].
  split; [intros Hw; rewrite Hg, Hw; vm_compute; reflexivity|].
  split; [rewrite threshold_value; unfold mean_tolerance; split; reflexivity|].
  intros [Hpos Hlen] Hu.
  assert (Hne : window <> []) by (destruct window; [cbn in Hpos; lia|discriminate]).
  destruct (mean_close window Hne Hlen Hu) as [_ [Hl Hh]].
  split; [split; assumption|]. rewrite Hg. split; intros Ha.
  - apply Qle_bool_iff. lraQ.
  - apply Qle_bool_false. lraQ.
Qed.

End Detector.

Lemma prediction_window_bounded_fifo_witness :
  items (fst (DetectRealtime.main_loop count_probability (ramp 10)
                DetectRealtime.initial))
  = map (fun k => Qmake (Z.of_nat k) 100) (seq 1 10)
  /\ items (fst (DetectRealtime.update count_probability (Some (repeat 0 11))
                   (fst (DetectRealtime.main_loop count_probability (ramp 10)
                           DetectRealtime.initial))))
     = map (fun k => Qmake (Z.of_nat k) 100) (seq 2 10).
Proof.
  split; [reflexivity|].
  destruct (prediction_window_bounded_fifo count_probability (ramp 10)
              (repeat 0 11)) as (_ & _ & _ & H).
  apply (H (Qmake 1 100) (map (fun k => Qmake (Z.of_nat k) 100) (seq 2 9)));
    reflexivity.
Defined.

Lemma decision_is_mean_threshold_witness :
  DetectRealtime.is_gesture
    (snd (DetectRealtime.update (constant 0.9) (Some [])
            (fst (DetectRealtime.main_loop (constant 0.9) (ramp 9)
                    DetectRealtime.initial)))) = true
  /\ DetectRealtime.is_gesture
       (snd (DetectRealtime.update (constant 0.5) (Some [])
               (fst (DetectRealtime.main_loop (constant 0.5) (ramp 9)
                       DetectRealtime.initial)))) = false
  /\ DetectRealtime.is_gesture
       (snd (DetectRealtime.update (constant 0.80) (Some [])
               (fst (DetectRealtime.main_loop (constant 0.80) (ramp 9)
                       DetectRealtime.initial)))) = true
  /\ (average (repeat (Float64.round 0.9) 10) - mean_tolerance
      <= Np.mean (repeat (Float64.round 0.9) 10)
      <= average (repeat (Float64.round 0.9) 10) + mean_tolerance)%Q.
Proof.
  split; [|split; [|split]].
  - destruct (decision_is_mean_threshold (constant 0.9) []
                (fst (DetectRealtime.main_loop (constant 0.9) (ramp 9)
                        DetectRealtime.initial)))
      as (_ & _ & _ & H & _).
    apply H. vm_compute. reflexivity.
  - destruct (decision_is_mean_threshold (constant 0.5) []
                (fst (DetectRealtime.main_loop (constant 0.5) (ramp 9)
                        DetectRealtime.initial)))
      as (_ & _ & _ & _ & H & _).
    apply H. vm_compute. reflexivity.
  - destruct (decision_is_mean_threshold (constant 0.80) []
                (fst (DetectRealtime.main_loop (constant 0.80) (ramp 9)
                        DetectRealtime.initial)))
      as (_ & _ & H & _).
    apply H. vm_compute. reflexivity.
  - destruct (decision_is_mean_threshold (constant 0.9) []
                (fst (DetectRealtime.main_loop (constant 0.9) (ramp 9)
                        DetectRealtime.initial)))
      as (_ & _ & _ & _ & _ & _ & H).
    assert (E : items (fst (DetectRealtime.update (constant 0.9) (Some [])
                              (fst (DetectRealtime.main_loop (constant 0.9)
                                      (ramp 9) DetectRealtime.initial))))
                = repeat (Float64.round 0.9) 10)
      by (vm_compute; reflexivity).
    rewrite E in H. apply H.
    + cbn [length repeat]. lia.
    + apply Forall_forall. intros p Hp. apply repeat_spec in Hp. subst p.
      split; vm_compute; discriminate.
Defined.

(** C9, at the threshold.  Ten frames in a row with the probability 0.80:
    every window holds the threshold itself and nothing else, so its mean
    is exactly the threshold, and yet the sixth and the seventh frame show
    "NO HEART": the float64 sums of six and of seven values 0.80, divided
    by the count, come out one unit in the last place below 0.80. *)
Lemma threshold_mean_shows_no_heart :
  items (fst (DetectRealtime.main_loop (constant 0.80) (ramp 6)
                DetectRealtime.initial))
  = repeat DetectRealtime.HEART_THRESHOLD 6
  /\ (average (repeat DetectRealtime.HEART_THRESHOLD 6)
      == DetectRealtime.HEART_THRESHOLD)%Q
  /\ (0.80 <= average (repeat DetectRealtime.HEART_THRESHOLD 6))%Q
  /\ (Np.mean (repeat DetectRealtime.HEART_THRESHOLD 6)
      < DetectRealtime.HEART_THRESHOLD)%Q
  /\ map DetectRealtime.is_gesture
       (snd (DetectRealtime.main_loop (constant 0.80) (ramp 10)
               DetectRealtime.initial))
     = [true; true; true; true; true; false; false; true; true; true].
Proof.
  split; [vm_compute; reflexivity|].
  split; [reflexivity|].
  split; [vm_compute; discriminate|].
  split; [reflexivity|].
  vm_compute. reflexivity.
Qed.

(** ** The auto-capture hold timer of the collector *)

Lemma captures_app (h1 h2 : list CollectData.Event) :
  captures (h1 ++ h2) = (captures h1 + captures h2)%nat.
Proof. unfold captures. now rewrite filter_app, length_app. Qed.

Lemma auto_saves_app (h1 h2 : list CollectData.Event) :
  auto_saves (h1 ++ h2) = (auto_saves h1 + auto_saves h2)%nat.
Proof. unfold auto_saves. now rewrite filter_app, length_app. Qed.

(** While a sample is pending, lines 191-207 change nothing. *)
Lemma auto_capture_pending (fr : CollectData.Frame) (st : CollectData.State) :
  CollectData.pending_sample st = true -> CollectData.auto_capture fr st = st.
Proof.
  intros H. unfold CollectData.auto_capture. rewrite H.
  destruct (CollectData.features fr); reflexivity.
Qed.

(** Two hands, no sample pending, hold below 3.0 s: the timer runs on. *)
Lemma auto_capture_short (fr : CollectData.Frame) (st : CollectData.State) :
  CollectData.pending_sample st = false ->
  present fr ->
  (elapsed (start_of st fr) fr < 3.0)%Q ->
  let st1 := CollectData.auto_capture fr st in
  CollectData.pending_sample st1 = false
  /\ CollectData.two_hands_start_time st1 = Some (start_of st fr)
  /\ CollectData.captured_features st1 = CollectData.captured_features st
  /\ CollectData.history st1 = CollectData.history st.
Proof.
  intros Hp Hf He. unfold CollectData.auto_capture. unfold present in Hf.
  destruct (CollectData.features fr) as [f|]; [|now elim Hf].
  rewrite Hp. cbn [negb]. fold (start_of st fr).
  unfold elapsed in He. rewrite (Qle_bool_false _ _ He).
  cbn. repeat split.
Qed.

(** Two hands, no sample pending, hold of 3.0 s or more: one snapshot. *)
Lemma auto_capture_held (fr : CollectData.Frame) (st : CollectData.State)
    (f : list R) :
  CollectData.pending_sample st = false ->
  CollectData.features fr = Some f ->
  (3.0 <= elapsed (start_of st fr) fr)%Q ->
  let st1 := CollectData.auto_capture fr st in
  CollectData.pending_sample st1 = true
  /\ CollectData.two_hands_start_time st1 = Some (start_of st fr)
  /\ CollectData.captured_features st1 = Some f
  /\ CollectData.history st1 = CollectData.history st ++ [CollectData.Captured f].
Proof.
  intros Hp Hf He. unfold CollectData.auto_capture.
  rewrite Hf, Hp. cbn [negb]. fold (start_of st fr).
  unfold elapsed in He. apply Qle_bool_iff in He. rewrite He.
  cbn. repeat split.
Qed.

(** No two hands, no sample pending: the timer is reset. *)
Lemma auto_capture_absent (fr : CollectData.Frame) (st : CollectData.State) :
  CollectData.pending_sample st = false ->
  CollectData.features fr = None ->
  let st1 := CollectData.auto_capture fr st in
  CollectData.pending_sample st1 = false
  /\ CollectData.two_hands_start_time st1 = None
  /\ CollectData.captured_features st1 = CollectData.captured_features st
  /\ CollectData.history st1 = CollectData.history st.
Proof.
  intros Hp Hf. unfold CollectData.auto_capture. rewrite Hf, Hp.
  cbn. repeat split.
Qed.

Lemma handle_key_quit (fr : CollectData.Frame) (st : CollectData.State) :
  quit_key (CollectData.key fr) = false ->
  exists st2, CollectData.handle_key fr st = Some st2.
Proof.
  intros H. unfold CollectData.handle_key. unfold quit_key in H. rewrite H.
  repeat match goal with
         | |- context [if ?b then _ else _] => destruct b
         end; eauto.
Qed.

(** The keys never take a snapshot; [H] and [N] leave the timer, the
    pending flag and the snapshot alone. *)
Lemma save_instant_frame (fr : CollectData.Frame) (label : Z)
    (st : CollectData.State) :
  let st2 := CollectData.save_instant fr label st in
  CollectData.pending_sample st2 = CollectData.pending_sample st
  /\ CollectData.two_hands_start_time st2 = CollectData.two_hands_start_time st
  /\ CollectData.captured_features st2 = CollectData.captured_features st
  /\ captures (CollectData.history st2) = captures (CollectData.history st)
  /\ auto_saves (CollectData.history st2) = auto_saves (CollectData.history st).
Proof.
  unfold CollectData.save_instant.
  destruct (CollectData.features fr) as [f|]; cbv zeta; [|repeat split].
  cbn [CollectData.pending_sample CollectData.two_hands_start_time
       CollectData.captured_features CollectData.history].
  rewrite captures_app, auto_saves_app. cbn. repeat split; lia.
Qed.

Lemma save_pending_idle (label : Z) (st : CollectData.State) :
  CollectData.pending_sample st = false ->
  CollectData.save_pending label st = st.
Proof. intros H. unfold CollectData.save_pending. now rewrite H. Qed.

(** Any key but [A] and [D]. *)
Lemma handle_key_other (fr : CollectData.Frame) (st st2 : CollectData.State) :
  CollectData.handle_key fr st = Some st2 ->
  confirm_key (CollectData.key fr) = false
  \/ CollectData.pending_sample st = false ->
  CollectData.pending_sample st2 = CollectData.pending_sample st
  /\ CollectData.two_hands_start_time st2 = CollectData.two_hands_start_time st
  /\ CollectData.captured_features st2 = CollectData.captured_features st
  /\ captures (CollectData.history st2) = captures (CollectData.history st)
  /\ auto_saves (CollectData.history st2) = auto_saves (CollectData.history st).
Proof.
  unfold CollectData.handle_key, confirm_key. intros H Hk.
  destruct (CollectData.key_is _ "q" "Q"); [discriminate|].
  destruct (CollectData.key_is _ "h" "H");
    [injection H as <-; apply save_instant_frame|].
  destruct (CollectData.key_is _ "n" "N");
    [injection H as <-; apply save_instant_frame|].
  destruct (CollectData.key_is _ "a" "A") eqn:Ea.
  { destruct Hk as [Hk|Hk]; [discriminate|].
    injection H as <-. rewrite (save_pending_idle _ _ Hk). repeat split. }
  destruct (CollectData.key_is _ "d" "D") eqn:Ed.
  { destruct Hk as [Hk|Hk]; [discriminate|].
    injection H as <-. rewrite (save_pending_idle _ _ Hk). repeat split. }
  injection H as <-. repeat split.
Qed.

Lemma hold_start_cons (st : CollectData.State) (fr : CollectData.Frame)
    (rest : list CollectData.Frame) :
  hold_start st (fr :: rest) = start_of st fr.
Proof.
  unfold hold_start, start_of.
  now destruct (CollectData.two_hands_start_time st).
Qed.

Lemma hold_start_running (st : CollectData.State) (t0 : Q)
    (frames : list CollectData.Frame) :
  CollectData.two_hands_start_time st = Some t0 -> hold_start st frames = t0.
Proof. intros H. unfold hold_start. now rewrite H. Qed.

Lemma main_loop_cons_quit (fr : CollectData.Frame)
    (rest : list CollectData.Frame) (st : CollectData.State) :
  CollectData.handle_key fr (CollectData.auto_capture fr st) = None ->
  CollectData.main_loop (fr :: rest) st = CollectData.auto_capture fr st.
Proof. intros H. cbn [CollectData.main_loop]. now rewrite H. Qed.

Lemma main_loop_cons_go (fr : CollectData.Frame)
    (rest : list CollectData.Frame) (st st2 : CollectData.State) :
  CollectData.handle_key fr (CollectData.auto_capture fr st) = Some st2 ->
  CollectData.main_loop (fr :: rest) st = CollectData.main_loop rest st2.
Proof. intros H. cbn [CollectData.main_loop]. now rewrite H. Qed.

(** While a sample is pending and neither [A] nor [D] is pressed, no run
    of frames, with or without hands, touches the snapshot, the flag or
    the timer, and none takes another snapshot. *)
Lemma pending_run (frames : list CollectData.Frame) (st : CollectData.State) :
  CollectData.pending_sample st = true ->
  Forall (fun fr => confirm_key (CollectData.key fr) = false) frames ->
  let st' := CollectData.main_loop frames st in
  CollectData.pending_sample st' = true
  /\ CollectData.two_hands_start_time st' = CollectData.two_hands_start_time st
  /\ CollectData.captured_features st' = CollectData.captured_features st
  /\ captures (CollectData.history st') = captures (CollectData.history st).
Proof.
  intros Hp Hk. revert st Hp.
  induction Hk as [|fr rest Hfr _ IH]; intros st Hp; [now cbn|].
  cbv zeta.
  destruct (CollectData.handle_key fr (CollectData.auto_capture fr st))
    as [st2|] eqn:E.
  - rewrite (main_loop_cons_go _ _ _ _ E).
    rewrite (auto_capture_pending fr st Hp) in E.
    destruct (handle_key_other fr st st2 E (or_introl Hfr))
      as (H1 & H2 & H3 & H4 & _).
    rewrite Hp in H1. destruct (IH st2 H1) as (I1 & I2 & I3 & I4).
    rewrite I2, I3, I4. now repeat split.
  - rewrite (main_loop_cons_quit _ _ _ E), (auto_capture_pending fr st Hp).
    now repeat split.
Qed.

(** A hold that stays below 3.0 s and then breaks takes no snapshot. *)
Lemma short_hold_then_gap (frames : list CollectData.Frame)
    (gap : CollectData.Frame) (st : CollectData.State) (t0 : Q) :
  CollectData.pending_sample st = false ->
  hold_start st frames = t0 ->
  Forall (fun fr => present fr /\ (elapsed t0 fr < 3.0)%Q) frames ->
  CollectData.features gap = None ->
  let st' := CollectData.main_loop (frames ++ [gap]) st in
  CollectData.pending_sample st' = false
  /\ CollectData.captured_features st' = CollectData.captured_features st
  /\ captures (CollectData.history st') = captures (CollectData.history st)
  /\ (Forall (fun fr => quit_key (CollectData.key fr) = false) (frames ++ [gap]) ->
      CollectData.two_hands_start_time st' = None).
Proof.
  intros Hp Ht Hf Hgap. revert st Hp Ht.
  induction Hf as [|fr rest [Hfr He] _ IH]; intros st Hp Ht; cbv zeta.
  - cbn [app].
    destruct (auto_capture_absent gap st Hp Hgap) as (A1 & A2 & A3 & A4).
    destruct (CollectData.handle_key gap (CollectData.auto_capture gap st))
      as [st2|] eqn:E.
    + rewrite (main_loop_cons_go _ _ _ _ E). cbn [CollectData.main_loop].
      destruct (handle_key_other gap _ st2 E (or_intror A1))
        as (H1 & H2 & H3 & H4 & _).
      rewrite H1, H2, H3, H4, A1, A2, A3, A4. now repeat split.
    + rewrite (main_loop_cons_quit _ _ _ E), A1, A2, A3, A4. now repeat split.
  - rewrite hold_start_cons in Ht. rewrite <- Ht in He.
    destruct (auto_capture_short fr st Hp Hfr He) as (A1 & A2 & A3 & A4).
    cbn [app].
    destruct (CollectData.handle_key fr (CollectData.auto_capture fr st))
      as [st2|] eqn:E.
    + rewrite (main_loop_cons_go _ _ _ _ E).
      destruct (handle_key_other fr _ st2 E (or_intror A1))
        as (H1 & H2 & H3 & H4 & _).
      rewrite A1 in H1. rewrite A2, Ht in H2. rewrite A3 in H3. rewrite A4 in H4.
      destruct (IH st2 H1 (hold_start_running st2 t0 rest H2))
        as (I1 & I2 & I3 & I4).
      rewrite I1, I2, I3, H3, H4. repeat split.
      intros Hq. apply I4. now inversion Hq.
    + rewrite (main_loop_cons_quit _ _ _ E), A1, A3, A4. repeat split.
      intros Hq. inversion Hq as [|? ? Hq1 _]; subst.
      destruct (handle_key_quit fr (CollectData.auto_capture fr st) Hq1)
        as [st2 E2].
      congruence.
Qed.

(** A hold that reaches 3.0 s takes one snapshot, of the first frame at
    which the hold time is 3.0 s or more, and keeps it. *)
Lemma long_hold (frames : list CollectData.Frame) (st : CollectData.State)
    (t0 : Q) :
  CollectData.pending_sample st = false ->
  hold_start st frames = t0 ->
  Forall present frames ->
  Forall (fun fr => quit_key (CollectData.key fr) = false
                    /\ confirm_key (CollectData.key fr) = false) frames ->
  Exists (fun fr => (3.0 <= elapsed t0 fr)%Q) frames ->
  let st' := CollectData.main_loop frames st in
  captures (CollectData.history st') = S (captures (CollectData.history st))
  /\ CollectData.pending_sample st' = true
  /\ exists pre fr post f,
       frames = pre ++ fr :: post
       /\ Forall (fun g => (elapsed t0 g < 3.0)%Q) pre
       /\ (3.0 <= elapsed t0 fr)%Q
       /\ CollectData.features fr = Some f
       /\ CollectData.captured_features st' = Some f.
Proof.
  intros Hp Ht Hf Hk Hex. revert st Hp Ht Hf Hk.
  induction frames as [|fr rest IH]; intros st Hp Ht Hf Hk; cbv zeta;
    [inversion Hex|].
  rewrite hold_start_cons in Ht.
  inversion Hf as [|? ? Hfr Hrest]; subst.
  inversion Hk as [|? ? [Hq Hc] Hkrest]; subst.
  destruct (handle_key_quit fr (CollectData.auto_capture fr st) Hq) as [st2 E].
  rewrite (main_loop_cons_go _ _ _ _ E).
  destruct (Qlt_le_dec (elapsed (start_of st fr) fr) 3.0) as [Hlt|Hge].
  - destruct (auto_capture_short fr st Hp Hfr Hlt) as (A1 & A2 & A3 & A4).
    destruct (handle_key_other fr _ st2 E (or_introl Hc))
      as (H1 & H2 & H3 & H4 & _).
    rewrite A1 in H1. rewrite A2 in H2. rewrite A4 in H4.
    assert (Hex' : Exists (fun g => (3.0 <= elapsed (start_of st fr) g)%Q) rest).
    { inversion Hex as [? ? Hnow|? ? Hlater]; subst; [lraQ|exact Hlater]. }
    destruct (IH Hex' st2 H1 (hold_start_running st2 _ rest H2) Hrest Hkrest)
      as (I1 & I2 & pre & g & post & f & -> & Ipre & Ig & If & Ic).
    rewrite I1, H4. split; [reflexivity|]. split; [exact I2|].
    exists (fr :: pre), g, post, f. repeat split; auto.
  - unfold present in Hfr.
    destruct (CollectData.features fr) as [f|] eqn:Ef; [|now elim Hfr].
    destruct (auto_capture_held fr st f Hp Ef Hge) as (A1 & A2 & A3 & A4).
    destruct (handle_key_other fr _ st2 E (or_introl Hc))
      as (H1 & H2 & H3 & H4 & _).
    rewrite A1 in H1. rewrite A3 in H3. rewrite A4, captures_app in H4.
    assert (Hkc : Forall (fun g => confirm_key (CollectData.key g) = false) rest).
    { eapply Forall_impl; [|exact Hkrest]. now intros g [_ Hg]. }
    destruct (pending_run rest st2 H1 Hkc) as (P1 & _ & P3 & P4).
    rewrite P4, H4. split; [cbn; lia|]. split; [exact P1|].
    exists [], fr, rest, f. repeat split; auto. now rewrite P3.
Qed.

Lemma balanced_initial : balanced CollectData.initial.
Proof. split; [reflexivity|]. cbn. split; [discriminate|congruence]. Qed.

Lemma auto_capture_balanced (fr : CollectData.Frame) (st : CollectData.State) :
  balanced st -> balanced (CollectData.auto_capture fr st).
Proof.
  intros Hb. unfold CollectData.auto_capture.
  destruct (CollectData.features fr) as [f|];
    destruct (CollectData.pending_sample st) eqn:Ep; cbn [negb];
    try exact Hb.
  - destruct (Qle_bool _ _); cbn [andb]; destruct Hb as [Hc Hp];
      unfold balanced;
      cbn [CollectData.history CollectData.pending_sample
           CollectData.captured_features];
      rewrite ?Ep in *.
    + rewrite captures_app, auto_saves_app, Hc. cbn. split; [lia|].
      split; [discriminate|reflexivity].
    + split; assumption.
  - destruct Hb as [Hc Hp]. unfold balanced;
      cbn [CollectData.history CollectData.pending_sample
           CollectData.captured_features].
    rewrite ?Ep in *. split; assumption.
Qed.

Lemma save_instant_balanced (fr : CollectData.Frame) (label : Z)
    (st : CollectData.State) :
  balanced st -> balanced (CollectData.save_instant fr label st).
Proof.
  intros Hb. unfold CollectData.save_instant.
  destruct (CollectData.features fr) as [f|]; [|exact Hb].
  destruct Hb as [Hc Hp]. unfold balanced;
    cbn [CollectData.history CollectData.pending_sample
         CollectData.captured_features].
  rewrite captures_app, auto_saves_app, Hc. cbn. split; [lia|exact Hp].
Qed.

Lemma save_pending_balanced (label : Z) (st : CollectData.State) :
  balanced st -> balanced (CollectData.save_pending label st).
Proof.
  intros Hb. unfold CollectData.save_pending.
  destruct (CollectData.pending_sample st) eqn:Ep; [|exact Hb].
  destruct (CollectData.captured_features st) as [c|] eqn:Ec; [|exact Hb].
  destruct Hb as [Hc Hp]. unfold balanced;
    cbn [CollectData.history CollectData.pending_sample
         CollectData.captured_features].
  rewrite Ep in Hc.
  rewrite captures_app, auto_saves_app, Hc. cbn. split; [lia|].
  split; [discriminate|congruence].
Qed.

Lemma handle_key_balanced (fr : CollectData.Frame) (st st2 : CollectData.State) :
  balanced st -> CollectData.handle_key fr st = Some st2 -> balanced st2.
Proof.
  intros Hb. unfold CollectData.handle_key.
  repeat match goal with
         | |- context [if ?b then _ else _] => destruct b
         end; intros [= <-];
    auto using save_instant_balanced, save_pending_balanced.
Qed.

Lemma main_loop_balanced (frames : list CollectData.Frame)
    (st : CollectData.State) :
  balanced st -> balanced (CollectData.main_loop frames st).
Proof.
  revert st. induction frames as [|fr rest IH]; intros st Hb; [exact Hb|].
  cbn [CollectData.main_loop].
  pose proof (auto_capture_balanced fr st Hb) as H1.
  destruct (CollectData.handle_key fr (CollectData.auto_capture fr st))
    as [st2|] eqn:E; [|exact H1].
  apply IH. exact (handle_key_balanced fr _ st2 H1 E).
Qed.

(** C2.  The hold timer of the collection loop, over any frames, clock
    readings and keys.
    - Two hands held for less than 3.0 s, then a frame without two hands:
      no snapshot is taken, nothing is pending, and unless the user quit
      the timer is reset.
    - Two hands in every frame, no quit and no [A]/[D] key, and a hold
      time of 3.0 s or more at some frame: exactly one snapshot is taken,
      at the first such frame; it holds that frame's features at the end
      of the run, whatever the later frames carried.
    - While a sample is pending and [A]/[D] is not pressed, frames with or
      without hands change neither the snapshot nor the timer nor the
      flag, and take no snapshot.
    - From the initial state on, the snapshots taken exceed the pending
      samples labelled by one when the flag is up and by none otherwise:
      there is never more than one unlabelled snapshot. *)
Theorem auto_capture_hold_timer :
  (forall frames gap st,
     CollectData.pending_sample st = false ->
     Forall (fun fr => present fr
                       /\ (elapsed (hold_start st frames) fr < 3.0)%Q) frames ->
     CollectData.features gap = None ->
     let st' := CollectData.main_loop (frames ++ [gap]) st in
     captures (CollectData.history st') = captures (CollectData.history st)
     /\ CollectData.pending_sample st' = false
     /\ CollectData.captured_features st' = CollectData.captured_features st
     /\ (Forall (fun fr => quit_key (CollectData.key fr) = false)
           (frames ++ [gap]) ->
         CollectData.two_hands_start_time st' = None))
  /\ (forall frames st,
        CollectData.pending_sample st = false ->
        Forall present frames ->
        Forall (fun fr => quit_key (CollectData.key fr) = false
                          /\ confirm_key (CollectData.key fr) = false) frames ->
        Exists (fun fr => (3.0 <= elapsed (hold_start st frames) fr)%Q) frames ->
        let st' := CollectData.main_loop frames st in
        captures (CollectData.history st') = S (captures (CollectData.history st))
        /\ CollectData.pending_sample st' = true
        /\ exists pre fr post f,
             frames = pre ++ fr :: post
             /\ Forall (fun g => (elapsed (hold_start st frames) g < 3.0)%Q) pre
             /\ (3.0 <= elapsed (hold_start st frames) fr)%Q
             /\ CollectData.features fr = Some f
             /\ CollectData.captured_features st' = Some f)
  /\ (forall frames st,
        CollectData.pending_sample st = true ->
        Forall (fun fr => confirm_key (CollectData.key fr) = false) frames ->
        let st' := CollectData.main_loop frames st in
        CollectData.pending_sample st' = true
        /\ CollectData.two_hands_start_time st'
           = CollectData.two_hands_start_time st
        /\ CollectData.captured_features st' = CollectData.captured_features st
        /\ captures (CollectData.history st') = captures (CollectData.history st))
  /\ (forall frames,
        let st' := CollectData.main_loop frames CollectData.initial in
        captures (CollectData.history st')
        = (auto_saves (CollectData.history st')
           + if CollectData.pending_sample st' then 1 else 0)%nat
        /\ (CollectData.pending_sample st' = true
            <-> CollectData.captured_features st' <> None)).
Proof.
  split; [|split; [|split]].
  - intros frames gap st Hp Hf Hgap.
    destruct (short_hold_then_gap frames gap st _ Hp eq_refl Hf Hgap)
      as (H1 & H2 & H3 & H4).
    cbv zeta. auto.
  - intros frames st Hp Hf Hk Hex.
    exact (long_hold frames st _ Hp eq_refl Hf Hk Hex).
  - exact pending_run.
  - intros frames. apply (main_loop_balanced frames _ balanced_initial).
Qed.

Lemma auto_capture_hold_timer_witness :
  captures (CollectData.history
              (CollectData.main_loop (short_run ++ [gap_at 13.5])
                 CollectData.initial)) = 0%nat
  /\ captures (CollectData.history
                 (CollectData.main_loop long_run CollectData.initial)) = 1%nat
  /\ CollectData.captured_features
       (CollectData.main_loop later_run
          (CollectData.main_loop long_run CollectData.initial))
     = Some (repeat 0 3).
Proof.
  destruct auto_capture_hold_timer as (A & B & C & _).
  split; [|split].
  - destruct (A short_run (gap_at 13.5) CollectData.initial) as (E & _).
    + reflexivity.
    + repeat constructor; discriminate.
    + reflexivity.
    + exact E.
  - destruct (B long_run CollectData.initial) as (E & _).
    + reflexivity.
    + repeat constructor; discriminate.
    + repeat constructor.
    + right. right. left. discriminate.
    + exact E.
  - destruct (C later_run (CollectData.main_loop long_run CollectData.initial))
      as (_ & _ & E & _).
    + reflexivity.
    + repeat constructor.
    + rewrite E. reflexivity.
Defined.

(** * Further properties *)

(** ** The normaliser on hands of any size *)

Lemma normalize_landmarks_short (hand : list Lm.t) :
  (length hand < 10)%nat ->
  CollectData.normalize_landmarks hand = Raise IndexError.
Proof.
  intros H. unfold CollectData.normalize_landmarks, index.
  rewrite !nth_error_map.
  destruct (nth_error hand 0); [|reflexivity]. cbn [option_map bind].
  destruct (nth_error hand 9) eqn:E9; [|reflexivity].
  assert (nth_error hand 9 <> None) as Hn by congruence.
  apply nth_error_Some in Hn. lia.
Qed.

Lemma anchors_of_ten (hand : list Lm.t) :
  (10 <= length hand)%nat ->
  exists w m, nth_error hand 0 = Some w /\ nth_error hand 9 = Some m.
Proof.
  intros H.
  destruct (index_ok_lt hand 0) as [w Hw]; [lia|].
  destruct (index_ok_lt hand 9) as [m Hm]; [lia|].
  eauto.
Qed.

(** X1.  Landmarks 0 and 9 are all the normaliser indexes: a hand with
    fewer than ten landmarks raises [IndexError], any other hand, of 21
    landmarks or not, gives two values per landmark; the copy in the
    detector does the same. *)
Theorem normalize_landmarks_needs_ten (hand : list Lm.t) :
  DetectRealtime.normalize_landmarks hand = CollectData.normalize_landmarks hand
  /\ ((length hand < 10)%nat ->
      CollectData.normalize_landmarks hand = Raise IndexError)
  /\ ((10 <= length hand)%nat ->
      exists v, CollectData.normalize_landmarks hand = Ok v
                /\ length v = (2 * length hand)%nat).
Proof.
  split; [reflexivity|]. split; [apply normalize_landmarks_short|].
  intros H. destruct (anchors_of_ten hand H) as (w & m & H0 & H9).
  pose proof (normalize_landmarks_anchored _ _ _ H0 H9) as Hn.
  eexists. split; [exact Hn|]. exact (normalize_landmarks_length _ _ Hn).
Qed.

Lemma normalize_landmarks_needs_ten_witness :
  CollectData.normalize_landmarks (firstn 9 short_hand) = Raise IndexError
  /\ exists v, CollectData.normalize_landmarks short_hand = Ok v
               /\ length v = 20%nat.
Proof.
  split.
  - apply (normalize_landmarks_needs_ten (firstn 9 short_hand)). cbn. lia.
  - destruct (proj2 (proj2 (normalize_landmarks_needs_ten short_hand)))
      as (v & Hv & Hl); [cbn; lia|].
    exists v. split; [exact Hv|exact Hl].
Defined.

Lemma linalg_norm_div (v : Np.row) (s : R) :
  0 < s -> Np.linalg_norm (fst v / s, snd v / s) = Np.linalg_norm v / s.
Proof.
  intros Hs. unfold Rdiv.
  rewrite (Rmult_comm (fst v)), (Rmult_comm (snd v)), (Rmult_comm (Np.linalg_norm v)).
  apply linalg_norm_scale. left. now apply Rinv_0_lt_compat.
Qed.

(** X2.  The output is in units of the wrist-to-MCP distance: the
    normalised middle MCP (values 18 and 19) lies at distance exactly 1
    from the origin, except when the floor applies, where it lies at
    [1e6] times the anchor distance, closer than 1. *)
Theorem normalized_anchor_unit (hand : list Lm.t) :
  (10 <= length hand)%nat ->
  exists v a b,
    CollectData.normalize_landmarks hand = Ok v
    /\ nth_error v 18 = Some a
    /\ nth_error v 19 = Some b
    /\ (1e-6 <= anchor_distance hand -> Np.linalg_norm (a, b) = 1)
    /\ (anchor_distance hand < 1e-6 ->
        Np.linalg_norm (a, b) = 1e6 * anchor_distance hand
        /\ Np.linalg_norm (a, b) < 1).
Proof.
  intros H. destruct (anchors_of_ten hand H) as (w & m & H0 & H9).
  pose proof (normalize_landmarks_anchored _ _ _ H0 H9) as Hn.
  rewrite normalized_as_map in Hn.
  set (s := CollectData.scale_of (Lm.x w, Lm.y w) (Lm.x m, Lm.y m)) in *.
  assert (Hc : nth_error (coords hand) 9 = Some (Lm.x m, Lm.y m)).
  { unfold coords. now rewrite nth_error_map, H9. }
  apply (map_nth_error
           (fun p => ((fst p - fst (Lm.x w, Lm.y w)) / s,
                      (snd p - snd (Lm.x w, Lm.y w)) / s))) in Hc.
  destruct (flatten_nth _ _ _ Hc) as [Ha Hb]. cbn [fst snd Nat.mul Nat.add] in Ha, Hb.
  eexists _, _, _. split; [exact Hn|]. split; [exact Ha|]. split; [exact Hb|].
  rewrite (anchor_distance_eq _ _ _ H0 H9).
  pose proof (scale_of_pos (Lm.x w, Lm.y w) (Lm.x m, Lm.y m)) as Hs. fold s in Hs.
  pose proof (linalg_norm_div (Np.row_sub (Lm.x m, Lm.y m) (Lm.x w, Lm.y w)) s Hs)
    as Hd.
  cbn [Np.row_sub fst snd] in Hd. rewrite Hd.
  cbn [Np.row_sub fst snd].
  split; intros Hf.
  - unfold s. rewrite (scale_of_unclamped _ _ Hf). cbn [Np.row_sub fst snd].
    field. lraR.
  - unfold s. rewrite (scale_of_clamped _ _ Hf).
    pose proof (sqrt_pos ((Lm.x m - Lm.x w) * (Lm.x m - Lm.x w)
                          + (Lm.y m - Lm.y w) * (Lm.y m - Lm.y w))) as Hp.
    unfold Np.linalg_norm in *. cbn [Np.row_sub fst snd] in *. split; lraR.
Qed.

Lemma normalized_anchor_unit_witness :
  exists v a b,
    CollectData.normalize_landmarks spread_hand = Ok v
    /\ nth_error v 18 = Some a /\ nth_error v 19 = Some b
    /\ Np.linalg_norm (a, b) = 1.
Proof.
  destruct (normalized_anchor_unit spread_hand) as (v & a & b & Hv & Ha & Hb & H1 & _).
  - cbn. lia.
  - exists v, a, b. repeat (split; [assumption|]). apply H1.
    pose proof spread_hand_distance. lraR.
Defined.

(** ** The extractor on any detector result *)

Lemma hand_data_of_unusable (pairs : list (list Lm.t * list Category)) :
  Exists unusable pairs -> CollectData.hand_data_of pairs = Raise IndexError.
Proof.
  induction pairs as [|[hand handedness] rest IH]; intros H;
    [inversion H|].
  cbn [CollectData.hand_data_of].
  destruct handedness as [|c handedness]; [reflexivity|].
  unfold index at 1. cbn [nth_error bind].
  destruct (Nat.lt_ge_cases (length hand) 10) as [Hs|Hl].
  - now rewrite (normalize_landmarks_short hand Hs).
  - destruct (anchors_of_ten hand Hl) as (w & m & H0 & H9).
    rewrite (normalize_landmarks_anchored _ _ _ H0 H9). cbn [bind].
    rewrite IH; [reflexivity|].
    inversion H as [? ? [Hbad|Hbad]|]; subst; cbn [fst snd] in *;
      [lia|discriminate|assumption].
Qed.

Lemma hand_data_of_usable (pairs : list (list Lm.t * list Category)) :
  Forall (fun p => ~ unusable p) pairs ->
  exists hand_data,
    CollectData.hand_data_of pairs = Ok hand_data
    /\ length hand_data = length pairs
    /\ list_sum (map (fun x => length (snd x)) hand_data) = feature_count pairs.
Proof.
  induction 1 as [|[hand handedness] rest Hp _ IH].
  - exists []. repeat split.
  - destruct IH as (hand_data & E & Hl & Hs).
    unfold unusable in Hp. cbn [fst snd] in Hp.
    destruct handedness as [|c handedness]; [elim Hp; now right|].
    assert (Hten : (10 <= length hand)%nat) by lia.
    destruct (anchors_of_ten hand Hten) as (w & m & H0 & H9).
    pose proof (normalize_landmarks_anchored _ _ _ H0 H9) as Hn.
    set (v := Np.flatten _) in Hn.
    exists ((category_name c, v) :: hand_data). split; [|split].
    + cbn [CollectData.hand_data_of]. unfold index at 1. cbn [nth_error bind].
      rewrite Hn. cbn [bind]. rewrite E. reflexivity.
    + cbn [length]. now rewrite Hl.
    + unfold feature_count, list_sum in *. cbn [map fold_right snd fst].
      rewrite Hs, (normalize_landmarks_length _ _ Hn). reflexivity.
Qed.

(** X3.  What the extractor does with two or more hands, whatever the
    detector handed over.  The hands are paired with the handedness
    entries as far as both lists go.  Without any handedness entry the
    concatenation of nothing raises [ValueError]; a paired hand with
    fewer than ten landmarks or with an empty handedness raises
    [IndexError]; otherwise the result is a vector with two values per
    landmark of every paired hand.  Both scripts agree. *)
Theorem extract_features_outcome (hands : list (list Lm.t))
    (handedness : list (list Category)) :
  (2 <= length hands)%nat ->
  DetectRealtime.extract_features hands handedness
  = CollectData.extract_features hands handedness
  /\ (handedness = [] ->
      CollectData.extract_features hands handedness = Raise ValueError)
  /\ (Exists unusable (zip hands handedness) ->
      CollectData.extract_features hands handedness = Raise IndexError)
  /\ (handedness <> [] ->
      Forall (fun p => ~ unusable p) (zip hands handedness) ->
      exists v,
        CollectData.extract_features hands handedness = Ok (Some v)
        /\ length v = feature_count (zip hands handedness)).
Proof.
  intros H2. split; [apply extract_features_same|].
  unfold CollectData.extract_features.
  destruct hands as [|h1 hands]; [simpl in H2; lia|].
  cbn [is_falsy orb].
  destruct (Nat.ltb_spec (length (h1 :: hands)) 2) as [Hlt|_]; [lia|].
  split; [|split].
  - intros ->. reflexivity.
  - intros Hbad. now rewrite (hand_data_of_unusable _ Hbad).
  - intros Hne Hok.
    destruct (hand_data_of_usable _ Hok) as (hand_data & E & Hl & Hs).
    rewrite E. cbn [bind].
    pose proof (sort_key_perm CollectData.hand_key hand_data) as Hperm.
    assert (Hlen : length (concat (map snd (sort_key CollectData.hand_key hand_data)))
                   = feature_count (zip (h1 :: hands) handedness)).
    { rewrite <- Hs, length_concat, map_map.
      apply Permutation_list_sum.
      apply (Permutation_map (fun x => length (snd x))) in Hperm.
      symmetry. exact Hperm. }
    revert Hlen.
    destruct (sort_key CollectData.hand_key hand_data) as [|x sorted] eqn:Es;
      intros Hlen.
    + apply Permutation_length in Hperm. cbn [length] in Hperm.
      destruct handedness as [|c handedness]; [now elim Hne|].
      cbn in Hl. lia.
    + eexists. split; [reflexivity|exact Hlen].
Qed.

Lemma extract_features_outcome_witness :
  CollectData.extract_features [spread_hand; tiny_hand] [] = Raise ValueError
  /\ CollectData.extract_features [spread_hand; firstn 9 short_hand]
       [left_hand; right_hand] = Raise IndexError
  /\ exists v,
       CollectData.extract_features [spread_hand; short_hand; tiny_hand]
         [left_hand; right_hand] = Ok (Some v)
       /\ length v = 62%nat.
Proof.
  split; [|split].
  - apply (extract_features_outcome [spread_hand; tiny_hand] []);
      [cbn; lia|reflexivity].
  - apply (extract_features_outcome [spread_hand; firstn 9 short_hand]
             [left_hand; right_hand]); [cbn; lia|].
    right. left. left. cbn. lia.
  - destruct (extract_features_outcome [spread_hand; short_hand; tiny_hand]
                [left_hand; right_hand]) as (_ & _ & _ & H); [cbn; lia|].
    destruct H as (v & Hv & Hl).
    + discriminate.
    + repeat constructor; intros [Hbad|Hbad]; cbn in Hbad;
        [lia|discriminate|lia|discriminate].
    + exists v. split; [exact Hv|exact Hl].
Defined.

Lemma normalize_translate (t : Np.row) (hand : list Lm.t) :
  CollectData.normalize_landmarks (similar 1 t hand)
  = CollectData.normalize_landmarks hand.
Proof.
  destruct (Nat.lt_ge_cases (length hand) 10) as [Hs|Hl].
  - rewrite !normalize_landmarks_short; [reflexivity|assumption|].
    unfold similar. now rewrite length_map.
  - destruct (anchors_of_ten hand Hl) as (w & m & H0 & H9).
    apply (normalize_similar_when 1 t _ _ _ H0 H9); [lraR|].
    unfold CollectData.scale_of.
    rewrite (similar_anchor_norm 1 (fst t) (snd t) (Lm.x w) (Lm.y w) (Lm.x m)
               (Lm.y m)) by lraR.
    set (d := Np.linalg_norm _).
    destruct (Rlt_dec (1 * d) 1e-6), (Rlt_dec d 1e-6); lraR.
Qed.

Lemma hand_data_of_translated (ts : list Np.row) (hands : list (list Lm.t))
    (handedness : list (list Category)) :
  length ts = length hands ->
  CollectData.hand_data_of (zip (translated ts hands) handedness)
  = CollectData.hand_data_of (zip hands handedness).
Proof.
  revert ts handedness.
  induction hands as [|hand hands IH]; intros [|t ts] [|c handedness] Hl;
    try reflexivity; try discriminate.
  unfold zip, translated in *. cbn [combine map fst snd CollectData.hand_data_of].
  rewrite normalize_translate, IH; [reflexivity|].
  now injection Hl.
Qed.

(** X4.  The feature vector does not record where either hand is: moving
    every hand by a translation of its own, the same for all its
    landmarks but different from hand to hand, changes nothing in the
    result, errors included.  The relative position of the two hands is
    not a feature. *)
Theorem hands_translate_independently (ts : list Np.row)
    (hands : list (list Lm.t)) (handedness : list (list Category)) :
  length ts = length hands ->
  CollectData.extract_features (translated ts hands) handedness
  = CollectData.extract_features hands handedness.
Proof.
  intros Hl. unfold CollectData.extract_features.
  rewrite (hand_data_of_translated ts hands handedness Hl).
  assert (E : length (translated ts hands) = length hands).
  { unfold translated. rewrite length_map, length_combine. lia. }
  rewrite E. destruct hands, ts; try discriminate; reflexivity.
Qed.

Lemma hands_translate_independently_witness :
  CollectData.extract_features
    (translated [(1 / 4, 0); (0, 1 / 2)] [spread_hand; tiny_hand])
    [left_hand; right_hand]
  = CollectData.extract_features [spread_hand; tiny_hand] [left_hand; right_hand].
Proof.
  apply (hands_translate_independently [(1 / 4, 0); (0, 1 / 2)]
           [spread_hand; tiny_hand] [left_hand; right_hand]).
  reflexivity.
Defined.

(** ** Drawing the landmarks *)

Section Drawing.

(** A property of pixels that the pixels of a hand's landmarks have. *)
Variable P : Cv2.point -> Prop.

Lemma draw_connections_ok (hand : list Lm.t) (connections : list (nat * nat))
    (h w : Z) (drawn : list Cv2.primitive) :
  Forall (fun c => (fst c < length hand)%nat /\ (snd c < length hand)%nat)
    connections ->
  (forall lm, In lm hand -> P (CollectData.pixel h w lm)) ->
  exists new,
    CollectData.draw_connections hand connections
      {| Cv2.shape := (h, w); Cv2.drawn := drawn |}
    = Ok {| Cv2.shape := (h, w); Cv2.drawn := drawn ++ new |}
    /\ length new = length connections
    /\ Forall (fun p => Forall P (points_of p)) new.
Proof.
  intros Hc HP. revert drawn.
  induction Hc as [|[i j] rest [Hi Hj] _ IH]; intros drawn.
  - exists []. rewrite app_nil_r. repeat split. constructor.
  - cbn [fst snd] in Hi, Hj.
    destruct (index_ok_lt hand i Hi) as [a Ha].
    destruct (index_ok_lt hand j Hj) as [b Hb].
    cbn [CollectData.draw_connections Cv2.shape]. unfold index.
    rewrite Ha, Hb. cbn [bind]. unfold Cv2.draw. cbn [Cv2.shape Cv2.drawn].
    destruct (IH (drawn ++ [Cv2.Line (CollectData.pixel h w a)
                              (CollectData.pixel h w b) (255, 255, 255)%Z 2]))
      as (new & E & Hl & Hp).
    eexists (_ :: new). rewrite E, <- app_assoc. cbn [app length].
    split; [reflexivity|]. split; [now rewrite Hl|].
    constructor; [|exact Hp]. cbn [points_of].
    repeat constructor; apply HP; eapply nth_error_In; eassumption.
Qed.

Lemma draw_points_ok (hand : list Lm.t) (h w : Z) (drawn : list Cv2.primitive) :
  (forall lm, In lm hand -> P (CollectData.pixel h w lm)) ->
  exists new,
    CollectData.draw_points hand {| Cv2.shape := (h, w); Cv2.drawn := drawn |}
    = {| Cv2.shape := (h, w); Cv2.drawn := drawn ++ new |}
    /\ length new = length hand
    /\ Forall (fun p => Forall P (points_of p)) new.
Proof.
  revert drawn. induction hand as [|lm hand IH]; intros drawn HP.
  - exists []. rewrite app_nil_r. repeat split. constructor.
  - cbn [CollectData.draw_points Cv2.shape]. unfold Cv2.draw.
    cbn [Cv2.shape Cv2.drawn].
    destruct (IH (drawn ++ [Cv2.Circle (CollectData.pixel h w lm) 4
                              (0, 255, 0)%Z (-1)]))
      as (new & E & Hl & Hp); [intros a Ha; apply HP; now right|].
    eexists (_ :: new). rewrite E, <- app_assoc. cbn [app length].
    split; [reflexivity|]. split; [now rewrite Hl|].
    constructor; [|exact Hp]. cbn [points_of].
    repeat constructor. apply HP. now left.
Qed.

Lemma draw_landmarks_ok (hands : list (list Lm.t)) (h w : Z)
    (drawn : list Cv2.primitive) :
  Forall (fun hand => (21 <= length hand)%nat
                      /\ forall lm, In lm hand -> P (CollectData.pixel h w lm))
    hands ->
  exists new,
    CollectData.draw_landmarks {| Cv2.shape := (h, w); Cv2.drawn := drawn |} hands
    = Ok {| Cv2.shape := (h, w); Cv2.drawn := drawn ++ new |}
    /\ length new = list_sum (map (fun hand => 23 + length hand)%nat hands)
    /\ Forall (fun p => Forall P (points_of p)) new.
Proof.
  intros H. revert drawn.
  induction H as [|hand hands [H21 HP] _ IH]; intros drawn.
  - exists []. rewrite app_nil_r. repeat split. constructor.
  - cbn [CollectData.draw_landmarks].
    destruct (draw_connections_ok hand CollectData.HAND_CONNECTIONS h w drawn)
      as (lines & E1 & L1 & P1); [|exact HP|].
    { unfold CollectData.HAND_CONNECTIONS.
      repeat constructor; cbn [fst snd]; lia. }
    rewrite E1. cbn [bind].
    destruct (draw_points_ok hand h w (drawn ++ lines) HP)
      as (circles & E2 & L2 & P2).
    rewrite E2.
    destruct (IH ((drawn ++ lines) ++ circles)) as (new & E3 & L3 & P3).
    exists (lines ++ circles ++ new).
    rewrite E3, <- !app_assoc. split; [reflexivity|].
    split.
    + rewrite !length_app, L1, L2, L3. cbn [map list_sum fold_right length].
      unfold list_sum. cbn [fold_right]. reflexivity.
    + apply Forall_app. split; [exact P1|].
      apply Forall_app. split; assumption.
Qed.

End Drawing.

Lemma draw_connections_short (hand : list Lm.t) (connections : list (nat * nat))
    (frame : Cv2.image) :
  Exists (fun c => (length hand <= fst c)%nat \/ (length hand <= snd c)%nat)
    connections ->
  CollectData.draw_connections hand connections frame = Raise IndexError.
Proof.
  intros H. revert frame.
  induction connections as [|[i j] rest IH]; intros frame; [inversion H|].
  cbn [CollectData.draw_connections]. destruct (Cv2.shape frame) as [h w].
  unfold index.
  destruct (nth_error hand i) as [a|] eqn:Ea; [|reflexivity].
  destruct (nth_error hand j) as [b|] eqn:Eb; [|reflexivity].
  cbn [bind]. apply IH.
  inversion H as [? ? [Hbad|Hbad]|]; subst; cbn [fst snd] in *; [| |assumption].
  - apply nth_error_None in Hbad. congruence.
  - apply nth_error_None in Hbad. congruence.
Qed.

Lemma draw_landmarks_short (hands : list (list Lm.t)) (frame : Cv2.image) :
  Exists (fun hand => (length hand < 21)%nat) hands ->
  CollectData.draw_landmarks frame hands = Raise IndexError.
Proof.
  intros H. revert frame.
  induction hands as [|hand hands IH]; intros frame; [inversion H|].
  cbn [CollectData.draw_landmarks].
  destruct (Nat.lt_ge_cases (length hand) 21) as [Hs|Hl].
  - rewrite draw_connections_short; [reflexivity|].
    apply Exists_exists. exists (19, 20)%nat. split; [|right; cbn; lia].
    unfold CollectData.HAND_CONNECTIONS. cbn. tauto.
  - destruct frame as [[h w] drawn].
    destruct (draw_connections_ok (fun _ => True) hand
                CollectData.HAND_CONNECTIONS h w drawn)
      as (lines & E & _); [|auto|].
    { unfold CollectData.HAND_CONNECTIONS.
      repeat constructor; cbn [fst snd]; lia. }
    rewrite E. cbn [bind]. apply IH.
    inversion H; subst; [lia|assumption].
Qed.

Lemma draw_connections_same (hand : list Lm.t) (connections : list (nat * nat))
    (frame : Cv2.image) :
  DetectRealtime.draw_connections hand connections frame
  = CollectData.draw_connections hand connections frame.
Proof.
  revert frame. induction connections as [|[i j] rest IH]; intros frame;
    cbn [DetectRealtime.draw_connections CollectData.draw_connections];
    destruct (Cv2.shape frame) as [h w]; [reflexivity|].
  destruct (index hand i); [|reflexivity]. cbn [bind].
  destruct (index hand j); [|reflexivity]. cbn [bind]. apply IH.
Qed.

Lemma draw_points_same (hand : list Lm.t) (frame : Cv2.image) :
  DetectRealtime.draw_points hand frame = CollectData.draw_points hand frame.
Proof.
  revert frame. induction hand as [|lm hand IH]; intros frame;
    cbn [DetectRealtime.draw_points CollectData.draw_points];
    destruct (Cv2.shape frame) as [h w]; [reflexivity|]. apply IH.
Qed.

Lemma draw_landmarks_same (hands : list (list Lm.t)) (frame : Cv2.image) :
  DetectRealtime.draw_landmarks frame hands
  = CollectData.draw_landmarks frame hands.
Proof.
  revert frame. induction hands as [|hand hands IH]; intros frame;
    [reflexivity|].
  cbn [DetectRealtime.draw_landmarks CollectData.draw_landmarks].
  change DetectRealtime.HAND_CONNECTIONS with CollectData.HAND_CONNECTIONS.
  rewrite draw_connections_same.
  destruct (CollectData.draw_connections _ _ _) as [f|]; [|reflexivity].
  cbn [bind]. rewrite draw_points_same. apply IH.
Qed.

(** X5.  The connection table reaches landmark 20 and no further: drawing
    succeeds exactly on hands of at least 21 landmarks and raises
    [IndexError] as soon as one hand is shorter.  On success the frame
    keeps its size, nothing drawn before is touched, and each hand adds
    its 23 lines and one circle per landmark.  The detector's copy does
    the same. *)
Theorem draw_landmarks_needs_21 (frame : Cv2.image) (hands : list (list Lm.t)) :
  DetectRealtime.draw_landmarks frame hands
  = CollectData.draw_landmarks frame hands
  /\ (Exists (fun hand => (length hand < 21)%nat) hands ->
      CollectData.draw_landmarks frame hands = Raise IndexError)
  /\ (Forall (fun hand => (21 <= length hand)%nat) hands ->
      exists new,
        CollectData.draw_landmarks frame hands
        = Ok {| Cv2.shape := Cv2.shape frame; Cv2.drawn := Cv2.drawn frame ++ new |}
        /\ length new = list_sum (map (fun hand => 23 + length hand)%nat hands)).
Proof.
  split; [apply draw_landmarks_same|]. split; [apply draw_landmarks_short|].
  intros H. destruct frame as [[h w] drawn].
  destruct (draw_landmarks_ok (fun _ => True) hands h w drawn)
    as (new & E & L & _).
  - eapply Forall_impl; [|exact H]. cbn. auto.
  - exists new. split; assumption.
Qed.

Lemma draw_landmarks_needs_21_witness :
  CollectData.draw_landmarks blank [spread_hand; short_hand] = Raise IndexError
  /\ exists new,
       CollectData.draw_landmarks blank [spread_hand; tiny_hand]
       = Ok {| Cv2.shape := (480, 640)%Z; Cv2.drawn := new |}
       /\ length new = 88%nat.
Proof.
  split.
  - apply (draw_landmarks_needs_21 blank [spread_hand; short_hand]).
    right. left. cbn. lia.
  - destruct (proj2 (proj2 (draw_landmarks_needs_21 blank [spread_hand; tiny_hand])))
      as (new & E & L).
    + repeat constructor.
    + exists new. split; [exact E|exact L].
Defined.

Lemma int_of_float_bounds (x : R) (n : Z) :
  0 <= x < IZR n -> (0 <= int_of_float x < n)%Z.
Proof.
  intros [H0 Hn]. unfold int_of_float.
  destruct (Rle_dec 0 x) as [_|Hneg]; [|contradiction].
  destruct (base_Int_part x) as [Hle Hgt]. split.
  - assert (IZR (-1) < IZR (Int_part x)) as Hlt by lraR.
    apply lt_IZR in Hlt. lia.
  - apply lt_IZR. lraR.
Qed.

Lemma pixel_inside (h w : Z) (lm : Lm.t) :
  (0 < h)%Z -> (0 < w)%Z -> in_unit_square lm ->
  inside {| Cv2.shape := (h, w); Cv2.drawn := [] |} (CollectData.pixel h w lm).
Proof.
  intros Hh Hw [[Hx0 Hx1] [Hy0 Hy1]]. apply IZR_lt in Hh, Hw.
  unfold inside, CollectData.pixel. cbn [fst snd Cv2.shape].
  split; apply int_of_float_bounds; split; nraR.
Qed.

(** X6.  On a frame with at least one row and one column, hands whose
    landmark coordinates lie in [0, 1) are drawn inside the frame: every
    end of a line and every circle centre is a pixel of the frame. *)
Theorem landmarks_drawn_inside (frame frame' : Cv2.image)
    (hands : list (list Lm.t)) :
  (0 < fst (Cv2.shape frame))%Z ->
  (0 < snd (Cv2.shape frame))%Z ->
  Forall (Forall in_unit_square) hands ->
  CollectData.draw_landmarks frame hands = Ok frame' ->
  exists new,
    Cv2.drawn frame' = Cv2.drawn frame ++ new
    /\ Forall (fun p => Forall (inside frame) (points_of p)) new.
Proof.
  intros Hh Hw Hu E. destruct frame as [[h w] drawn].
  cbn [Cv2.shape fst snd] in Hh, Hw.
  assert (H21 : Forall (fun hand => (21 <= length hand)%nat) hands).
  { apply Forall_forall. intros hand Hin.
    destruct (Nat.lt_ge_cases (length hand) 21) as [Hs|Hl]; [|exact Hl].
    rewrite draw_landmarks_short in E; [discriminate|].
    apply Exists_exists. eauto. }
  destruct (draw_landmarks_ok
              (inside {| Cv2.shape := (h, w); Cv2.drawn := drawn |})
              hands h w drawn) as (new & E' & _ & Hp).
  - apply Forall_forall. intros hand Hin. split.
    + rewrite Forall_forall in H21. now apply H21.
    + intros lm Hlm. rewrite Forall_forall in Hu.
      specialize (Hu hand Hin). rewrite Forall_forall in Hu.
      apply (pixel_inside h w lm Hh Hw (Hu lm Hlm)).
  - rewrite E' in E. injection E as <-. exists new. split; [reflexivity|exact Hp].
Qed.

Lemma spread_hand_in_unit_square : Forall in_unit_square spread_hand.
Proof.
  unfold spread_hand. cbn [seq map].
  repeat (apply Forall_cons;
          [unfold in_unit_square;
           cbn [Lm.x Lm.y Z.of_nat Pos.of_succ_nat Pos.succ Nat.mul Nat.add];
           split; split; lraR|]).
  apply Forall_nil.
Qed.

Lemma landmarks_drawn_inside_witness :
  exists frame' new,
    CollectData.draw_landmarks blank [spread_hand] = Ok frame'
    /\ Cv2.drawn frame' = new
    /\ Forall (fun p => Forall (inside blank) (points_of p)) new.
Proof.
  destruct (draw_landmarks_ok (fun _ => True) [spread_hand] 480 640 [])
    as (new & E & _); [repeat constructor|].
  destruct (landmarks_drawn_inside blank
              {| Cv2.shape := (480, 640)%Z; Cv2.drawn := [] ++ new |}
              [spread_hand]) as (new' & E' & Hin).
  - reflexivity.
  - reflexivity.
  - constructor; [apply spread_hand_in_unit_square|constructor].
  - exact E.
  - eexists _, new'. split; [exact E|]. split; [exact E'|exact Hin].
Defined.

(** ** The dataset file and the counters of the collector *)

Lemma saved_records_app (h1 h2 : list CollectData.Event) :
  saved_records (h1 ++ h2) = saved_records h1 ++ saved_records h2.
Proof. unfold saved_records. apply flat_map_app. Qed.

Lemma saves_labelled_app (label : Z) (h1 h2 : list CollectData.Event) :
  saves_labelled label (h1 ++ h2)
  = (saves_labelled label h1 + saves_labelled label h2)%nat.
Proof. unfold saves_labelled. now rewrite filter_app, length_app. Qed.

Lemma continues_refl (st : CollectData.State) : continues st st [].
Proof.
  unfold continues. cbn. rewrite app_nil_r, !Z.add_0_r. repeat split.
Qed.

Lemma continues_trans (st1 st2 st3 : CollectData.State)
    (new1 new2 : list CollectData.Event) :
  continues st1 st2 new1 -> continues st2 st3 new2 ->
  continues st1 st3 (new1 ++ new2).
Proof.
  intros (H1 & A1 & B1 & C1) (H2 & A2 & B2 & C2). unfold continues.
  rewrite H2, H1, A2, A1, B2, B1, app_assoc, saved_records_app, length_app,
    !saves_labelled_app, C1, C2.
  repeat split; lia.
Qed.

(** Lines 191-207 save nothing. *)
Lemma auto_capture_continues (fr : CollectData.Frame) (st : CollectData.State) :
  exists new,
    continues st (CollectData.auto_capture fr st) new /\ saved_records new = [].
Proof.
  unfold CollectData.auto_capture.
  destruct (CollectData.features fr) as [f|];
    destruct (negb (CollectData.pending_sample st));
    try (exists []; split; [apply continues_refl|reflexivity]).
  - destruct (Qle_bool _ _ && _).
    + exists [CollectData.Captured (Np.copy f)].
      unfold continues. cbn. rewrite !Z.add_0_r. repeat split.
    + exists []. unfold continues. cbn. rewrite app_nil_r, !Z.add_0_r.
      repeat split.
  - exists []. unfold continues. cbn. rewrite app_nil_r, !Z.add_0_r.
    repeat split.
Qed.

Lemma save_instant_continues (fr : CollectData.Frame) (label : Z)
    (st : CollectData.State) (rows : list CollectData.record) :
  label = 1%Z \/ label = 0%Z ->
  exists new,
    continues st (CollectData.save_instant fr label st) new
    /\ match CollectData.features fr with
       | Some f => CollectData.save_sample f label (Some rows)
       | None => Some rows
       end = Some (rows ++ saved_records new).
Proof.
  intros Hl. unfold CollectData.save_instant.
  destruct (CollectData.features fr) as [f|].
  - exists [CollectData.SavedInstant f label]. unfold continues.
    destruct Hl as [-> | ->]; cbn; rewrite ?Z.add_0_r; repeat split.
  - exists []. cbn. rewrite app_nil_r. split; [apply continues_refl|reflexivity].
Qed.

Lemma save_pending_continues (label : Z) (st : CollectData.State)
    (rows : list CollectData.record) :
  label = 1%Z \/ label = 0%Z ->
  exists new,
    continues st (CollectData.save_pending label st) new
    /\ match CollectData.pending_sample st, CollectData.captured_features st with
       | true, Some c => CollectData.save_sample c label (Some rows)
       | _, _ => Some rows
       end = Some (rows ++ saved_records new).
Proof.
  intros Hl. unfold CollectData.save_pending.
  destruct (CollectData.pending_sample st);
    [destruct (CollectData.captured_features st) as [c|]|];
    try (exists []; cbn; rewrite app_nil_r;
         split; [apply continues_refl|reflexivity]).
  exists [CollectData.SavedAuto c label]. unfold continues.
  destruct Hl as [-> | ->]; cbn; rewrite ?Z.add_0_r; repeat split.
Qed.

Lemma handle_key_continues (fr : CollectData.Frame) (st st2 : CollectData.State)
    (rows : list CollectData.record) :
  CollectData.handle_key fr st = Some st2 ->
  exists new,
    continues st st2 new
    /\ CollectData.handle_key_file fr st (Some rows)
       = Some (rows ++ saved_records new).
Proof.
  unfold CollectData.handle_key, CollectData.handle_key_file.
  destruct (CollectData.key_is _ "q" "Q"); [discriminate|].
  destruct (CollectData.key_is _ "h" "H");
    [intros [= <-]; apply save_instant_continues; auto|].
  destruct (CollectData.key_is _ "n" "N");
    [intros [= <-]; apply save_instant_continues; auto|].
  destruct (CollectData.key_is _ "a" "A");
    [intros [= <-]; apply save_pending_continues; auto|].
  destruct (CollectData.key_is _ "d" "D");
    [intros [= <-]; apply save_pending_continues; auto|].
  intros [= <-]. exists []. cbn. rewrite app_nil_r.
  split; [apply continues_refl|reflexivity].
Qed.

Lemma main_loop_file_state (frames : list CollectData.Frame)
    (st : CollectData.State) (file : CollectData.csv_file) :
  fst (CollectData.main_loop_file frames st file)
  = CollectData.main_loop frames st.
Proof.
  revert st file. induction frames as [|fr rest IH]; intros st file;
    [reflexivity|].
  cbn [CollectData.main_loop_file CollectData.main_loop].
  destruct (CollectData.handle_key fr (CollectData.auto_capture fr st));
    [apply IH|reflexivity].
Qed.

Lemma main_loop_file_continues (frames : list CollectData.Frame)
    (st : CollectData.State) (rows : list CollectData.record) :
  exists new,
    continues st (CollectData.main_loop frames st) new
    /\ snd (CollectData.main_loop_file frames st (Some rows))
       = Some (rows ++ saved_records new).
Proof.
  revert st rows. induction frames as [|fr rest IH]; intros st rows.
  - exists []. cbn. rewrite app_nil_r. split; [apply continues_refl|reflexivity].
  - cbn [CollectData.main_loop_file CollectData.main_loop].
    destruct (auto_capture_continues fr st) as (new1 & C1 & S1).
    destruct (CollectData.handle_key fr (CollectData.auto_capture fr st))
      as [st2|] eqn:E.
    + destruct (handle_key_continues fr _ st2 rows E) as (new2 & C2 & F2).
      rewrite F2.
      destruct (IH st2 (rows ++ saved_records new2)) as (new3 & C3 & F3).
      exists (new1 ++ new2 ++ new3). split.
      * eapply continues_trans; [exact C1|].
        eapply continues_trans; eassumption.
      * rewrite F3, !saved_records_app, S1, <- app_assoc. reflexivity.
    + exists new1. cbn [snd]. rewrite S1, app_nil_r. split; [exact C1|reflexivity].
Qed.

(** X7.  A collection session only appends to the dataset.  [init_csv]
    leaves an existing file as it is and starts a missing one with the
    header; the session ends with those records followed by one record per
    save, in order, also when the webcam cannot be opened and nothing is
    saved.  The two counters printed at the end are the numbers of records
    the session wrote with label 1 and with label 0, and it wrote no
    other record. *)
Theorem session_appends_to_dataset (opened : bool)
    (frames : list CollectData.Frame) (file : CollectData.csv_file) :
  let st := fst (CollectData.main opened frames file) in
  let file' := snd (CollectData.main opened frames file) in
  exists old,
    CollectData.init_csv file = Some old
    /\ (file = Some old \/ file = None /\ old = [CollectData.header])
    /\ CollectData.init_csv (CollectData.init_csv file) = CollectData.init_csv file
    /\ st = (if opened then CollectData.main_loop frames CollectData.initial
             else CollectData.initial)
    /\ file' = Some (old ++ saved_records (CollectData.history st))
    /\ CollectData.heart_count st
       = Z.of_nat (saves_labelled 1 (CollectData.history st))
    /\ CollectData.not_heart_count st
       = Z.of_nat (saves_labelled 0 (CollectData.history st))
    /\ length (saved_records (CollectData.history st))
       = (saves_labelled 1 (CollectData.history st)
          + saves_labelled 0 (CollectData.history st))%nat.
Proof.
  cbv zeta. unfold CollectData.main.
  assert (Hold : exists old,
             CollectData.init_csv file = Some old
             /\ (file = Some old \/ file = None /\ old = [CollectData.header])).
  { destruct file as [rows|]; [exists rows|exists [CollectData.header]];
      cbn; auto. }
  destruct Hold as (old & Ho & Hcase). exists old.
  split; [exact Ho|]. split; [exact Hcase|].
  split; [now rewrite Ho|]. rewrite Ho.
  destruct opened.
  - rewrite main_loop_file_state.
    destruct (main_loop_file_continues frames CollectData.initial old)
      as (new & (Hh & Ha & Hb & Hc) & Hf).
    cbn [CollectData.history CollectData.initial app
         CollectData.heart_count CollectData.not_heart_count] in Hh, Ha, Hb.
    rewrite Hf, Hh, Ha, Hb, Hc. repeat split.
  - cbn. rewrite app_nil_r. repeat split.
Qed.

Lemma extract_features_width (hands : list (list Lm.t))
    (handedness : list (list Category)) :
  (2 <= length hands)%nat ->
  length handedness = length hands ->
  Forall (fun h => length h = 21%nat) hands ->
  Forall (fun c => c <> []) handedness ->
  exists v,
    CollectData.extract_features hands handedness = Ok (Some v)
    /\ length v = (42 * length hands)%nat.
Proof.
  intros H2 Hlen Hh Hc. eexists.
  split; [apply (extract_features_labelled hands handedness H2 Hlen Hh Hc)|].
  rewrite (concat_widths 42).
  - now rewrite sort_key_length, labelled_length.
  - eapply Permutation_Forall; [apply sort_key_perm|].
    now apply labelled_widths.
Qed.

(** X8.  A sample extracted from two detected hands fits the table: the
    record [save_sample] appends has as many fields as the header
    [init_csv] writes, 85, with the 84 features under the feature columns
    in order and the label under the column "label". *)
Theorem sample_fits_header (h1 h2 : list Lm.t) (c1 c2 : list Category)
    (label : Z) (rows : list CollectData.record) :
  length h1 = 21%nat -> length h2 = 21%nat -> c1 <> [] -> c2 <> [] ->
  exists f rec,
    CollectData.extract_features [h1; h2] [c1; c2] = Ok (Some f)
    /\ CollectData.save_sample f label (Some rows) = Some (rows ++ [rec])
    /\ length rec = length CollectData.header
    /\ length CollectData.header = 85%nat
    /\ firstn 84 rec = map CollectData.Float f
    /\ nth_error rec 84 = Some (CollectData.Int label)
    /\ nth_error CollectData.header 84 = Some (CollectData.Text "label")
    /\ nth_error CollectData.header 0 = Some (CollectData.Text "feature_0")
    /\ nth_error CollectData.header 83 = Some (CollectData.Text "feature_83").
Proof.
  intros L1 L2 N1 N2.
  destruct (extract_features_width [h1; h2] [c1; c2]) as (f & Hf & Hl);
    [cbn; lia|reflexivity|repeat constructor; assumption
    |repeat constructor; assumption|].
  cbn [length Nat.mul Nat.add] in Hl.
  exists f, (map CollectData.Float f ++ [CollectData.Int label]).
  split; [exact Hf|]. split; [reflexivity|].
  assert (Hm : length (map CollectData.Float f) = 84%nat)
    by now rewrite length_map.
  split; [rewrite length_app, Hm; reflexivity|].
  split; [reflexivity|].
  split.
  { rewrite firstn_app, Hm, Nat.sub_diag, firstn_O, app_nil_r.
    apply firstn_all2. lia. }
  split.
  { rewrite nth_error_app2 by (rewrite Hm; lia). now rewrite Hm. }
  repeat split.
Qed.

Lemma sample_fits_header_witness :
  exists f rec,
    CollectData.extract_features [spread_hand; tiny_hand] [right_hand; left_hand]
    = Ok (Some f)
    /\ CollectData.save_sample f 1 (Some [CollectData.header])
       = Some ([CollectData.header] ++ [rec])
    /\ length rec = 85%nat.
Proof.
  destruct (sample_fits_header spread_hand tiny_hand right_hand left_hand 1
              [CollectData.header])
    as (f & rec & Hf & Hs & Hl & Hh & _);
    [reflexivity|reflexivity|discriminate|discriminate|].
  exists f, rec. split; [exact Hf|]. split; [exact Hs|]. now rewrite Hl.
Defined.

(** ** Where the saved rows come from *)

Lemma split_snoc {A : Type} (before after h : list A) (x y : A) :
  before ++ x :: after = h ++ [y] ->
  (after = [] /\ before = h /\ x = y)
  \/ exists after', after = after' ++ [y] /\ h = before ++ x :: after'.
Proof.
  intros E. destruct (exists_last (l := x :: after)) as (l & z & Hl);
    [discriminate|].
  destruct after as [|a after].
  - left. apply app_inj_tail in E. destruct E as [-> ->]. auto.
  - right. destruct (exists_last (l := a :: after)) as (after' & z' & Ha);
      [discriminate|].
    rewrite Ha in E. exists after'.
    change (before ++ x :: after' ++ [z']) with (before ++ (x :: after') ++ [z'])
      in E.
    rewrite app_assoc in E. apply app_inj_tail in E. destruct E as [<- <-].
    split; [exact Ha|reflexivity].
Qed.

Lemma seen_more (frames more : list CollectData.Frame) (row : list R) :
  seen frames row -> seen (frames ++ more) row.
Proof.
  intros (fr & Hin & Hf). exists fr. split; [|exact Hf].
  apply in_or_app. now left.
Qed.

Lemma traceable_more (frames more : list CollectData.Frame)
    (st : CollectData.State) :
  traceable frames st -> traceable (frames ++ more) st.
Proof.
  intros (T1 & T2 & T3 & T4). repeat split; eauto using seen_more.
Qed.

(** Appending an event that is not a labelled snapshot. *)
Lemma traceable_snoc_plain (before after h : list CollectData.Event)
    (e : CollectData.Event) (row : list R) (label : Z) :
  (forall r l, e <> CollectData.SavedAuto r l) ->
  (forall before row label after,
     h = before ++ CollectData.SavedAuto row label :: after ->
     In (CollectData.Captured row) before) ->
  h ++ [e] = before ++ CollectData.SavedAuto row label :: after ->
  In (CollectData.Captured row) before.
Proof.
  intros Hne T3 E. symmetry in E.
  destruct (split_snoc _ _ _ _ _ E) as [(_ & _ & Hx)|(after' & _ & Hh)].
  - now elim (Hne row label).
  - now apply (T3 _ _ _ _ Hh).
Qed.

Lemma auto_capture_traceable (frames : list CollectData.Frame)
    (fr : CollectData.Frame) (st : CollectData.State) :
  traceable frames st ->
  traceable (frames ++ [fr]) (CollectData.auto_capture fr st).
Proof.
  intros T. apply (traceable_more frames [fr]) in T.
  unfold CollectData.auto_capture.
  destruct (CollectData.features fr) as [f|] eqn:Ef;
    destruct (negb (CollectData.pending_sample st));
    try exact T.
  destruct (Qle_bool _ _ && _); [|exact T].
  destruct T as (T1 & T2 & T3 & T4).
  unfold traceable, Np.copy.
  cbn [CollectData.history CollectData.captured_features].
  split; [|split; [|split]].
  - intros row label Hin. apply in_app_or in Hin.
    destruct Hin as [Hin|[Hin|[]]]; [eauto|discriminate].
  - intros c Hin. apply in_app_or in Hin.
    destruct Hin as [Hin|[[= <-]|[]]]; [eauto|].
    exists fr. split; [apply in_or_app; right; now left|exact Ef].
  - intros before row label after E.
    apply (traceable_snoc_plain before after _ _ row label) with (3 := E);
      [discriminate|exact T3].
  - intros c [= <-]. apply in_or_app. right. now left.
Qed.

Lemma save_instant_traceable (frames : list CollectData.Frame)
    (fr : CollectData.Frame) (label : Z) (st : CollectData.State) :
  In fr frames ->
  traceable frames st ->
  traceable frames (CollectData.save_instant fr label st).
Proof.
  intros Hfr T. unfold CollectData.save_instant.
  destruct (CollectData.features fr) as [f|] eqn:Ef; [|exact T].
  destruct T as (T1 & T2 & T3 & T4).
  unfold traceable. cbn [CollectData.history CollectData.captured_features].
  split; [|split; [|split]].
  - intros row l Hin. apply in_app_or in Hin.
    destruct Hin as [Hin|[[= <- <-]|[]]]; [eauto|]. now exists fr.
  - intros c Hin. apply in_app_or in Hin.
    destruct Hin as [Hin|[Hin|[]]]; [eauto|discriminate].
  - intros before row l after E.
    apply (traceable_snoc_plain before after _ _ row l) with (3 := E);
      [discriminate|exact T3].
  - intros c Hc. apply in_or_app. left. eauto.
Qed.

Lemma save_pending_traceable (frames : list CollectData.Frame) (label : Z)
    (st : CollectData.State) :
  traceable frames st ->
  traceable frames (CollectData.save_pending label st).
Proof.
  intros T. unfold CollectData.save_pending.
  destruct (CollectData.pending_sample st); [|exact T].
  destruct (CollectData.captured_features st) as [c|] eqn:Ec; [|exact T].
  destruct T as (T1 & T2 & T3 & T4).
  unfold traceable. cbn [CollectData.history CollectData.captured_features].
  split; [|split; [|split]].
  - intros row l Hin. apply in_app_or in Hin.
    destruct Hin as [Hin|[Hin|[]]]; [eauto|discriminate].
  - intros c' Hin. apply in_app_or in Hin.
    destruct Hin as [Hin|[Hin|[]]]; [eauto|discriminate].
  - intros before row l after E. symmetry in E.
    destruct (split_snoc _ _ _ _ _ E) as [(_ & -> & [= -> ->])|(after' & _ & Hh)].
    + now apply T4.
    + now apply (T3 _ _ _ _ Hh).
  - discriminate.
Qed.

Lemma handle_key_traceable (frames : list CollectData.Frame)
    (fr : CollectData.Frame) (st st2 : CollectData.State) :
  In fr frames ->
  traceable frames st ->
  CollectData.handle_key fr st = Some st2 ->
  traceable frames st2.
Proof.
  intros Hfr T. unfold CollectData.handle_key.
  repeat match goal with
         | |- context [if ?b then _ else _] => destruct b
         end; intros [= <-];
    auto using save_instant_traceable, save_pending_traceable.
Qed.

Lemma main_loop_traceable (frames before : list CollectData.Frame)
    (st : CollectData.State) :
  traceable before st ->
  traceable (before ++ frames) (CollectData.main_loop frames st).
Proof.
  revert before st. induction frames as [|fr rest IH]; intros before st T.
  - rewrite app_nil_r. exact T.
  - cbn [CollectData.main_loop].
    pose proof (auto_capture_traceable before fr st T) as T1.
    destruct (CollectData.handle_key fr (CollectData.auto_capture fr st))
      as [st2|] eqn:E.
    + replace (before ++ fr :: rest) with ((before ++ [fr]) ++ rest)
        by (rewrite <- app_assoc; reflexivity).
      apply IH. apply (handle_key_traceable _ fr _ st2) with (3 := E);
        [apply in_or_app; right; now left|exact T1].
    + replace (before ++ fr :: rest) with ((before ++ [fr]) ++ rest)
        by (rewrite <- app_assoc; reflexivity).
      now apply traceable_more.
Qed.

(** X9.  Every record of a session is the feature vector of one of its
    frames.  A record saved with [H] or [N] carries features some frame
    had; a record saved with [A] or [D] carries a snapshot taken earlier
    in the session, itself the features of a frame, and not whatever the
    hands show when the key is pressed. *)
Theorem saved_rows_come_from_frames (frames : list CollectData.Frame) :
  let h := CollectData.history
             (CollectData.main_loop frames CollectData.initial) in
  (forall row label,
     In (CollectData.SavedInstant row label) h ->
     exists fr, In fr frames /\ CollectData.features fr = Some row)
  /\ (forall before row label after,
        h = before ++ CollectData.SavedAuto row label :: after ->
        In (CollectData.Captured row) before
        /\ exists fr, In fr frames /\ CollectData.features fr = Some row).
Proof.
  assert (T0 : traceable [] CollectData.initial).
  { repeat split; cbn; try contradiction; try discriminate.
    intros [|? ?]; discriminate. }
  destruct (main_loop_traceable frames [] CollectData.initial T0)
    as (T1 & T2 & T3 & _).
  cbn [app] in *. split; [exact T1|].
  intros before row label after E. pose proof (T3 _ _ _ _ E) as Hc.
  split; [exact Hc|]. apply T2. rewrite E. apply in_or_app. now left.
Qed.

Lemma saved_rows_come_from_frames_witness :
  In (CollectData.Captured (repeat 0 3))
    [CollectData.SavedInstant (repeat 0 1) 1; CollectData.Captured (repeat 0 3)]
  /\ exists fr,
       In fr [key_frame 1 10 "h"; frame_at 2 11; frame_at 3 13; key_frame 9 14 "a"]
       /\ CollectData.features fr = Some (repeat 0 3).
Proof.
  apply (proj2 (saved_rows_come_from_frames
                  [key_frame 1 10 "h"; frame_at 2 11; frame_at 3 13;
                   key_frame 9 14 "a"])
           [CollectData.SavedInstant (repeat 0 1) 1;
            CollectData.Captured (repeat 0 3)]
           (repeat 0 3) 1%Z []).
  reflexivity.
Defined.

(** ** The prompt, the countdown and the keys *)

Lemma auto_capture_prompting (fr : CollectData.Frame) (st : CollectData.State) :
  prompting st -> prompting (CollectData.auto_capture fr st).
Proof.
  intros Hp. unfold CollectData.auto_capture.
  destruct (CollectData.features fr) as [f|];
    destruct (CollectData.pending_sample st) eqn:Ep; cbn [negb];
    try exact Hp.
  - destruct (Qle_bool _ _); cbn [andb]; unfold prompting;
      cbn [CollectData.pending_sample CollectData.auto_sample_status].
    + tauto.
    + rewrite ?Ep. split; discriminate.
  - unfold prompting;
      cbn [CollectData.pending_sample CollectData.auto_sample_status].
    rewrite ?Ep. split; discriminate.
Qed.

Lemma handle_key_prompting (fr : CollectData.Frame) (st st2 : CollectData.State) :
  prompting st -> CollectData.handle_key fr st = Some st2 -> prompting st2.
Proof.
  intros Hp. unfold CollectData.handle_key, CollectData.save_instant,
    CollectData.save_pending.
  repeat match goal with
         | |- context [if ?b then _ else _] => destruct b
         end; intros [= <-]; try exact Hp;
    repeat match goal with
           | |- context [match ?x with _ => _ end] => destruct x eqn:?
           end; try exact Hp;
    unfold prompting in *;
    cbn [CollectData.pending_sample CollectData.auto_sample_status] in *;
    try tauto; split; discriminate.
Qed.

Lemma main_loop_prompting (frames : list CollectData.Frame)
    (st : CollectData.State) :
  prompting st -> prompting (CollectData.main_loop frames st).
Proof.
  revert st. induction frames as [|fr rest IH]; intros st Hp; [exact Hp|].
  cbn [CollectData.main_loop].
  pose proof (auto_capture_prompting fr st Hp) as H1.
  destruct (CollectData.handle_key fr (CollectData.auto_capture fr st))
    as [st2|] eqn:E; [|exact H1].
  apply IH. exact (handle_key_prompting fr _ st2 H1 E).
Qed.

Lemma prompting_initial : prompting CollectData.initial.
Proof. split; discriminate. Qed.

(** X10.  The status line that asks for a label ("Sample captured! Press
    A=Heart, D=Not-Heart") is the one drawn exactly in the frames in which
    a sample is pending, and the one left at the end of a frame exactly
    when one is. *)
Theorem prompt_shown_iff_pending (frames : list CollectData.Frame)
    (fr : CollectData.Frame) :
  let st := CollectData.main_loop frames CollectData.initial in
  let drawn := CollectData.auto_capture fr st in
  (CollectData.pending_sample drawn = true
   <-> CollectData.auto_sample_status drawn = CollectData.SampleCaptured)
  /\ (CollectData.pending_sample st = true
      <-> CollectData.auto_sample_status st = CollectData.SampleCaptured).
Proof.
  pose proof (main_loop_prompting frames _ prompting_initial) as Hp.
  split; [apply (auto_capture_prompting fr _ Hp)|exact Hp].
Qed.

Lemma tenths_of_positive (x : Q) :
  (0 <= x)%Q -> Py.tenths x = Py.round_half_even (10 * x).
Proof.
  intros H. unfold Py.tenths. apply round_half_even_comp.
  now rewrite Qabs_pos.
Qed.

(** X11.  What the countdown shows.  Whenever a frame of a session draws
    "Hold both hands steady", the frame has two hands, nothing is pending,
    and the time left is 3.0 s minus the hold time, strictly positive: the
    [max] with 0.0 of line 202 never takes effect.  The text drawn shows
    that time rounded to tenths of a second, so it reads "0.0s" while
    less than 0.05 s are left, and at least one tenth once more than
    0.05 s are. *)
Theorem countdown_shows_rounded_time (frames : list CollectData.Frame)
    (fr : CollectData.Frame) (remaining : Q) :
  let st := CollectData.main_loop frames CollectData.initial in
  let drawn := CollectData.auto_capture fr st in
  CollectData.auto_sample_status drawn = CollectData.HoldSteady remaining ->
  present fr
  /\ CollectData.pending_sample drawn = false
  /\ (remaining == 3.0 - elapsed (start_of st fr) fr)%Q
  /\ (0 < remaining)%Q
  /\ CollectData.status_text (CollectData.auto_sample_status drawn)
     = ("Hold both hands steady: "
        ++ (str_of_nat (Z.to_nat (Py.tenths remaining / 10)) ++ "."
            ++ str_of_nat (Z.to_nat (Py.tenths remaining mod 10)))
        ++ "s")%string
  /\ Py.tenths remaining = Py.round_half_even (10 * remaining)
  /\ ((remaining < 1 # 20)%Q ->
      CollectData.status_text (CollectData.auto_sample_status drawn)
      = "Hold both hands steady: 0.0s")
  /\ ((1 # 20 < remaining)%Q -> (1 <= Py.tenths remaining)%Z).
Proof.
  cbv zeta.
  pose proof (main_loop_prompting frames _ prompting_initial) as Hp.
  set (st := CollectData.main_loop frames CollectData.initial) in *.
  intros Hs.
  assert (H : present fr
              /\ CollectData.pending_sample (CollectData.auto_capture fr st) = false
              /\ (remaining == 3.0 - elapsed (start_of st fr) fr)%Q
              /\ (0 < remaining)%Q).
  { revert Hs. unfold CollectData.auto_capture, present.
    destruct (CollectData.pending_sample st) eqn:Ep.
    - assert (Hc : CollectData.auto_sample_status st = CollectData.SampleCaptured)
        by now apply Hp.
      destruct (CollectData.features fr); cbn [negb]; rewrite Hc; discriminate.
    - destruct (CollectData.features fr) as [f|]; cbn [negb]; [|discriminate].
      fold (start_of st fr). fold (elapsed (start_of st fr) fr).
      destruct (Qle_bool 3.0 (elapsed (start_of st fr) fr)) eqn:Eh; cbn [andb];
        [discriminate|].
      cbn [CollectData.auto_sample_status CollectData.pending_sample].
      intros [= <-].
      assert (Hlt : (elapsed (start_of st fr) fr < 3.0)%Q).
      { apply Qnot_le_lt. intros Hle. apply Qle_bool_iff in Hle. congruence. }
      assert (Hm : (Qmax 0.0 (3.0 - elapsed (start_of st fr) fr)
                    == 3.0 - elapsed (start_of st fr) fr)%Q).
      { apply Q.max_r. lraQ. }
      split; [discriminate|]. split; [reflexivity|]. split; [exact Hm|].
      rewrite Hm. lraQ. }
  destruct H as (H1 & H2 & H3 & H4).
  split; [exact H1|]. split; [exact H2|]. split; [exact H3|]. split; [exact H4|].
  assert (Hb : Qle_bool 0 remaining = true) by (apply Qle_bool_iff; lraQ).
  assert (Ht : Py.tenths remaining = Py.round_half_even (10 * remaining))
    by (apply tenths_of_positive; lraQ).
  assert (Htext : CollectData.status_text (CollectData.HoldSteady remaining)
                  = ("Hold both hands steady: "
                     ++ (str_of_nat (Z.to_nat (Py.tenths remaining / 10)) ++ "."
                         ++ str_of_nat (Z.to_nat (Py.tenths remaining mod 10)))
                     ++ "s")%string).
  { cbn [CollectData.status_text]. unfold Py.format_1f. now rewrite Hb. }
  rewrite Hs. split; [exact Htext|]. split; [exact Ht|]. split.
  - intros Hsmall. rewrite Htext.
    assert (Hz : Py.tenths remaining = 0%Z).
    { rewrite Ht. apply Z.le_antisymm.
      - apply round_half_even_below. change (inject_Z 0) with 0%Q. lraQ.
      - apply round_half_even_ge_int. change (inject_Z 0) with 0%Q. lraQ. }
    rewrite Hz. reflexivity.
  - intros Hbig. rewrite Ht.
    pose proof (round_half_even_error (10 * remaining)) as [Hl _].
    assert (Hpos : (inject_Z 0 < inject_Z (Py.round_half_even (10 * remaining)))%Q).
    { change (inject_Z 0) with 0%Q. lraQ. }
    rewrite <- Zlt_Qlt in Hpos. lia.
Qed.

Lemma countdown_shows_rounded_time_witness :
  CollectData.status_text
    (CollectData.auto_sample_status
       (CollectData.auto_capture (frame_at 2 12.96)
          (CollectData.main_loop [frame_at 1 10] CollectData.initial)))
  = "Hold both hands steady: 0.0s".
Proof.
  destruct (countdown_shows_rounded_time [frame_at 1 10] (frame_at 2 12.96)
              (Qmax 0.0 (3.0 - (12.96 - 10)))%Q)
    as (_ & _ & _ & _ & _ & _ & H & _); [reflexivity|].
  apply H. vm_compute. reflexivity.
Defined.

Lemma key_is_a (k : Z) :
  k = ord "a" \/ k = ord "A" ->
  CollectData.key_is k "q" "Q" = false /\ CollectData.key_is k "h" "H" = false
  /\ CollectData.key_is k "n" "N" = false /\ CollectData.key_is k "a" "A" = true.
Proof. intros [-> | ->]; repeat split. Qed.

Lemma key_is_d (k : Z) :
  k = ord "d" \/ k = ord "D" ->
  CollectData.key_is k "q" "Q" = false /\ CollectData.key_is k "h" "H" = false
  /\ CollectData.key_is k "n" "N" = false /\ CollectData.key_is k "a" "A" = false
  /\ CollectData.key_is k "d" "D" = true.
Proof. intros [-> | ->]; repeat split. Qed.

(** X12.  A pending sample can always be labelled.  In every state a
    session reaches with the flag up, a snapshot is stored, and the next
    [A] (or [D]) writes exactly that snapshot with label 1 (or 0), whatever
    the frame shows, adds one to the matching counter only, and leaves
    the flag down, the snapshot dropped and the timer stopped: the "No
    auto-captured sample to label" branch is not taken. *)
Theorem pending_sample_is_labelled (frames : list CollectData.Frame)
    (fr : CollectData.Frame) (rows : list CollectData.record) :
  let st := CollectData.main_loop frames CollectData.initial in
  CollectData.pending_sample st = true ->
  exists c,
    CollectData.captured_features st = Some c
    /\ forall label,
         (label = 1%Z /\ (CollectData.key fr = ord "a"
                          \/ CollectData.key fr = ord "A"))
         \/ (label = 0%Z /\ (CollectData.key fr = ord "d"
                             \/ CollectData.key fr = ord "D")) ->
         exists st',
           CollectData.main_loop_file [fr] st (Some rows)
           = (st', Some (rows ++ [map CollectData.Float c
                                   ++ [CollectData.Int label]]))
           /\ CollectData.history st'
              = CollectData.history st ++ [CollectData.SavedAuto c label]
           /\ CollectData.heart_count st'
              = (CollectData.heart_count st + label)%Z
           /\ CollectData.not_heart_count st'
              = (CollectData.not_heart_count st + (1 - label))%Z
           /\ CollectData.pending_sample st' = false
           /\ CollectData.captured_features st' = None
           /\ CollectData.two_hands_start_time st' = None.
Proof.
  cbv zeta. intros Hp.
  destruct (main_loop_balanced frames _ balanced_initial) as [_ Hb].
  set (st := CollectData.main_loop frames CollectData.initial) in *.
  destruct (CollectData.captured_features st) as [c|] eqn:Ec;
    [|now elim (proj1 Hb Hp)].
  exists c. split; [reflexivity|].
  intros label Hk.
  cbn [CollectData.main_loop_file].
  rewrite (auto_capture_pending fr st Hp).
  unfold CollectData.handle_key, CollectData.handle_key_file,
    CollectData.save_pending.
  destruct Hk as [[-> Hk]|[-> Hk]].
  - destruct (key_is_a _ Hk) as (-> & -> & -> & ->).
    rewrite Hp, Ec. eexists. split; [reflexivity|].
    cbn. rewrite Z.add_0_r. repeat split.
  - destruct (key_is_d _ Hk) as (-> & -> & -> & -> & ->).
    rewrite Hp, Ec. eexists. split; [reflexivity|].
    cbn. rewrite Z.add_0_r. repeat split.
Qed.

Lemma pending_sample_is_labelled_witness :
  exists st',
    CollectData.main_loop_file [key_frame 9 14 "d"]
      (CollectData.main_loop long_run CollectData.initial)
      (Some [CollectData.header])
    = (st', Some ([CollectData.header]
                  ++ [map CollectData.Float (repeat 0 3) ++ [CollectData.Int 0]]))
    /\ CollectData.pending_sample st' = false.
Proof.
  destruct (pending_sample_is_labelled long_run (key_frame 9 14 "d")
              [CollectData.header]) as (c & Hc & H); [reflexivity|].
  injection Hc as <-.
  destruct (H 0%Z) as (st' & E & _ & _ & _ & Hp & _).
  - right. split; [reflexivity|left; reflexivity].
  - exists st'. split; [exact E|exact Hp].
Defined.

Lemma main_loop_file_quit (fr : CollectData.Frame)
    (post : list CollectData.Frame) (st : CollectData.State)
    (file : CollectData.csv_file) :
  quit_key (CollectData.key fr) = true ->
  CollectData.main_loop_file (fr :: post) st file
  = (CollectData.auto_capture fr st, file).
Proof.
  intros Hq. cbn [CollectData.main_loop_file]. unfold CollectData.handle_key.
  unfold quit_key in Hq. now rewrite Hq.
Qed.

(** X13.  [Q] ends the session at once.  The frames after the one in
    which it is pressed change neither the state nor the file, and the
    quit frame itself writes nothing; lines 191-207 have run on it, so a
    hold that reaches 3.0 s on that frame is still captured, unlabelled. *)
Theorem quit_stops_the_session (pre post : list CollectData.Frame)
    (fr : CollectData.Frame) (st : CollectData.State)
    (file : CollectData.csv_file) :
  quit_key (CollectData.key fr) = true ->
  CollectData.main_loop_file (pre ++ fr :: post) st file
  = CollectData.main_loop_file (pre ++ [fr]) st file
  /\ CollectData.main_loop_file (fr :: post) st file
     = (CollectData.auto_capture fr st, file).
Proof.
  intros Hq. split; [|now apply main_loop_file_quit].
  revert st file. induction pre as [|g pre IH]; intros st file.
  - cbn [app]. now rewrite !main_loop_file_quit.
  - cbn [app CollectData.main_loop_file].
    destruct (CollectData.handle_key g (CollectData.auto_capture g st));
      [apply IH|reflexivity].
Qed.

Lemma quit_stops_the_session_witness :
  CollectData.main_loop_file
    ([frame_at 1 10] ++ key_frame 2 11 "q" :: [key_frame 3 12 "h"])
    CollectData.initial (Some [])
  = CollectData.main_loop_file ([frame_at 1 10] ++ [key_frame 2 11 "q"])
      CollectData.initial (Some []).
Proof.
  apply (quit_stops_the_session [frame_at 1 10] [key_frame 3 12 "h"]
           (key_frame 2 11 "q") CollectData.initial (Some [])).
  reflexivity.
Defined.

(** ** The window as the last ten probabilities *)

Lemma lastn_length {A : Type} (n : nat) (l : list A) :
  (length (lastn n l) <= n)%nat.
Proof. unfold lastn. rewrite length_skipn. lia. Qed.

Lemma lastn_all {A : Type} (n : nat) (l : list A) :
  (length l <= n)%nat -> lastn n l = l.
Proof.
  intros H. unfold lastn. replace (length l - n)%nat with 0%nat by lia.
  reflexivity.
Qed.

Lemma lastn_snoc {A : Type} (n : nat) (l : list A) (a : A) :
  lastn n (lastn n l ++ [a]) = lastn n (l ++ [a]).
Proof.
  destruct (Nat.le_gt_cases (length l) n) as [Hle|Hgt].
  - now rewrite (lastn_all n l Hle).
  - unfold lastn. rewrite !length_app, length_skipn. cbn [length].
    rewrite (skipn_app _ (skipn _ l)), skipn_skipn, length_skipn.
    rewrite (skipn_app _ l).
    f_equal; f_equal; lia.
Qed.

Lemma deque_append_lastn {A : Type} (d : deque A) (a : A) :
  (length (items d) <= maxlen d)%nat ->
  items (deque_append d a) = lastn (maxlen d) (items d ++ [a]).
Proof.
  intros H. unfold deque_append, lastn.
  rewrite length_app. cbn [length].
  destruct (Nat.ltb_spec (maxlen d) (length (items d) + 1)) as [Hlt|Hge];
    cbn [items].
  - replace (length (items d) + 1 - maxlen d)%nat with 1%nat by lia.
    now destruct (items d ++ [a]).
  - replace (length (items d) + 1 - maxlen d)%nat with 0%nat by lia.
    reflexivity.
Qed.

Section Window.

Variable heart_probability : list R -> Q.

Lemma main_loop_snoc (frames : list (option (list R)))
    (features : option (list R)) (buf : deque Q) :
  fst (DetectRealtime.main_loop heart_probability (frames ++ [features]) buf)
  = fst (DetectRealtime.update heart_probability features
           (fst (DetectRealtime.main_loop heart_probability frames buf))).
Proof.
  revert buf. induction frames as [|x frames IH]; intros buf.
  - cbn [app]. rewrite main_loop_cons. reflexivity.
  - cbn [app]. rewrite !main_loop_cons. cbn [fst]. apply IH.
Qed.

Lemma since_gap_from_snoc (acc : list (list R))
    (frames : list (option (list R))) (f : list R) :
  since_gap_from acc (frames ++ [Some f]) = since_gap_from acc frames ++ [f].
Proof.
  revert acc. induction frames as [|[g|] frames IH]; intros acc;
    cbn [app since_gap_from]; [reflexivity|apply IH|apply IH].
Qed.

Lemma window_from (acc : list (list R)) (frames : list (option (list R)))
    (buf : deque Q) :
  maxlen buf = 10%nat ->
  items buf = lastn 10 (map heart_probability acc) ->
  items (fst (DetectRealtime.main_loop heart_probability frames buf))
  = lastn 10 (map heart_probability (since_gap_from acc frames)).
Proof.
  revert acc buf. induction frames as [|[f|] frames IH]; intros acc buf Hm Hi.
  - exact Hi.
  - rewrite main_loop_cons. cbn [fst since_gap_from DetectRealtime.update].
    apply IH; [now rewrite deque_append_maxlen|].
    rewrite deque_append_lastn, Hm, Hi.
    + now rewrite lastn_snoc, map_app.
    + rewrite Hi, Hm. apply lastn_length.
  - rewrite main_loop_cons. cbn [fst since_gap_from DetectRealtime.update].
    apply IH; [exact Hm|reflexivity].
Qed.

(** X14.  The window is the detector's memory and nothing else is: after
    any frames, it holds the probabilities of the frames since the last
    one without two hands, the last ten of them when there are more, in
    order. *)
Theorem window_is_last_ten_since_gap (frames : list (option (list R))) :
  items (fst (DetectRealtime.main_loop heart_probability frames
                DetectRealtime.initial))
  = lastn 10 (map heart_probability (since_gap frames)).
Proof. apply window_from; reflexivity. Qed.

End Window.

(** ** The smoothed confidence *)

Lemma inject_succ (n : nat) :
  (inject_Z (Z.of_nat (S n)) == inject_Z (Z.of_nat n) + 1)%Q.
Proof. rewrite Nat2Z.inj_succ. unfold Z.succ. now rewrite inject_Z_plus. Qed.

Lemma sum_at_least (lo : Q) (xs : list Q) (a : Q) :
  Forall (fun x => lo <= x)%Q xs ->
  (a + inject_Z (Z.of_nat (length xs)) * lo <= fold_left Qplus xs a)%Q.
Proof.
  intros H. revert a. induction H as [|x xs Hlo _ IH]; intros a.
  - cbn [fold_left length Z.of_nat]. change (inject_Z 0) with 0%Q. lraQ.
  - cbn [fold_left length]. pose proof (inject_succ (length xs)) as Hn.
    eapply Qle_trans; [|exact (IH (a + x)%Q)]. rewrite Hn. lraQ.
Qed.

Lemma sum_at_most (hi : Q) (xs : list Q) (a : Q) :
  Forall (fun x => x <= hi)%Q xs ->
  (fold_left Qplus xs a <= a + inject_Z (Z.of_nat (length xs)) * hi)%Q.
Proof.
  intros H. revert a. induction H as [|x xs Hhi _ IH]; intros a.
  - cbn [fold_left length Z.of_nat]. change (inject_Z 0) with 0%Q. lraQ.
  - cbn [fold_left length]. pose proof (inject_succ (length xs)) as Hn.
    eapply Qle_trans; [exact (IH (a + x)%Q)|]. rewrite Hn. lraQ.
Qed.

Lemma sum_below (hi : Q) (xs : list Q) (a : Q) :
  xs <> [] ->
  Forall (fun x => x < hi)%Q xs ->
  (fold_left Qplus xs a < a + inject_Z (Z.of_nat (length xs)) * hi)%Q.
Proof.
  intros Hne H. revert a.
  induction H as [|x xs Hx Hxs IH]; intros a; [now elim Hne|].
  cbn [fold_left length]. pose proof (inject_succ (length xs)) as Hn.
  destruct xs as [|y xs'].
  - cbn [fold_left length Z.of_nat] in *. change (inject_Z 0) with 0%Q in Hn.
    rewrite Hn. lraQ.
  - specialize (IH ltac:(discriminate) (a + x)%Q).
    eapply Qlt_le_trans; [exact IH|]. rewrite Hn. lraQ.
Qed.

Lemma count_positive {A : Type} (xs : list A) :
  xs <> [] -> (0 < inject_Z (Z.of_nat (length xs)))%Q.
Proof.
  intros H. destruct xs as [|x xs]; [now elim H|].
  change 0%Q with (inject_Z 0). rewrite <- Zlt_Qlt. cbn [length]. lia.
Qed.

(** The exact mean lies between the bounds of the values. *)
Lemma average_at_least (lo : Q) (xs : list Q) :
  xs <> [] -> Forall (fun x => lo <= x)%Q xs -> (lo <= average xs)%Q.
Proof.
  intros Hne H. pose proof (count_positive xs Hne) as Hn.
  pose proof (sum_at_least lo xs 0 H) as S. unfold average.
  apply Qle_shift_div_l; [exact Hn|]. lraQ.
Qed.

Lemma average_at_most (hi : Q) (xs : list Q) :
  xs <> [] -> Forall (fun x => x <= hi)%Q xs -> (average xs <= hi)%Q.
Proof.
  intros Hne H. pose proof (count_positive xs Hne) as Hn.
  pose proof (sum_at_most hi xs 0 H) as S. unfold average.
  apply Qle_shift_div_r; [exact Hn|]. lraQ.
Qed.

Lemma average_bounds (lo hi : Q) (xs : list Q) :
  xs <> [] ->
  Forall (fun x => lo <= x <= hi)%Q xs ->
  (lo <= average xs <= hi)%Q.
Proof.
  intros Hne H. split.
  - apply average_at_least; [exact Hne|].
    eapply Forall_impl; [|exact H]. now intros x [? _].
  - apply average_at_most; [exact Hne|].
    eapply Forall_impl; [|exact H]. now intros x [_ ?].
Qed.

Lemma average_below (hi : Q) (xs : list Q) :
  xs <> [] -> Forall (fun x => x < hi)%Q xs -> (average xs < hi)%Q.
Proof.
  intros Hne H. pose proof (count_positive xs Hne) as Hn.
  pose proof (sum_below hi xs 0 Hne H) as S. unfold average.
  apply Qlt_shift_div_r; [exact Hn|]. lraQ.
Qed.

Lemma deque_append_nonempty {A : Type} (d : deque A) (a : A) :
  (0 < maxlen d)%nat -> (length (items d) <= maxlen d)%nat ->
  items (deque_append d a) <> [].
Proof.
  intros Hm Hl E. apply (f_equal (@length A)) in E.
  rewrite (deque_append_lastn d a Hl) in E. unfold lastn in E.
  rewrite length_skipn, length_app in E. cbn [length] in E. lia.
Qed.

Lemma deque_append_Forall {A : Type} (Q0 : A -> Prop) (d : deque A) (a : A) :
  Forall Q0 (items d) -> Q0 a -> Forall Q0 (items (deque_append d a)).
Proof.
  intros Hd Ha. unfold deque_append.
  assert (Hg : Forall Q0 (items d ++ [a]))
    by (apply Forall_app; split; [exact Hd|now constructor]).
  destruct (_ <? _)%nat; cbn [items]; [|exact Hg].
  destruct (items d ++ [a]); [constructor|now inversion Hg].
Qed.

(** The float64 mean of up to ten probabilities between [lo] and [hi]. *)
Lemma mean_within (lo hi : Q) (w : list Q) :
  (0 <= lo)%Q -> (hi <= 1)%Q ->
  w <> [] -> (length w <= 10)%nat ->
  Forall (fun x => lo <= x <= hi)%Q w ->
  (lo - mean_tolerance <= Np.mean w <= hi + mean_tolerance)%Q
  /\ unit_interval (Np.mean w).
Proof.
  intros Hlo Hhi Hne Hl Hw.
  assert (Hu : Forall unit_interval w).
  { eapply Forall_impl; [|exact Hw]. intros x [? ?]. split; lraQ. }
  destruct (mean_close w Hne Hl Hu) as [U [Cl Ch]].
  pose proof (average_bounds lo hi w Hne Hw) as [Al Ah].
  split; [split; lraQ|exact U].
Qed.

Section Confidence.

Variable heart_probability : list R -> Q.

Lemma confidence_within_from (lo hi : Q) (frames : list (option (list R)))
    (buf : deque Q) :
  (0 <= lo)%Q -> (hi <= 1)%Q ->
  (forall f, lo <= heart_probability f <= hi)%Q ->
  maxlen buf = 10%nat ->
  (length (items buf) <= 10)%nat ->
  Forall (fun x => lo <= x <= hi)%Q (items buf) ->
  Forall (fun d => forall a, DetectRealtime.avg_probability d = Some a ->
                             (lo - mean_tolerance <= a <= hi + mean_tolerance)%Q
                             /\ unit_interval a)
    (snd (DetectRealtime.main_loop heart_probability frames buf)).
Proof.
  intros Hlo Hhi Hp. revert buf.
  induction frames as [|[f|] frames IH]; intros buf Hm Hl Hb;
    [constructor| |]; rewrite main_loop_cons; cbn [snd]; constructor.
  - cbn [DetectRealtime.update snd DetectRealtime.avg_probability].
    intros a [= <-]. apply mean_within; [exact Hlo|exact Hhi| | |].
    + apply deque_append_nonempty; rewrite Hm; lia.
    + rewrite <- Hm. apply deque_append_bounded. now rewrite Hm.
    + apply deque_append_Forall; [exact Hb|apply Hp].
  - cbn [DetectRealtime.update fst]. apply IH.
    + now rewrite deque_append_maxlen.
    + rewrite <- Hm. apply deque_append_bounded. now rewrite Hm.
    + apply deque_append_Forall; [exact Hb|apply Hp].
  - cbn. discriminate.
  - cbn [DetectRealtime.update fst]. apply IH; cbn; auto; lia.
Qed.

(** X15.  The confidence on screen is as good a probability as the
    classifier's.  When the classifier's outputs lie between [lo] and
    [hi], two probabilities, every smoothed value the loop displays lies
    between them up to the rounding of the float64 mean, [2^-46], and is a
    probability itself: between 0 and 1 exactly. *)
Theorem confidence_within_classifier_range (lo hi : Q)
    (frames : list (option (list R))) (d : DetectRealtime.Display) (a : Q) :
  (0 <= lo)%Q -> (hi <= 1)%Q ->
  (forall f, lo <= heart_probability f <= hi)%Q ->
  In d (snd (DetectRealtime.main_loop heart_probability frames
               DetectRealtime.initial)) ->
  DetectRealtime.avg_probability d = Some a ->
  (lo - mean_tolerance <= a <= hi + mean_tolerance)%Q /\ (0 <= a <= 1)%Q.
Proof.
  intros Hlo Hhi Hp Hin Ha.
  assert (H : Forall (fun d => forall a,
                        DetectRealtime.avg_probability d = Some a ->
                        (lo - mean_tolerance <= a <= hi + mean_tolerance)%Q
                        /\ unit_interval a)
                (snd (DetectRealtime.main_loop heart_probability frames
                        DetectRealtime.initial))).
  { apply confidence_within_from;
      [exact Hlo|exact Hhi|exact Hp|reflexivity|cbn; lia|constructor]. }
  rewrite Forall_forall in H. exact (H d Hin a Ha).
Qed.

(** X16.  The decision of a frame with two hands depends on the frames
    through the window only, and a window clear of the threshold decides:
    when the probabilities since the last gap, the last ten at most, are
    all at least [2^-46] above the threshold the frame shows "HEART", when
    they are all more than [2^-46] below it shows "NO HEART", whatever was
    shown before.  Closer to the threshold the rounding of the float64
    mean decides. *)
Theorem decision_follows_window (frames : list (option (list R))) (f : list R) :
  let shown :=
    snd (DetectRealtime.update heart_probability (Some f)
           (fst (DetectRealtime.main_loop heart_probability frames
                   DetectRealtime.initial))) in
  let window :=
    lastn 10 (map heart_probability (since_gap (frames ++ [Some f]))) in
  DetectRealtime.avg_probability shown = Some (Np.mean window)
  /\ DetectRealtime.is_gesture shown
     = Qle_bool DetectRealtime.HEART_THRESHOLD (Np.mean window)
  /\ (Forall (fun p => DetectRealtime.HEART_THRESHOLD + mean_tolerance <= p <= 1)%Q
        window ->
      DetectRealtime.is_gesture shown = true)
  /\ (Forall (fun p => 0 <= p < DetectRealtime.HEART_THRESHOLD - mean_tolerance)%Q
        window ->
      DetectRealtime.is_gesture shown = false).
Proof.
  cbv zeta.
  pose proof (window_from heart_probability [] (frames ++ [Some f])
                DetectRealtime.initial eq_refl eq_refl) as Hw.
  fold (since_gap (frames ++ [Some f])) in Hw.
  rewrite main_loop_snoc in Hw.
  pose proof (is_gesture_threshold heart_probability f
                (fst (DetectRealtime.main_loop heart_probability frames
                        DetectRealtime.initial))) as Hg.
  rewrite Hw in Hg.
  set (window := lastn 10 (map heart_probability (since_gap (frames ++ [Some f]))))
    in *.
  assert (Hne : window <> []).
  { rewrite <- Hw. cbn [DetectRealtime.update fst].
    destruct (main_loop_invariant heart_probability frames DetectRealtime.initial)
      as [Hm Hl]; [cbn; lia|].
    change (maxlen DetectRealtime.initial) with 10%nat in Hm, Hl.
    apply deque_append_nonempty; rewrite Hm; [lia|exact Hl]. }
  pose proof (lastn_length 10
                (map heart_probability (since_gap (frames ++ [Some f])))) as Hl.
  fold window in Hl.
  pose proof threshold_value as Ht.
  split; [|split; [exact Hg|split]].
  - cbn [DetectRealtime.update snd DetectRealtime.avg_probability].
    f_equal. f_equal. exact Hw.
  - intros Hall. rewrite Hg. apply Qle_bool_iff.
    destruct (mean_within (DetectRealtime.HEART_THRESHOLD + mean_tolerance) 1
                window) as [[Hlo _] _];
      [rewrite Ht; unfold mean_tolerance; lraQ|lraQ|exact Hne|exact Hl|exact Hall|].
    lraQ.
  - intros Hall. rewrite Hg. apply Qle_bool_false.
    assert (Hu : Forall unit_interval window).
    { eapply Forall_impl; [|exact Hall]. intros p [H0 H1].
      rewrite Ht in H1. unfold mean_tolerance in H1. split; lraQ. }
    destruct (mean_close window Hne Hl Hu) as [_ [_ Ch]].
    assert (Hb : (average window < DetectRealtime.HEART_THRESHOLD - mean_tolerance)%Q).
    { apply average_below; [exact Hne|].
      eapply Forall_impl; [|exact Hall]. now intros p [_ ?]. }
    lraQ.
Qed.

End Confidence.

Lemma confidence_within_classifier_range_witness :
  (0 - mean_tolerance <= Np.mean [Float64.round 0.9] <= 1 + mean_tolerance)%Q
  /\ (0 <= Np.mean [Float64.round 0.9] <= 1)%Q.
Proof.
  apply (confidence_within_classifier_range (constant 0.9) 0 1 (ramp 1)
           {| DetectRealtime.display_text := "HEART <3";
              DetectRealtime.avg_probability :=
                Some (Np.mean [Float64.round 0.9]) |}
           (Np.mean [Float64.round 0.9])).
  - lraQ.
  - lraQ.
  - intros g. split; vm_compute; discriminate.
  - left. vm_compute. reflexivity.
  - reflexivity.
Defined.

Lemma decision_follows_window_witness :
  DetectRealtime.is_gesture
    (snd (DetectRealtime.update (constant 0.9) (Some (repeat 0 85))
            (fst (DetectRealtime.main_loop (constant 0.9)
                    [Some (repeat 0 10); None; Some (repeat 0 90)]
                    DetectRealtime.initial)))) = true.
Proof.
  apply (decision_follows_window (constant 0.9)
           [Some (repeat 0 10); None; Some (repeat 0 90)] (repeat 0 85)).
  repeat constructor; vm_compute; discriminate.
Defined.

(** ** The probability bar *)

Lemma int_of_rational_ge (x : Q) (n : Z) :
  (0 < n)%Z -> ((n <= int_of_rational x)%Z <-> (inject_Z n <= x)%Q).
Proof.
  intros Hn. unfold int_of_rational.
  destruct (Qle_bool 0 x) eqn:E.
  - split; intros H.
    + eapply Qle_trans; [|apply Qfloor_le]. now rewrite <- Zle_Qle.
    + rewrite <- (Qfloor_Z n). now apply Qfloor_resp_le.
  - assert (Hneg : (x < 0)%Q).
    { apply Qnot_le_lt. intros Hle. apply Qle_bool_iff in Hle. congruence. }
    assert (Hc : (Qceiling x <= 0)%Z).
    { change 0%Z with (Qceiling (inject_Z 0)). apply Qceiling_resp_le.
      now apply Qlt_le_weak. }
    split; intros H; [lia|].
    assert (Hp : (0 < inject_Z n)%Q)
      by (change 0%Q with (inject_Z 0); now rewrite <- Zlt_Qlt).
    lraQ.
Qed.

Lemma int_of_rational_range (x : Q) (n : Z) :
  (0 <= x <= inject_Z n)%Q -> (0 <= int_of_rational x <= n)%Z.
Proof.
  intros [H0 Hn]. unfold int_of_rational.
  apply Qle_bool_iff in H0 as Hb. rewrite Hb. split.
  - change 0%Z with (Qfloor (inject_Z 0)). now apply Qfloor_resp_le.
  - rewrite <- (Qfloor_Z n). now apply Qfloor_resp_le.
Qed.

(** A number from [2^k] on rounds to one from [2^k] on. *)
Lemma round_ge_pow2 (x : Q) (k : Z) :
  (0 <= k)%Z -> (Float64.pow2 k <= x)%Q -> (Float64.pow2 k <= Float64.round x)%Q.
Proof.
  intros Hk Hx. pose proof (pow2_pos k) as Hp.
  destruct (Z.le_gt_cases (ulp_exp x) k) as [Hle|Hgt].
  - pose proof (round_ge_grid x 1 k Hle) as G. rewrite Qmult_1_l in G.
    now apply G.
  - assert (Hi : (Float64.pow2 (ulp_exp x + 52) <= x)%Q).
    { unfold ulp_exp, Float64.cexp in *.
      assert (Ex : (Qabs (Qred x) == x)%Q).
      { rewrite Qred_correct. apply Qabs_pos. lraQ. }
      assert (Hq : (0 < Qabs (Qred x))%Q) by (rewrite Ex; lraQ).
      destruct (ilog2_spec _ Hq) as [Sl _].
      replace (Z.max (Float64.ilog2 (Qabs (Qred x)) - 52) (-1074) + 52)%Z
        with (Float64.ilog2 (Qabs (Qred x))) by lia.
      eapply Qle_trans; [exact Sl|]. apply Qle_lteq. right. exact Ex. }
    pose proof (round_ge_grid x (2 ^ 52) (ulp_exp x) (Z.le_refl _)) as G.
    rewrite <- pow2_int, <- pow2_add in G by lia.
    rewrite (Z.add_comm 52) in G.
    eapply Qle_trans; [|apply G; exact Hi].
    apply pow2_le. lia.
Qed.

Lemma ulp_exp_256 (x : Q) : (0 < x < 256)%Q -> (ulp_exp x <= -45)%Z.
Proof.
  intros [H0 H1].
  assert (H : (ulp_exp x <= Z.max (7 - 52) (-1074))%Z).
  { apply ulp_exp_le. rewrite Qabs_pos by lraQ.
    split; [exact H0|]. change (Float64.pow2 (7 + 1)) with 256%Q. exact H1. }
  lia.
Qed.

Lemma round_le_integer (x : Q) (K : Z) :
  (0 <= K)%Z -> (x < 9007199254740992)%Q -> (x <= inject_Z K)%Q ->
  (Float64.round x <= inject_Z K)%Q.
Proof.
  intros HK H1 Hx.
  assert (HKq : (0 <= inject_Z K)%Q)
    by (change 0%Q with (inject_Z 0); now rewrite <- Zle_Qle).
  destruct (Qlt_le_dec 0 x) as [Hpos|Hneg].
  - assert (He : (ulp_exp x <= Z.max (52 - 52) (-1074))%Z).
    { apply ulp_exp_le. rewrite Qabs_pos by lraQ.
      split; [exact Hpos|].
      change (Float64.pow2 (52 + 1)) with 9007199254740992%Q. exact H1. }
    pose proof (round_le_grid x K 0 ltac:(lia)) as G.
    change (Float64.pow2 0) with 1%Q in G. rewrite Qmult_1_r in G.
    now apply G.
  - pose proof (round_nonpos x Hneg). lraQ.
Qed.

Lemma round_ge_240 (x : Q) : (240 <= x)%Q -> (240 <= Float64.round x)%Q.
Proof.
  intros H. destruct (Qlt_le_dec x 256) as [Hlt|Hge].
  - pose proof (ulp_exp_256 x ltac:(split; lraQ)) as He.
    pose proof (round_ge_grid x 240 0 ltac:(lia)) as G.
    change (Float64.pow2 0) with 1%Q in G. rewrite Qmult_1_r in G.
    change (inject_Z 240) with 240%Q in G. now apply G.
  - pose proof (round_ge_pow2 x 8 ltac:(lia)) as G.
    change (Float64.pow2 8) with 256%Q in G.
    specialize (G Hge). lraQ.
Qed.

Lemma round_below_240 (x : Q) :
  (x <= 300 * below_threshold)%Q -> (Float64.round x < 240)%Q.
Proof.
  intros H. unfold below_threshold in H.
  destruct (Qlt_le_dec x 128) as [Hs|Hb].
  - assert (Float64.round x <= inject_Z 128)%Q.
    { apply round_le_integer; [lia|lraQ|]. change (inject_Z 128) with 128%Q. lraQ. }
    change (inject_Z 128) with 128%Q in *. lraQ.
  - assert (He : ulp_exp x = (-45)%Z).
    { pose proof (ulp_exp_256 x ltac:(split; lraQ)).
      pose proof (ulp_exp_ge x 7) as G. rewrite Qabs_pos in G by lraQ.
      change (Float64.pow2 7) with 128%Q in G. specialize (G Hb). lia. }
    rewrite round_spec, He.
    assert (Hr : (Py.round_half_even (x / Float64.pow2 (-45))
                  <= 8444249301319679)%Z).
    { apply round_half_even_below.
      apply Qlt_shift_div_r; [apply pow2_pos|].
      assert (E : (Float64.pow2 (-45) == 1 # 35184372088832)%Q) by reflexivity.
      rewrite E. change (inject_Z 8444249301319679) with 8444249301319679%Q.
      lraQ. }
    rewrite Zle_Qle in Hr.
    set (r := Py.round_half_even (x / Float64.pow2 (-45))) in *.
    assert (E : (Float64.pow2 (-45) == 1 # 35184372088832)%Q) by reflexivity.
    rewrite E. change (inject_Z 8444249301319679) with 8444249301319679%Q in Hr.
    lraQ.
Qed.

(** A float64 below the threshold is at most the float64 before it. *)
Lemma round_below_threshold (y : Q) :
  (Float64.round y < DetectRealtime.HEART_THRESHOLD)%Q -> (Float64.round y <= below_threshold)%Q.
Proof.
  intros H.
  assert (Ht : (DetectRealtime.HEART_THRESHOLD == 3602879701896397 # 4503599627370496)%Q) by reflexivity.
  rewrite Ht in H. unfold below_threshold.
  destruct (Qlt_le_dec y (1 # 2)) as [Hs|Hb].
  - assert (Float64.round y <= 1 # 2)%Q; [|lraQ].
    destruct (Qlt_le_dec 0 y) as [Hpos|Hneg].
    + assert (He : (ulp_exp y <= Z.max (-2 - 52) (-1074))%Z).
      { apply ulp_exp_le. rewrite Qabs_pos by lraQ.
        split; [exact Hpos|]. change (Float64.pow2 (-2 + 1)) with (/ 2)%Q.
        assert (E : (/ 2 == 1 # 2)%Q) by reflexivity. rewrite E. exact Hs. }
      pose proof (round_le_grid y 1 (-1) ltac:(lia)) as G.
      rewrite Qmult_1_l in G.
      assert (E : (Float64.pow2 (-1) == 1 # 2)%Q) by reflexivity.
      rewrite E in G. apply G. lraQ.
    + pose proof (round_nonpos y Hneg). lraQ.
  - assert (He : (-53 <= ulp_exp y)%Z).
    { pose proof (ulp_exp_ge y (-1)) as G. rewrite Qabs_pos in G by lraQ.
      assert (E : (Float64.pow2 (-1) == 1 # 2)%Q) by reflexivity.
      rewrite E in G. specialize (G Hb). lia. }
    rewrite round_spec in *.
    set (M := Py.round_half_even (y / Float64.pow2 (ulp_exp y))) in *.
    rewrite (grid_point M (ulp_exp y) (-53) He) in *.
    set (M' := (M * 2 ^ (ulp_exp y - -53))%Z) in *.
    assert (E : (Float64.pow2 (-53) == 1 # 9007199254740992)%Q) by reflexivity.
    rewrite E in *.
    assert (Hlt : (inject_Z M' < inject_Z 7205759403792794)%Q).
    { change (inject_Z 7205759403792794) with 7205759403792794%Q. lraQ. }
    rewrite <- Zlt_Qlt in Hlt.
    assert (Hle : (M' <= 7205759403792793)%Z) by lia.
    rewrite Zle_Qle in Hle.
    change (inject_Z 7205759403792793) with 7205759403792793%Q in Hle.
    lraQ.
Qed.

(** The fill of the bar reaches 240 columns exactly from the threshold
    on. *)
Lemma fill_reaches_threshold (y : Q) :
  (DetectRealtime.HEART_THRESHOLD <= Float64.round y)%Q
  <-> (240 <= Float64.mul (Float64.of_int 300) (Float64.round y))%Q.
Proof.
  assert (Ht : (DetectRealtime.HEART_THRESHOLD == 3602879701896397 # 4503599627370496)%Q) by reflexivity.
  change (Float64.of_int 300) with 300%Q. unfold Float64.mul.
  set (a := Float64.round y) in *.
  split; intros H.
  - apply round_ge_240. rewrite Ht in H. lraQ.
  - apply Qnot_lt_le. intros Hlt.
    pose proof (round_below_threshold y Hlt) as Hb. fold a in Hb.
    pose proof (round_below_240 (300 * a)) as G.
    assert (Float64.round (300 * a) < 240)%Q by (apply G; lraQ).
    lraQ.
Qed.

(** The fill on values known from Python: [int(300 * 0.57)] is 170,
    [int(300 * 0.8)] is 240. *)
Lemma fill_width_reference_values :
  DetectRealtime.fill_width (Float64.round 0.57) = 170%Z
  /\ DetectRealtime.fill_width DetectRealtime.HEART_THRESHOLD = 240%Z
  /\ DetectRealtime.fill_width below_threshold = 239%Z.
Proof. repeat split; vm_compute; reflexivity. Qed.

(** X17.  The bar says what the banner says.  For the confidence [a] a
    frame displays, on a frame of any width: the fill reaches the red
    threshold line exactly when the frame shows "HEART", it is green
    exactly then, and for a confidence between 0 and 1 it stays within
    the 300 pixels of the bar's background. *)
Theorem bar_agrees_with_banner (heart_probability : list R -> Q)
    (f : list R) (buf : deque Q) (columns : Z) (a : Q) :
  let shown := snd (DetectRealtime.update heart_probability (Some f) buf) in
  DetectRealtime.avg_probability shown = Some a ->
  (DetectRealtime.is_gesture shown = true
   <-> (DetectRealtime.threshold_x columns
        <= DetectRealtime.bar_x columns + DetectRealtime.fill_width a)%Z)
  /\ (DetectRealtime.is_gesture shown = true
      <-> DetectRealtime.bar_color a = (0, 255, 0)%Z)
  /\ ((0 <= a <= 1)%Q ->
      (DetectRealtime.bar_x columns
       <= DetectRealtime.bar_x columns + DetectRealtime.fill_width a
       <= DetectRealtime.bar_x columns + DetectRealtime.bar_width)%Z).
Proof.
  cbv zeta. intros Ha.
  pose proof (is_gesture_threshold heart_probability f buf) as Hg.
  cbn [DetectRealtime.update snd DetectRealtime.avg_probability] in Ha.
  injection Ha as Ha. rewrite Hg. cbn [DetectRealtime.update fst].
  rewrite Ha.
  assert (Hy : exists y, a = Float64.round y)
    by (rewrite <- Ha; eexists; reflexivity).
  destruct Hy as [y ->]. clear Ha Hg.
  unfold DetectRealtime.threshold_x, DetectRealtime.fill_width,
    DetectRealtime.bar_color.
  assert (E240 : int_of_rational
                   (Float64.mul (Float64.of_int DetectRealtime.bar_width)
                      DetectRealtime.HEART_THRESHOLD) = 240%Z)
    by (vm_compute; reflexivity).
  rewrite E240. change DetectRealtime.bar_width with 300%Z.
  split; [|split].
  - rewrite Qle_bool_iff, fill_reaches_threshold.
    assert (H240 : (240 <= int_of_rational
                             (Float64.mul (Float64.of_int 300) (Float64.round y)))%Z
                   <-> (inject_Z 240
                        <= Float64.mul (Float64.of_int 300) (Float64.round y))%Q)
      by (apply int_of_rational_ge; lia).
    change (inject_Z 240) with 240%Q in H240.
    split; intros H.
    + apply H240 in H. lia.
    + apply H240. lia.
  - destruct (Qle_bool DetectRealtime.HEART_THRESHOLD (Float64.round y));
      split; intros H; try reflexivity; discriminate.
  - intros [H0 H1].
    assert (0 <= int_of_rational
                   (Float64.mul (Float64.of_int 300) (Float64.round y))
            <= 300)%Z; [|lia].
    apply int_of_rational_range. change (Float64.of_int 300) with 300%Q.
    unfold Float64.mul. split.
    + apply round_nonneg. lraQ.
    + apply round_le_integer; [lia|lraQ|].
      change (inject_Z 300) with 300%Q. lraQ.
Qed.

Lemma bar_agrees_with_banner_witness :
  (DetectRealtime.threshold_x 640
   <= DetectRealtime.bar_x 640
      + DetectRealtime.fill_width (Np.mean [Float64.round 0.9]))%Z.
Proof.
  destruct (bar_agrees_with_banner (constant 0.9) [] DetectRealtime.initial
              640 (Np.mean [Float64.round 0.9])) as ([H _] & _);
    [vm_compute; reflexivity|].
  apply H. vm_compute. reflexivity.
Defined.

(** ** Instant saves and the hold timer *)

Lemma auto_events_app (h1 h2 : list CollectData.Event) :
  auto_events (h1 ++ h2) = auto_events h1 ++ auto_events h2.
Proof. apply filter_app. Qed.

Lemma same_capture_refl (st : CollectData.State) : same_capture st st.
Proof. repeat split. Qed.

Lemma auto_capture_same_capture (fr fr' : CollectData.Frame)
    (st st' : CollectData.State) :
  CollectData.features fr = CollectData.features fr' ->
  CollectData.time_195 fr = CollectData.time_195 fr' ->
  CollectData.time_196 fr = CollectData.time_196 fr' ->
  same_capture st st' ->
  same_capture (CollectData.auto_capture fr st) (CollectData.auto_capture fr' st').
Proof.
  intros Hf H5 H6 S. pose proof S as (S1 & S2 & S3 & S4 & S5).
  unfold CollectData.auto_capture.
  rewrite <- Hf, <- H5, <- H6, <- S1, <- S2.
  destruct (CollectData.features fr) as [f|];
    destruct (CollectData.pending_sample st); cbn [negb];
    try exact S.
  - destruct (Qle_bool _ _); cbn [andb]; unfold same_capture;
      cbn [CollectData.two_hands_start_time CollectData.pending_sample
           CollectData.captured_features CollectData.auto_sample_status
           CollectData.history].
    + rewrite !auto_events_app, S5. repeat split.
    + repeat split; assumption.
  - unfold same_capture;
      cbn [CollectData.two_hands_start_time CollectData.pending_sample
           CollectData.captured_features CollectData.auto_sample_status
           CollectData.history].
    repeat split; assumption.
Qed.

Lemma save_instant_same_capture (fr : CollectData.Frame) (label : Z)
    (st st' : CollectData.State) :
  same_capture st st' ->
  same_capture (CollectData.save_instant fr label st) st'.
Proof.
  intros S. unfold CollectData.save_instant.
  destruct (CollectData.features fr) as [f|]; [|exact S].
  destruct S as (S1 & S2 & S3 & S4 & S5). unfold same_capture.
  cbn [CollectData.two_hands_start_time CollectData.pending_sample
       CollectData.captured_features CollectData.auto_sample_status
       CollectData.history].
  rewrite auto_events_app. cbn. rewrite app_nil_r. repeat split; assumption.
Qed.

Lemma save_pending_same_capture (label : Z) (st st' : CollectData.State) :
  same_capture st st' ->
  same_capture (CollectData.save_pending label st)
    (CollectData.save_pending label st').
Proof.
  intros S. pose proof S as (S1 & S2 & S3 & S4 & S5).
  unfold CollectData.save_pending. rewrite <- S2, <- S3.
  destruct (CollectData.pending_sample st); [|exact S].
  destruct (CollectData.captured_features st) as [c|]; [|exact S].
  unfold same_capture.
  cbn [CollectData.two_hands_start_time CollectData.pending_sample
       CollectData.captured_features CollectData.auto_sample_status
       CollectData.history].
  rewrite !auto_events_app, S5. repeat split.
Qed.

Lemma no_key_is (lower upper : ascii) :
  In (lower, upper)
    [("q", "Q"); ("h", "H"); ("n", "N"); ("a", "A"); ("d", "D")]%char ->
  CollectData.key_is no_key lower upper = false.
Proof.
  intros H. cbn in H.
  repeat (destruct H as [[= <- <-]|H]; [reflexivity|]). contradiction.
Qed.

Lemma key_is_exclusive (k : Z) :
  CollectData.key_is k "h" "H" || CollectData.key_is k "n" "N" = true ->
  CollectData.key_is k "q" "Q" = false.
Proof.
  unfold CollectData.key_is. intros H.
  destruct (Z.eqb_spec k (ord "q")) as [->|_]; [discriminate H|].
  destruct (Z.eqb_spec k (ord "Q")) as [->|_]; [discriminate H|].
  reflexivity.
Qed.

Lemma handle_key_same_capture (fr : CollectData.Frame)
    (st st' : CollectData.State) :
  same_capture st st' ->
  match CollectData.handle_key fr st,
        CollectData.handle_key (without_instant fr) st' with
  | Some st2, Some st2' => same_capture st2 st2'
  | None, None => True
  | _, _ => False
  end.
Proof.
  intros S. unfold without_instant.
  destruct (CollectData.key_is (CollectData.key fr) "h" "H"
            || CollectData.key_is (CollectData.key fr) "n" "N") eqn:Ehn.
  - unfold CollectData.handle_key at 2. cbn [CollectData.key].
    rewrite !no_key_is by (cbn; tauto).
    unfold CollectData.handle_key. rewrite (key_is_exclusive _ Ehn).
    destruct (CollectData.key_is (CollectData.key fr) "h" "H");
      [now apply save_instant_same_capture|].
    cbn [orb] in Ehn. rewrite Ehn. now apply save_instant_same_capture.
  - apply orb_false_elim in Ehn. destruct Ehn as [Eh En].
    unfold CollectData.handle_key. rewrite Eh, En.
    destruct (CollectData.key_is _ "q" "Q"); [exact I|].
    destruct (CollectData.key_is _ "a" "A");
      [now apply save_pending_same_capture|].
    destruct (CollectData.key_is _ "d" "D");
      [now apply save_pending_same_capture|exact S].
Qed.

Lemma without_instant_reads (fr : CollectData.Frame) :
  CollectData.features (without_instant fr) = CollectData.features fr
  /\ CollectData.time_195 (without_instant fr) = CollectData.time_195 fr
  /\ CollectData.time_196 (without_instant fr) = CollectData.time_196 fr.
Proof. unfold without_instant. destruct (_ || _); repeat split. Qed.

Lemma main_loop_same_capture (frames : list CollectData.Frame)
    (st st' : CollectData.State) :
  same_capture st st' ->
  same_capture (CollectData.main_loop frames st)
    (CollectData.main_loop (map without_instant frames) st').
Proof.
  revert st st'. induction frames as [|fr rest IH]; intros st st' S;
    [exact S|].
  cbn [map CollectData.main_loop].
  destruct (without_instant_reads fr) as (Rf & R5 & R6).
  pose proof (auto_capture_same_capture fr (without_instant fr) st st'
                (eq_sym Rf) (eq_sym R5) (eq_sym R6) S) as S1.
  pose proof (handle_key_same_capture fr _ _ S1) as S2.
  destruct (CollectData.handle_key fr (CollectData.auto_capture fr st));
    destruct (CollectData.handle_key (without_instant fr)
                (CollectData.auto_capture (without_instant fr) st'));
    try contradiction; [now apply IH|exact S1].
Qed.

(** X18.  Saving frames by hand does not disturb the auto-capture.  A
    session and the same session with every [H] and [N] key left out end
    with the same hold timer, the same pending snapshot, the same prompt
    and the same sequence of snapshots taken and labelled; they differ
    in the instant saves and the counters only. *)
Theorem instant_saves_leave_capture_alone (frames : list CollectData.Frame) :
  let st := CollectData.main_loop frames CollectData.initial in
  let st' := CollectData.main_loop (map without_instant frames)
               CollectData.initial in
  CollectData.two_hands_start_time st = CollectData.two_hands_start_time st'
  /\ CollectData.pending_sample st = CollectData.pending_sample st'
  /\ CollectData.captured_features st = CollectData.captured_features st'
  /\ CollectData.auto_sample_status st = CollectData.auto_sample_status st'
  /\ auto_events (CollectData.history st)
     = auto_events (CollectData.history st').
Proof.
  exact (main_loop_same_capture frames _ _
           (same_capture_refl CollectData.initial)).
Qed.

(** ** How fast the confidence can move *)

Lemma sum_shift (xs : list Q) (a : Q) :
  (fold_left Qplus xs a == a + fold_left Qplus xs 0)%Q.
Proof.
  revert a. induction xs as [|x xs IH]; intros a; cbn [fold_left].
  - lraQ.
  - rewrite (IH (a + x)%Q), (IH (0 + x)%Q). lraQ.
Qed.

Lemma average_slides (oldest p : Q) (rest : list Q) :
  length rest = 9%nat ->
  (average (rest ++ [p]) - average (oldest :: rest) == (p - oldest) / 10)%Q.
Proof.
  intros Hr. unfold average. rewrite length_app. cbn [length]. rewrite Hr.
  rewrite fold_left_app. cbn [fold_left].
  pose proof (sum_shift rest (0 + oldest)%Q) as Hs.
  change (inject_Z (Z.of_nat (9 + 1))) with 10%Q.
  change (inject_Z (Z.of_nat 10)) with 10%Q.
  set (s := fold_left Qplus rest 0%Q) in *.
  set (s' := fold_left Qplus rest (0 + oldest)%Q) in *.
  rewrite Hs. field.
Qed.

Lemma main_loop_Forall (heart_probability : list R -> Q) (P : Q -> Prop)
    (frames : list (option (list R))) (buf : deque Q) :
  (forall g, P (heart_probability g)) ->
  Forall P (items buf) ->
  Forall P (items (fst (DetectRealtime.main_loop heart_probability frames buf))).
Proof.
  intros Hp. revert buf.
  induction frames as [|[f|] frames IH]; intros buf Hb; [exact Hb| |];
    rewrite main_loop_cons; cbn [fst DetectRealtime.update]; apply IH.
  - apply deque_append_Forall; [exact Hb|apply Hp].
  - constructor.
Qed.

(** X19.  Once the window is full, one frame moves the exact mean of the
    window by a tenth of the difference between the new probability and
    the one it evicts.  The confidence displayed is the float64 mean,
    within [2^-46] of the exact one before and after, so it moves by that
    tenth up to [2^-45], and by at most 0.1 and [2^-45] from one frame to
    the next. *)
Theorem confidence_moves_by_a_tenth (heart_probability : list R -> Q)
    (frames : list (option (list R))) (f : list R) (oldest : Q)
    (rest : list Q) :
  let buf := fst (DetectRealtime.main_loop heart_probability frames
                    DetectRealtime.initial) in
  let buf' := fst (DetectRealtime.update heart_probability (Some f) buf) in
  let before := Np.mean (items buf) in
  let after := Np.mean (items buf') in
  (forall g, unit_interval (heart_probability g)) ->
  items buf = oldest :: rest ->
  length (items buf) = 10%nat ->
  (average (items buf') - average (items buf)
   == (heart_probability f - oldest) / 10)%Q
  /\ ((heart_probability f - oldest) / 10 - 2 * mean_tolerance
      <= after - before
      <= (heart_probability f - oldest) / 10 + 2 * mean_tolerance)%Q
  /\ (- (1 / 10) - 2 * mean_tolerance <= after - before
      <= 1 / 10 + 2 * mean_tolerance)%Q.
Proof.
  cbv zeta. intros Hp Hi Hfull.
  destruct (main_loop_invariant heart_probability frames DetectRealtime.initial)
    as [Hm _]; [cbn; lia|].
  change (maxlen DetectRealtime.initial) with 10%nat in Hm.
  pose proof (main_loop_Forall heart_probability unit_interval frames
                DetectRealtime.initial Hp ltac:(constructor)) as Hu.
  cbn [DetectRealtime.update fst].
  rewrite (deque_append_full _ (heart_probability f) oldest rest Hi)
    by now rewrite Hm.
  rewrite Hi in *. cbn [length] in Hfull. injection Hfull as Hr.
  pose proof (average_slides oldest (heart_probability f) rest Hr) as E.
  apply Forall_cons_iff in Hu as [Ho Hrest].
  destruct (mean_close (oldest :: rest)) as [_ [Bl Bh]];
    [discriminate|cbn [length]; lia|now constructor|].
  destruct (mean_close (rest ++ [heart_probability f])) as [_ [Al Ah]].
  { now destruct rest. }
  { rewrite length_app. cbn [length]. lia. }
  { apply Forall_app. split; [exact Hrest|]. constructor; [apply Hp|constructor]. }
  split; [exact E|].
  assert (E1 : ((heart_probability f - oldest) / 10
                == (heart_probability f - oldest) * (1 # 10))%Q) by field.
  assert (E2 : (1 / 10 == 1 # 10)%Q) by reflexivity.
  destruct Ho as [Ho0 Ho1]. destruct (Hp f) as [Hf0 Hf1].
  rewrite E1 in *. rewrite E2. split; split; lraQ.
Qed.

Lemma confidence_moves_by_a_tenth_witness :
  (average (items (fst (DetectRealtime.update wavering (Some (repeat 0%R 12))
                          (fst (DetectRealtime.main_loop wavering (ramp 10)
                                  DetectRealtime.initial)))))
   - average (items (fst (DetectRealtime.main_loop wavering (ramp 10)
                            DetectRealtime.initial)))
   == (wavering (repeat 0%R 12) - Float64.round 0.7) / 10)%Q.
Proof.
  apply (confidence_moves_by_a_tenth wavering (ramp 10) (repeat 0%R 12)
           (Float64.round 0.7)
           (flat_map (fun _ => [Float64.round 0.9; Float64.round 0.7])
              (seq 0 4) ++ [Float64.round 0.9])).
  - intros g. unfold wavering.
    destruct (Nat.even (length g)); split; vm_compute; discriminate.
  - vm_compute. reflexivity.
  - reflexivity.
Defined.
